(** * TrashSort: the nearest-dump-yard pipeline of [myapp/views.py]

    A shallow embedding of the location-resolution and ranking code of
    [src/myapp/views.py] ([_normalize_place_text], [_address_to_latlng_with_debug],
    [_geolocate], [_places_nearby], [_geocode_city_area], [_distance_matrix],
    [find_dumpyards]) and the properties of it that the specification states.

    Modelling choices, all local to this file:
    - Python [str] values are [string]s of 7-bit code points.  The character
      classes below follow CPython on that range; code points above 127 are
      treated as caseless, non-blank symbols, and what depends on the case
      mappings is stated for 7-bit text ([isascii]).
    - The numbers of a JSON document are exact rationals ([Q]).  The floats
      of the price pages are finite values, infinities or NaN ([PyFloat]);
      what an arithmetic operation rounds to is left open.
    - The outside world is a function from the history of outbound calls and
      the current call to the provider's answer; every function that talks to
      a provider runs in a small state-and-exception monad over that history. *)

From Stdlib Require Import Bool Arith Lia List String Ascii ZArith QArith.
From Stdlib Require Import Permutation Sorted Lqa.
Import ListNotations.
Local Close Scope Q_scope.
Local Open Scope string_scope.
Local Open Scope list_scope.
Local Open Scope nat_scope.

(** ** Python strings *)

Module PyStr.

(** [str.isspace] on one code point: TAB..CR, FS..US and SPACE. *)
Definition is_space (c : ascii) : bool :=
  let n := nat_of_ascii c in
  ((9 <=? n) && (n <=? 13)) || ((28 <=? n) && (n <=? 32)).

Definition is_lower (c : ascii) : bool :=
  let n := nat_of_ascii c in (97 <=? n) && (n <=? 122).

Definition is_upper (c : ascii) : bool :=
  let n := nat_of_ascii c in (65 <=? n) && (n <=? 90).

Definition is_alpha (c : ascii) : bool := is_lower c || is_upper c.

Definition is_digit (c : ascii) : bool :=
  let n := nat_of_ascii c in (48 <=? n) && (n <=? 57).

Definition to_upper (c : ascii) : ascii :=
  if is_lower c then ascii_of_nat (nat_of_ascii c - 32) else c.

Definition to_lower (c : ascii) : ascii :=
  if is_upper c then ascii_of_nat (nat_of_ascii c + 32) else c.

(** Equality of two code points under [re.IGNORECASE]. *)
Definition eqb_ci (a b : ascii) : bool := Ascii.eqb (to_lower a) (to_lower b).

Fixpoint map_str (f : ascii -> ascii) (s : string) : string :=
  match s with
  | EmptyString => EmptyString
  | String c s' => String (f c) (map_str f s')
  end.

Fixpoint forallb_str (p : ascii -> bool) (s : string) : bool :=
  match s with
  | EmptyString => true
  | String c s' => p c && forallb_str p s'
  end.

(** [str.upper], [str.lower], [str.capitalize], [str.isalpha]. *)
Definition upper (s : string) : string := map_str to_upper s.
Definition lower (s : string) : string := map_str to_lower s.

Definition capitalize (s : string) : string :=
  match s with
  | EmptyString => EmptyString
  | String c s' => String (to_upper c) (lower s')
  end.

Definition isalpha (s : string) : bool :=
  match s with
  | EmptyString => false
  | _ => forallb_str is_alpha s
  end.

(** [str.isascii]: every code point is below 128, the range on which the
    classes and the case mappings above are CPython's. *)
Definition isascii (s : string) : bool :=
  forallb_str (fun c => nat_of_ascii c <? 128) s.

(** [str.lstrip], [str.rstrip], [str.strip] with no argument. *)
Fixpoint lstrip (s : string) : string :=
  match s with
  | EmptyString => EmptyString
  | String c s' => if is_space c then lstrip s' else s
  end.

Fixpoint rstrip (s : string) : string :=
  match s with
  | EmptyString => EmptyString
  | String c s' =>
      match rstrip s' with
      | EmptyString => if is_space c then EmptyString else String c EmptyString
      | r => String c r
      end
  end.

Definition strip (s : string) : string := rstrip (lstrip s).

(** [str.split] with no argument: maximal runs of non-blank code points.
    [acc] is the token being read. *)
Fixpoint split_acc (acc : string) (s : string) : list string :=
  match s with
  | EmptyString =>
      match acc with EmptyString => [] | _ => [acc] end
  | String c s' =>
      if is_space c then
        match acc with
        | EmptyString => split_acc EmptyString s'
        | _ => acc :: split_acc EmptyString s'
        end
      else split_acc (acc ++ String c EmptyString) s'
  end.

Definition split (s : string) : list string := split_acc EmptyString s.

(** [sep.join(parts)]. *)
Definition join (sep : string) (parts : list string) : string :=
  String.concat sep parts.

(** [s.startswith(w)], and the same under [re.IGNORECASE]. *)
Fixpoint starts_with_ci (w s : string) : bool :=
  match w with
  | EmptyString => true
  | String a w' =>
      match s with
      | EmptyString => false
      | String b s' => eqb_ci a b && starts_with_ci w' s'
      end
  end.

Fixpoint starts_with (w s : string) : bool :=
  match w with
  | EmptyString => true
  | String a w' =>
      match s with
      | EmptyString => false
      | String b s' => Ascii.eqb a b && starts_with w' s'
      end
  end.

(** [needle in s]. *)
Fixpoint contains (needle s : string) : bool :=
  starts_with needle s ||
  match s with
  | EmptyString => false
  | String _ s' => contains needle s'
  end.

Fixpoint drop (n : nat) (s : string) : string :=
  match n, s with
  | S k, String _ s' => drop k s'
  | _, _ => s
  end.

End PyStr.

(** ** [_normalize_place_text] (views.py, lines 1-25) *)

Module Normalize.
Import PyStr.

(** The suffix words of the jam-splitting loop, in source order. *)
Definition jam_words : list string :=
  ["university"; "college"; "institute"; "technology"; "school"].

(** [re.sub(fr"(?i)([a-z])({word})", r"\1 \2", s)].  The scan looks, at each
    position, for a letter directly followed by [word]; on a match it emits
    the letter, a space and the matched text, and resumes after the match.
    [skip] counts the code points of the current match still to be copied. *)
Fixpoint jam_sub (word : string) (skip : nat) (s : string) : string :=
  match s with
  | EmptyString => EmptyString
  | String c s' =>
      match skip with
      | S k => String c (jam_sub word k s')
      | O =>
          if is_alpha c && starts_with_ci word s'
          then String c (String " " (jam_sub word (String.length word) s'))
          else String c (jam_sub word 0 s')
      end
  end.

Definition jam_pass (s : string) (word : string) : string := jam_sub word 0 s.

(** [re.sub(r"(?i)^lj\s*", "LJ ", s)]. *)
Definition lj_prefix_sub (s : string) : string :=
  match s with
  | String a (String b rest) =>
      if eqb_ci "l" a && eqb_ci "j" b then "LJ " ++ lstrip rest else s
  | _ => s
  end.

(** [re.sub(r"(?i)^(lj)(university)", r"LJ University", s)]. *)
Definition lj_university_sub (s : string) : string :=
  if starts_with_ci "ljuniversity" s then "LJ University" ++ drop 12 s else s.

(** The loop body of the title-casing step. *)
Definition case_token (tok : string) : string :=
  if (String.length tok <=? 3) && isalpha tok then upper tok else capitalize tok.

Definition _normalize_place_text (text : string) : string :=
  let s := join " " (split (strip text)) in
  if String.eqb s "" then s
  else
    let s := fold_left jam_pass jam_words s in
    let s := lj_prefix_sub s in
    let s := lj_university_sub s in
    let parts := map case_token (split s) in
    join " " parts.

End Normalize.

(** ** Python values and exceptions *)

Module Py.
Import PyStr.

Local Set Warnings "-register-all".

(** A decoded JSON document, which is also what the request handlers pass
    around: [None], [bool], numbers, [str], [list] and [dict] (an association
    list; [lookup] takes the first binding of a key). *)
Inductive json : Type :=
| JNull
| JBool (b : bool)
| JNum (q : Q)
| JStr (s : string)
| JList (l : list json)
| JDict (kv : list (string * json)).

Definition JInt (z : Z) : json := JNum (inject_Z z).

(** The exceptions the modelled code can meet.  [RequestException] is any
    failure of [requests.get]/[requests.post] (no route, timeout, ...);
    [JSONDecodeError] is [r.json()] on a body that is not JSON. *)
Inductive exn : Type :=
| RequestException (msg : string)
| JSONDecodeError (msg : string)
| AttributeError
| KeyError (key : string)
| IndexError
| TypeError
| ValueError.

(** [str(e)], up to the wording of the interpreter's own messages. *)
Definition str_exn (e : exn) : string :=
  match e with
  | RequestException msg => msg
  | JSONDecodeError msg => msg
  | AttributeError => "object has no attribute 'get'"
  | KeyError key => "'" ++ key ++ "'"
  | IndexError => "index out of range"
  | TypeError => "unsupported operand"
  | ValueError => "could not convert string to float"
  end.

Inductive result (A : Type) : Type :=
| Ok (a : A)
| Raise (e : exn).
Arguments Ok {A} a.
Arguments Raise {A} e.

Definition and_then {A B} (r : result A) (k : A -> result B) : result B :=
  match r with
  | Ok a => k a
  | Raise e => Raise e
  end.

(** Truth value of an object, as [if x], [not x], [x and y], [x or y] use it. *)
Definition truthy (v : json) : bool :=
  match v with
  | JNull => false
  | JBool b => b
  | JNum q => negb (Qeq_bool q 0)
  | JStr s => negb (String.eqb s "")
  | JList l => match l with [] => false | _ => true end
  | JDict kv => match kv with [] => false | _ => true end
  end.

(** [x or y] on already evaluated operands. *)
Definition py_or (x y : json) : json := if truthy x then x else y.

Definition is_none (v : json) : bool :=
  match v with JNull => true | _ => false end.

Fixpoint lookup (k : string) (kv : list (string * json)) : option json :=
  match kv with
  | [] => None
  | (k', v) :: rest => if String.eqb k k' then Some v else lookup k rest
  end.

(** [v.get(k, default)]: only a [dict] has the method. *)
Definition get_default (v : json) (k : string) (default : json) : result json :=
  match v with
  | JDict kv => Ok (match lookup k kv with Some x => x | None => default end)
  | _ => Raise AttributeError
  end.

(** [v.get(k)]. *)
Definition get (v : json) (k : string) : result json := get_default v k JNull.

(** [v[k]] for a string key [k]. *)
Definition item (v : json) (k : string) : result json :=
  match v with
  | JDict kv => match lookup k kv with Some x => Ok x | None => Raise (KeyError k) end
  | _ => Raise TypeError
  end.

(** [v[i]] for a non-negative integer [i]. *)
Definition index (v : json) (i : nat) : result json :=
  match v with
  | JList l => match nth_error l i with Some x => Ok x | None => Raise IndexError end
  | JStr s =>
      match String.get i s with
      | Some c => Ok (JStr (String c EmptyString))
      | None => Raise IndexError
      end
  | JDict _ => Raise (KeyError "0")
  | _ => Raise TypeError
  end.

Fixpoint chars (s : string) : list json :=
  match s with
  | EmptyString => []
  | String c s' => JStr (String c EmptyString) :: chars s'
  end.

(** The items a [for] loop over [v] visits. *)
Definition iterate (v : json) : result (list json) :=
  match v with
  | JList l => Ok l
  | JDict kv => Ok (map (fun p => JStr (fst p)) kv)
  | JStr s => Ok (chars s)
  | _ => Raise TypeError
  end.

(** [v == "..."] against a string literal. *)
Definition eq_str (v : json) (s : string) : bool :=
  match v with JStr s' => String.eqb s' s | _ => false end.

End Py.

(** ** Providers, and the monad of the request handlers *)

Module World.
Import Py.

(** One outbound HTTP call, by endpoint and the parameters that vary.
    The API key, the region code and the time-outs are constants of the
    source and are left out. *)
Inductive request : Type :=
| AddressValidate (line : string)
    (* POST ADDRESS_VALIDATE_URL, addressLines = [line] *)
| TextSearch (query : string) (bias : option (json * json * Z))
    (* GET TEXTSEARCH_URL, query; location = "lat,lng" and radius when biased *)
| FindPlace (input : string) (bias : option (Z * json * json))
    (* GET FINDPLACE_URL, input; locationbias = "circle:r@lat,lng" when biased *)
| Geolocate
    (* POST GEOLOCATE_URL, empty body *)
| NearbySearch (lat lng : Q) (radius : Z)
    (* GET PLACES_URL, location = "lat,lng", radius, the fixed keyword *)
| DistanceMatrix (origin : Q * Q) (destinations : list (json * json)).
    (* GET DISTANCE_URL, origins, destinations joined by "|" *)

(** A [requests.Response]: its status code and what [r.json()] gives. *)
Record response : Type := Response { status_code : Z; json_body : result json }.

(** The providers: the answer to a call may depend on every call made before
    it.  [Raise] is a failure of the call itself. *)
Definition world : Type := list request -> request -> result response.

(** What a running handler carries: the calls made so far, and the entries of
    the debug dictionary ([debug["attempts"]], [dbg["steps"]]) it is filling. *)
Record state : Type := State { calls : list request; log : list json }.

Definition initial : state := State [] [].

Definition M (A : Type) : Type := world -> state -> result A * state.

Definition ret {A} (a : A) : M A := fun _ st => (Ok a, st).

Definition bind {A B} (m : M A) (k : A -> M B) : M B :=
  fun w st =>
    match m w st with
    | (Ok a, st') => k a w st'
    | (Raise e, st') => (Raise e, st')
    end.

(** Lifting of a pure computation that may raise. *)
Definition lift {A} (r : result A) : M A := fun _ st => (r, st).

(** [try: body except Exception as e: handler(e)].  State changes made by the
    body before it raised are kept. *)
Definition try_except {A} (body : M A) (handler : exn -> M A) : M A :=
  fun w st =>
    match body w st with
    | (Ok a, st') => (Ok a, st')
    | (Raise e, st') => handler e w st'
    end.

(** [requests.get]/[requests.post]. *)
Definition http (q : request) : M response :=
  fun w st =>
    (w (calls st) q, State (calls st ++ [q]) (log st)).

(** [debug["attempts"].append(entry)]. *)
Definition append_log (entry : json) : M unit :=
  fun _ st => (Ok tt, State (calls st) (log st ++ [entry])).

Definition read_log : M (list json) := fun _ st => (Ok (log st), st).

Definition clear_log : M unit := fun _ st => (Ok tt, State (calls st) []).

End World.

Declare Scope result_scope.
Delimit Scope result_scope with result.
Notation "'let?' x := r 'in' k" := (Py.and_then r (fun x => k))
  (at level 10, x name, r at level 100, k at level 200) : result_scope.

Declare Scope py_scope.
Delimit Scope py_scope with py.
Notation "x <- m ;; k" := (World.bind m (fun x => k))
  (at level 61, m at next level, right associativity) : py_scope.
Notation "m ;;; k" := (World.bind m (fun _ => k))
  (at level 61, right associativity) : py_scope.
Notation "'val' x <- r ;; k" := (World.bind (World.lift r) (fun x => k))
  (at level 61, x name, r at next level, right associativity) : py_scope.

Import PyStr Normalize Py World.

Local Open Scope py_scope.
Local Open Scope result_scope.

(** ** The geocoding resolvers *)

Module Geocode.

(** [", India"] is appended unless the text is empty or already names the
    country (views.py, lines 1439-1440 and 1576-1577). *)
Definition india_bias (text : string) : string :=
  if negb (String.eqb text "") && negb (contains "india" (lower text))
  then (text ++ ", India")%string else text.

(** [j.get("result", {}).get("geocode", {}).get("location", {}).get(field)]. *)
Definition geocode_location (j : json) (field : string) : result json :=
  let? a := get_default j "result" (JDict []) in
  let? b := get_default a "geocode" (JDict []) in
  let? c := get_default b "location" (JDict []) in
  get c field.

(** [j.get("result", {}).get("verdict", {}).get("addressComplete", None)]. *)
Definition address_complete (j : json) : result json :=
  let? a := get_default j "result" (JDict []) in
  let? b := get_default a "verdict" (JDict []) in
  get_default b "addressComplete" JNull.

(** [v[0]["geometry"]["location"]]. *)
Definition first_location (v : json) : result json :=
  let? first := index v 0 in
  let? g := item first "geometry" in
  item g "location".

Definition error_entry (type : string) (e : exn) : json :=
  JDict [("type", JStr type); ("error", JStr (str_exn e))].

Definition status_entry (type : string) (r : response) (j : json) : result json :=
  let? api_status := get j "status" in
  let? error_message := get j "error_message" in
  Ok (JDict [("type", JStr type); ("status", JInt (status_code r));
             ("api_status", api_status); ("error_message", error_message)]).

(** Lines 1446-1456: the address-validation attempt.  [Some (lat, lng)] is
    the [return] inside the [try]. *)
Definition try_addressvalidation (norm : string) : M (option (json * json)) :=
  try_except
    (r <- http (AddressValidate norm) ;;
     val j <- json_body r ;;
     val body_status <- address_complete j ;;
     append_log (JDict [("type", JStr "addressvalidation");
                        ("status", JInt (status_code r));
                        ("body_status", body_status)]) ;;;
     val lat <- geocode_location j "latitude" ;;
     val lng <- geocode_location j "longitude" ;;
     if negb (is_none lat) && negb (is_none lng)
     then ret (Some (lat, lng)) else ret None)
    (fun e => append_log (error_entry "addressvalidation" e) ;;; ret None).

(** Lines 1459-1469: the text-search attempt. *)
Definition try_textsearch (norm : string) : M (option (json * json)) :=
  try_except
    (r <- http (TextSearch norm None) ;;
     val j <- json_body r ;;
     val entry <- status_entry "textsearch" r j ;;
     append_log entry ;;;
     val found <- get j "results" ;;
     let results := py_or found (JList []) in
     if truthy results then
       val loc <- first_location results ;;
       val lat <- get loc "lat" ;;
       val lng <- get loc "lng" ;;
       ret (Some (lat, lng))
     else ret None)
    (fun e => append_log (error_entry "textsearch" e) ;;; ret None).

(** Lines 1472-1482: the find-place attempt. *)
Definition try_findplace (norm : string) : M (option (json * json)) :=
  try_except
    (r <- http (FindPlace norm None) ;;
     val j <- json_body r ;;
     val entry <- status_entry "findplace" r j ;;
     append_log entry ;;;
     val found <- get j "candidates" ;;
     let candidates := py_or found (JList []) in
     if truthy candidates then
       val loc <- first_location candidates ;;
       val lat <- get loc "lat" ;;
       val lng <- get loc "lng" ;;
       ret (Some (lat, lng))
     else ret None)
    (fun e => append_log (error_entry "findplace" e) ;;; ret None).

(** The [debug] dictionary as it stands. *)
Definition debug_dict (norm : string) : M json :=
  attempts <- read_log ;;
  ret (JDict [("normalized", JStr norm); ("attempts", JList attempts)]).

(** [_address_to_latlng_with_debug] (lines 1435-1484): [(lat, lng, debug)]. *)
Definition _address_to_latlng_with_debug (address : string)
  : M (json * json * json) :=
  clear_log ;;;
  let norm := india_bias (join " " (split (strip address))) in
  if String.eqb norm "" then
    debug <- debug_dict norm ;; ret (JNull, JNull, debug)
  else
    a1 <- try_addressvalidation norm ;;
    match a1 with
    | Some (lat, lng) => debug <- debug_dict norm ;; ret (lat, lng, debug)
    | None =>
    a2 <- try_textsearch norm ;;
    match a2 with
    | Some (lat, lng) => debug <- debug_dict norm ;; ret (lat, lng, debug)
    | None =>
    a3 <- try_findplace norm ;;
    match a3 with
    | Some (lat, lng) => debug <- debug_dict norm ;; ret (lat, lng, debug)
    | None => debug <- debug_dict norm ;; ret (JNull, JNull, debug)
    end end end.

(** [_geolocate] (lines 1534-1548): [(lat, lng)], [(None, None)] on failure. *)
Definition _geolocate : M (json * json) :=
  try_except
    (res <- http Geolocate ;;
     val data <- json_body res ;;
     val found <- get data "location" ;;
     let loc := py_or found (JDict []) in
     val lat1 <- get loc "lat" ;;
     lat <- (if truthy lat1 then ret lat1 else lift (get loc "latitude")) ;;
     val lng1 <- get loc "lng" ;;
     lng <- (if truthy lng1 then ret lng1 else lift (get loc "longitude")) ;;
     if negb (is_none lat) && negb (is_none lng)
     then ret (lat, lng) else ret (JNull, JNull))
    (fun _ => ret (JNull, JNull)).

End Geocode.

(** ** [_geocode_city_area] (views.py, lines 1563-1672) *)

Module CityArea.
Import Geocode.

(** The alternatives of the look-ahead of line 1616. *)
Definition variant_words : list string :=
  ["University"; "College"; "Institute"; "Technology"; "School"].

(** [re.sub(r"(?<=\D)(?=University|College|Institute|Technology|School)", " ",
    area, flags=re.I)]: a space goes in at every position whose previous
    code point is not a digit and where one of the words starts.  [prev] is
    the code point before the current position, if any. *)
Fixpoint variant_sub (prev : option ascii) (s : string) : string :=
  let here :=
    match prev with
    | Some p => negb (is_digit p) && existsb (fun w => starts_with_ci w s) variant_words
    | None => false
    end in
  let rest :=
    match s with
    | EmptyString => EmptyString
    | String c s' => String c (variant_sub (Some c) s')
    end in
  if here then String " " rest else rest.

(** Lines 1612-1616: the texts tried for the area, and line 1617's filter. *)
Definition area_variants (area : string) : list string :=
  let variants :=
    if negb (String.eqb area "") && negb (contains " " area)
    then [area; variant_sub None area] else [area] in
  filter (fun v => negb (String.eqb v "")) variants.

(** Lines 1579-1589: the city text search; the pair is
    [(city_lat, city_lng)] after the block. *)
Definition try_city_textsearch (city_query : string) : M (json * json) :=
  try_except
    (r <- http (TextSearch city_query None) ;;
     val j <- json_body r ;;
     val entry <- status_entry "city_textsearch" r j ;;
     append_log entry ;;;
     val found <- get j "results" ;;
     let results := py_or found (JList []) in
     if truthy results then
       val city_loc <- first_location results ;;
       val lat <- get city_loc "lat" ;;
       val lng <- get city_loc "lng" ;;
       ret (lat, lng)
     else ret (JNull, JNull))
    (fun e => append_log (error_entry "city_textsearch" e) ;;; ret (JNull, JNull)).

(** Lines 1593-1601: the city address validation, entered with the current
    [(city_lat, city_lng)].  The two assignments are separate statements, so
    a failure of the second one keeps the first. *)
Definition try_city_addressvalidation (city_query : string) (city_lat city_lng : json)
  : M (json * json) :=
  let handler e := append_log (error_entry "city_addressvalidation" e) in
  try_except
    (r <- http (AddressValidate city_query) ;;
     val j <- json_body r ;;
     append_log (JDict [("type", JStr "city_addressvalidation");
                        ("status", JInt (status_code r))]) ;;;
     val lat <- geocode_location j "latitude" ;;
     try_except
       (val lng <- geocode_location j "longitude" ;; ret (lat, lng))
       (fun e => handler e ;;; ret (lat, city_lng)))
    (fun e => handler e ;;; ret (city_lat, city_lng)).

(** Lines 1578-1601: stage 1, the city centre. *)
Definition city_stage (city_query : string) : M (json * json) :=
  c <- try_city_textsearch city_query ;;
  let '(city_lat, city_lng) := c in
  if is_none city_lat || is_none city_lng
  then try_city_addressvalidation city_query city_lat city_lng
  else ret (city_lat, city_lng).

(** Lines 1618-1635: one round of the find-place loop. *)
Definition try_area_findplace (av : string) (city_lat city_lng : json)
  : M (option (json * json)) :=
  try_except
    (r <- http (FindPlace av (Some (30000%Z, city_lat, city_lng))) ;;
     val j <- json_body r ;;
     val api_status <- get j "status" ;;
     val error_message <- get j "error_message" ;;
     append_log (JDict [("type", JStr "area_findplace"); ("query", JStr av);
                        ("status", JInt (status_code r));
                        ("api_status", api_status);
                        ("error_message", error_message)]) ;;;
     val found <- get j "candidates" ;;
     let cands := py_or found (JList []) in
     if truthy cands then
       val loc <- first_location cands ;;
       val lat <- get loc "lat" ;;
       val lng <- get loc "lng" ;;
       ret (Some (lat, lng))
     else ret None)
    (fun e =>
       append_log (JDict [("type", JStr "area_findplace"); ("query", JStr av);
                          ("error", JStr (str_exn e))]) ;;;
       ret None).

(** Lines 1617-1635: the loop over the variants; it ends at the first
    [return]. *)
Fixpoint area_findplace_loop (variants : list string) (city_lat city_lng : json)
  : M (option (json * json)) :=
  match variants with
  | [] => ret None
  | av :: rest =>
      a <- try_area_findplace av city_lat city_lng ;;
      match a with
      | Some c => ret (Some c)
      | None => area_findplace_loop rest city_lat city_lng
      end
  end.

(** Lines 1638-1649: address validation of ["area, city"]. *)
Definition try_area_addressvalidation (full_line : string)
  : M (option (json * json)) :=
  try_except
    (r <- http (AddressValidate full_line) ;;
     val j <- json_body r ;;
     append_log (JDict [("type", JStr "area_addressvalidation");
                        ("status", JInt (status_code r))]) ;;;
     val lat <- geocode_location j "latitude" ;;
     val lng <- geocode_location j "longitude" ;;
     if negb (is_none lat) && negb (is_none lng)
     then ret (Some (lat, lng)) else ret None)
    (fun e => append_log (error_entry "area_addressvalidation" e) ;;; ret None).

(** Lines 1652-1669: text search of ["area, city"] around the city centre. *)
Definition try_area_textsearch_bias (q : string) (city_lat city_lng : json)
  : M (option (json * json)) :=
  try_except
    (r <- http (TextSearch q (Some (city_lat, city_lng, 40000%Z))) ;;
     val j <- json_body r ;;
     val api_status <- get j "status" ;;
     val error_message <- get j "error_message" ;;
     append_log (JDict [("type", JStr "area_textsearch_bias"); ("query", JStr q);
                        ("status", JInt (status_code r));
                        ("api_status", api_status);
                        ("error_message", error_message)]) ;;;
     val found <- get j "results" ;;
     let results := py_or found (JList []) in
     if truthy results then
       val loc <- first_location results ;;
       val lat <- get loc "lat" ;;
       val lng <- get loc "lng" ;;
       ret (Some (lat, lng))
     else ret None)
    (fun e => append_log (error_entry "area_textsearch_bias" e) ;;; ret None).

Definition opt_str (s : option string) : json :=
  match s with Some x => JStr x | None => JNull end.

Definition or_empty (s : option string) : string :=
  match s with Some x => x | None => "" end.

(** The [dbg] dictionary as it stands; [city] and [area] are the raw
    arguments. *)
Definition dbg_dict (city area : option string) : M json :=
  steps <- read_log ;;
  ret (JDict [("city", opt_str city); ("area", opt_str area);
              ("steps", JList steps)]).

(** Lines 1610-1672: stage 2, entered with the city centre. *)
Definition area_stage (city area : string) (city_lat city_lng : json)
  : M (json * json) :=
  a1 <- area_findplace_loop (area_variants area) city_lat city_lng ;;
  match a1 with
  | Some c => ret c
  | None =>
  let full_line := (if String.eqb city "" then area else area ++ ", " ++ city)%string in
  a2 <- try_area_addressvalidation full_line ;;
  match a2 with
  | Some c => ret c
  | None =>
  a3 <- try_area_textsearch_bias full_line city_lat city_lng ;;
  match a3 with
  | Some c => ret c
  | None => ret (city_lat, city_lng)
  end end end.

(** [_geocode_city_area]: [(lat, lng, dbg)]. *)
Definition _geocode_city_area (city0 area0 : option string)
  : M (json * json * json) :=
  clear_log ;;;
  let city := _normalize_place_text (or_empty city0) in
  let area := _normalize_place_text (or_empty area0) in
  if String.eqb city "" && String.eqb area "" then
    dbg <- dbg_dict city0 area0 ;; ret (JNull, JNull, dbg)
  else
    let city_query := india_bias (if String.eqb city "" then area else city) in
    c <- city_stage city_query ;;
    let '(city_lat, city_lng) := c in
    if is_none city_lat || is_none city_lng then
      dbg <- dbg_dict city0 area0 ;; ret (JNull, JNull, dbg)
    else if String.eqb area "" then
      dbg <- dbg_dict city0 area0 ;; ret (city_lat, city_lng, dbg)
    else
      r <- area_stage city area city_lat city_lng ;;
      dbg <- dbg_dict city0 area0 ;;
      ret (fst r, snd r, dbg).

End CityArea.

(** ** [_places_nearby] and [_distance_matrix] (views.py, lines 1551-1713) *)

Module Ranking.

(** [_places_nearby]: the provider's ["results"], whatever they are.  Nothing
    is caught here. *)
Definition _places_nearby (lat lng : Q) (radius_m : Z) : M json :=
  res <- http (NearbySearch lat lng radius_m) ;;
  val j <- json_body res ;;
  lift (get_default j "results" (JList [])).

(** [p["geometry"]["location"][field]]. *)
Definition place_coord (p : json) (field : string) : result json :=
  let? g := item p "geometry" in
  let? loc := item g "location" in
  item loc field.

Fixpoint map_result {A B} (f : A -> result B) (l : list A) : result (list B) :=
  match l with
  | [] => Ok []
  | x :: rest =>
      let? y := f x in
      let? ys := map_result f rest in
      Ok (y :: ys)
  end.

(** One item of the [destinations] generator. *)
Definition destination (p : json) : result (json * json) :=
  let? lat := place_coord p "lat" in
  let? lng := place_coord p "lng" in
  Ok (lat, lng).

(** The dictionary appended to [paired] for candidate [p] and element [el]. *)
Definition pair_entry (p el : json) : result json :=
  let? name := get p "name" in
  let? address := get_default p "vicinity" (JStr "") in
  let? lat := place_coord p "lat" in
  let? lng := place_coord p "lng" in
  let? dist := item el "distance" in
  let? distance_text := item dist "text" in
  let? dist := item el "distance" in
  let? distance_value := item dist "value" in
  let? dur := item el "duration" in
  let? duration_text := item dur "text" in
  let? dur := item el "duration" in
  let? duration_value := item dur "value" in
  let? place_id := get p "place_id" in
  let? rating := get p "rating" in
  Ok (JDict [("name", name); ("address", address); ("lat", lat); ("lng", lng);
             ("distance_text", distance_text); ("distance_value", distance_value);
             ("duration_text", duration_text); ("duration_value", duration_value);
             ("place_id", place_id); ("rating", rating)]).

(** The loop of lines 1696-1710 from index [idx] on. *)
Fixpoint pair_up (places : json) (idx : nat) (elements : list json)
  : result (list json) :=
  match elements with
  | [] => Ok []
  | el :: rest =>
      let? st := get el "status" in
      if eq_str st "OK" then
        let? p := index places idx in
        let? entry := pair_entry p el in
        let? more := pair_up places (S idx) rest in
        Ok (entry :: more)
      else pair_up places (S idx) rest
  end.

(** The sort key [(x["duration_value"], x["distance_value"])], when both
    components are numbers. *)
Definition numeric_key (x : json) : option (Q * Q) :=
  match item x "duration_value", item x "distance_value" with
  | Ok (JNum d), Ok (JNum m) => Some (d, m)
  | _, _ => None
  end.

(** Order of two key tuples: first components, then second ones. *)
Definition key_le (a b : Q * Q) : bool :=
  negb (Qle_bool (fst b) (fst a))
  || (Qeq_bool (fst a) (fst b) && Qle_bool (snd a) (snd b)).

(** [key(x) <= key(y)]; [false] when a key is not numeric. *)
Definition entry_leb (x y : json) : bool :=
  match numeric_key x, numeric_key y with
  | Some a, Some b => key_le a b
  | _, _ => false
  end.

Fixpoint insert_entry (x : json) (l : list json) : list json :=
  match l with
  | [] => [x]
  | y :: rest => if entry_leb x y then x :: l else y :: insert_entry x rest
  end.

(** Stable sort by key: an item goes in front of the first later item whose
    key is not smaller than its own. *)
Fixpoint sort_entries (l : list json) : list json :=
  match l with
  | [] => []
  | x :: rest => insert_entry x (sort_entries rest)
  end.

Definition has_numeric_key (x : json) : bool :=
  match numeric_key x with Some _ => true | None => false end.

(** [paired.sort(key=lambda x: (x["duration_value"], x["distance_value"]))].
    A list of fewer than two items needs no comparison.  Otherwise the keys
    are compared as numbers, which is what the provider sends.  Keys that
    are not numbers are outside this description: Python orders some of them
    (strings among themselves, say) and raises [TypeError] on others, where
    this function always answers [TypeError]; what is proved of the order of
    a ranked list is stated for numeric keys. *)
Definition sort_paired (paired : list json) : result (list json) :=
  match paired with
  | [] | [_] => Ok paired
  | _ =>
      if forallb has_numeric_key paired then Ok (sort_entries paired)
      else Raise TypeError
  end.

(** Line 1695 and the iteration of line 1696:
    [(data.get("rows") or [{}])[0].get("elements") or []], as a list. *)
Definition response_elements (data : json) : result (list json) :=
  let? rows := get data "rows" in
  let? row0 := index (py_or rows (JList [JDict []])) 0 in
  let? found := get row0 "elements" in
  iterate (py_or found (JList [])).

(** [_distance_matrix]: the ranked list. *)
Definition _distance_matrix (origin_lat origin_lng : Q) (places : json)
  : M (list json) :=
  if negb (truthy places) then ret []
  else
    val ps <- iterate places ;;
    val destinations <- map_result destination ps ;;
    res <- http (DistanceMatrix (origin_lat, origin_lng) destinations) ;;
    val data <- json_body res ;;
    val elements <- response_elements data ;;
    val paired <- pair_up places 0 elements ;;
    lift (sort_paired paired).

End Ranking.

(** ** [find_dumpyards] (views.py, lines 1716-1765) *)

Module Endpoint.
Import Geocode CityArea Ranking.

(** The query parameters the view reads; [None] is an absent parameter. *)
Record query : Type := Query {
  q_address : option string;
  q_lat : option string;
  q_lng : option string;
  q_city : option string;
  q_area : option string
}.

(** [JsonResponse(body, status=status)]. *)
Inductive http_response : Type :=
| JsonResponse (body : json) (status : Z).

Definition nonempty (s : option string) : bool :=
  match s with Some x => negb (String.eqb x "") | None => false end.

Definition hint : string :=
  "Ensure GOMAPS_PRO_API_KEY is set and valid. Try a fuller address like 'LJ University, Ahmedabad'.".

Definition origin_dict (lat_f lng_f : Q) : json :=
  JDict [("lat", JNum lat_f); ("lng", JNum lng_f)].

Section WithFloat.

(** [float(s)] on a string: [None] is [ValueError]. *)
Variable float_of_str : string -> option Q.

(** [float(str(v).strip())]: a number converts to itself; the text of
    [None], of a boolean, of a list or of a dictionary is not a number. *)
Definition to_float (v : json) : option Q :=
  match v with
  | JNum q => Some q
  | JStr s => float_of_str (strip s)
  | _ => None
  end.

(** Lines 1722-1733: [(lat, lng, geo_dbg)] after the input is resolved;
    [geo_dbg] is bound only when a resolver ran. *)
Definition resolve_input (request : query) : M (json * json * option json) :=
  if nonempty (q_address request) then
    r <- _address_to_latlng_with_debug (or_empty (q_address request)) ;;
    let '(lat, lng, geo_dbg) := r in ret (lat, lng, Some geo_dbg)
  else if (nonempty (q_city request) || nonempty (q_area request))
          && negb (nonempty (q_lat request) && nonempty (q_lng request)) then
    r <- _geocode_city_area (q_city request) (q_area request) ;;
    let '(lat, lng, geo_dbg) := r in ret (lat, lng, Some geo_dbg)
  else ret (opt_str (q_lat request), opt_str (q_lng request), None).

(** Lines 1741-1748: the error response of the resolving step. *)
Definition resolve_error (request : query) (geo_dbg : option json) : http_response :=
  let resp :=
    [("error", JStr "Please provide a valid address or lat/lng.");
     ("address_tried", JStr (or_empty (q_address request)));
     ("city", JStr (or_empty (q_city request)));
     ("area", JStr (or_empty (q_area request)));
     ("hint", JStr hint)] in
  let resp :=
    match geo_dbg with
    | Some d =>
        if nonempty (q_address request)
           || nonempty (q_city request) || nonempty (q_area request)
        then resp ++ [("geocode_debug", d)] else resp
    | None => resp
    end in
  JsonResponse (JDict resp) 400.

(** Lines 1722-1753: the origin as two floats, or the response that ends the
    request early. *)
Definition resolve_origin (request : query) : M (http_response + Q * Q) :=
  r <- resolve_input request ;;
  let '(lat, lng, geo_dbg) := r in
  located <-
    (if negb (truthy lat && truthy lng) then
       g <- _geolocate ;;
       let '(g_lat, g_lng) := g in
       if truthy g_lat && truthy g_lng then ret (inr (g_lat, g_lng))
       else ret (inl (resolve_error request geo_dbg))
     else ret (inr (lat, lng))) ;;
  match located with
  | inl resp => ret (inl resp)
  | inr (lat, lng) =>
      match to_float lat, to_float lng with
      | Some lat_f, Some lng_f => ret (inr (lat_f, lng_f))
      | _, _ => ret (inl (JsonResponse (JDict [("error", JStr "Invalid coordinates.")]) 400))
      end
  end.

(** Lines 1755-1765: search and ranking from a resolved origin. *)
Definition search_and_rank (lat_f lng_f : Q) : M http_response :=
  candidates <- _places_nearby lat_f lng_f 15000 ;;
  if negb (truthy candidates) then
    ret (JsonResponse (JDict [("origin", origin_dict lat_f lng_f);
                              ("places", JList [])]) 200)
  else
    ranked <- _distance_matrix lat_f lng_f candidates ;;
    ret (JsonResponse
           (JDict [("origin", origin_dict lat_f lng_f);
                   ("places", JList ranked);
                   ("nearest", match ranked with x :: _ => x | [] => JNull end)])
           200).

(** [find_dumpyards]: the response, or the exception that leaves the view. *)
Definition find_dumpyards (request : query) : M http_response :=
  o <- resolve_origin request ;;
  match o with
  | inl resp => ret resp
  | inr (lat_f, lng_f) => search_and_rank lat_f lng_f
  end.

End WithFloat.

End Endpoint.

(** ** Shapes of normalised text *)

Module Shape.

(** No blank code point at all: the shape of one item of [str.split]. *)
Definition nospace (t : string) : bool :=
  forallb_str (fun c => negb (is_space c)) t.

Definition token (t : string) : bool := negb (String.eqb t "") && nospace t.

(** The last code point, if any, is not blank. *)
Fixpoint ends_nonblank (s : string) : bool :=
  match s with
  | EmptyString => true
  | String c s' =>
      match s' with
      | EmptyString => negb (is_space c)
      | _ => ends_nonblank s'
      end
  end.

(** The first code point, if any, is not blank. *)
Definition starts_nonblank (s : string) : bool :=
  match s with
  | EmptyString => true
  | String c _ => negb (is_space c)
  end.



(** The text starts with "lj" in any case: [(?i)^lj] matches. *)
Definition starts_lj (s : string) : bool :=
  match s with
  | String a (String b _) => eqb_ci "l" a && eqb_ci "j" b
  | _ => false
  end.

End Shape.
Import Shape.

(** ** Sample providers and documents *)

Module Sample.

(** A nearby-search result, also usable as a text-search or find-place
    result: a name and a location. *)
Definition place (name : string) (lat lng : Z) : json :=
  JDict [("name", JStr name);
         ("geometry", JDict [("location", JDict [("lat", JInt lat); ("lng", JInt lng)])]);
         ("place_id", JStr name)].

(** Distance-matrix elements. *)
Definition element_ok (duration distance : Z) : json :=
  JDict [("status", JStr "OK");
         ("distance", JDict [("text", JStr "far"); ("value", JInt distance)]);
         ("duration", JDict [("text", JStr "long"); ("value", JInt duration)])].

Definition element_zero_results : json := JDict [("status", JStr "ZERO_RESULTS")].

Definition ok_response (body : json) : result response :=
  Ok (Response 200 (Ok body)).

Definition down : result response := Raise (RequestException "connection refused").

(** Only the unbiased text search answers, with one place at (23, 72). *)
Definition only_textsearch : world :=
  fun _ q =>
    match q with
    | TextSearch _ None =>
        ok_response (JDict [("status", JStr "OK");
                            ("results", JList [place "centre" 23 72])])
    | _ => down
    end.

(** Address validation is down, the text search finds one place, and the
    nearby search finds nothing. *)
Definition no_dump_yards : world :=
  fun _ q =>
    match q with
    | TextSearch _ None =>
        ok_response (JDict [("status", JStr "OK");
                            ("results", JList [place "centre" 23 72])])
    | NearbySearch _ _ _ => ok_response (JDict [("results", JList [])])
    | _ => down
    end.

(** The nearby search finds two places and the distance matrix reaches
    both; the geocoders are down. *)
Definition two_dump_yards : world :=
  fun _ q =>
    match q with
    | NearbySearch _ _ _ =>
        ok_response (JDict [("results", JList [place "a" 1 1; place "b" 2 2])])
    | DistanceMatrix _ _ =>
        ok_response
          (JDict [("rows",
                   JList [JDict [("elements",
                                  JList [element_ok 600 5000; element_ok 300 2000])]])])
    | _ => down
    end.

Fixpoint digits (acc : Z) (s : string) : option Z :=
  match s with
  | EmptyString => Some acc
  | String c s' =>
      if is_digit c
      then digits (10 * acc + (Z.of_nat (nat_of_ascii c) - 48)) s'
      else None
  end.

(** A stand-in for [float] on strings that reads unsigned whole numbers and
    refuses everything else. *)
Definition whole_number (s : string) : option Q :=
  match s with
  | EmptyString => None
  | _ => option_map inject_Z (digits 0 s)
  end.

(** The distance-matrix provider answers with one row of [elements];
    every other provider is down. *)
Definition distances (elements : list json) : world :=
  fun _ q =>
    match q with
    | DistanceMatrix _ _ =>
        ok_response (JDict [("rows", JList [JDict [("elements", JList elements)]])])
    | _ => down
    end.

(** The entry of [paired] for [place name lat lng] and
    [element_ok duration distance]. *)
Definition ranked_entry (name : string) (lat lng duration distance : Z) : json :=
  JDict [("name", JStr name); ("address", JStr ""); ("lat", JInt lat); ("lng", JInt lng);
         ("distance_text", JStr "far"); ("distance_value", JInt distance);
         ("duration_text", JStr "long"); ("duration_value", JInt duration);
         ("place_id", JStr name); ("rating", JNull)].

End Sample.

(** ** Outcomes of the first two attempts of the address resolver *)

Module Attempts.
Import Geocode Sample.

(** The entry has an ["error"] field. *)
Definition has_error (entry : json) : bool :=
  match entry with
  | JDict kv => match lookup "error" kv with Some _ => true | None => false end
  | _ => false
  end.

(** [av_failure r raised entry]: the address-validation answer [r] yields no
    coordinate and leaves the one trail entry [entry].  Either the call, the
    decoding or the reading of the verdict raised ([raised = true], the entry
    carries the error), or the document was read through and has no latitude
    or no longitude ([raised = false], the entry carries the HTTP status). *)
Inductive av_failure : result response -> bool -> json -> Prop :=
| av_unreachable e :
    av_failure (Raise e) true (error_entry "addressvalidation" e)
| av_not_json status e :
    av_failure (Ok (Response status (Raise e))) true
               (error_entry "addressvalidation" e)
| av_malformed status j e :
    address_complete j = Raise e ->
    av_failure (Ok (Response status (Ok j))) true
               (error_entry "addressvalidation" e)
| av_no_coordinate status j body_status lat lng :
    address_complete j = Ok body_status ->
    geocode_location j "latitude" = Ok lat ->
    geocode_location j "longitude" = Ok lng ->
    is_none lat || is_none lng = true ->
    av_failure (Ok (Response status (Ok j))) false
               (JDict [("type", JStr "addressvalidation");
                       ("status", JInt status);
                       ("body_status", body_status)]).

(** [ts_success r entry lat lng]: the text-search answer [r] has a first
    result with a location, whose coordinate is [(lat, lng)]; [entry] is the
    trail entry of the attempt. *)
Inductive ts_success : result response -> json -> json -> json -> Prop :=
| ts_found status j entry found loc lat lng :
    status_entry "textsearch" (Response status (Ok j)) j = Ok entry ->
    get j "results" = Ok found ->
    truthy found = true ->
    first_location found = Ok loc ->
    get loc "lat" = Ok lat ->
    get loc "lng" = Ok lng ->
    ts_success (Ok (Response status (Ok j))) entry lat lng.

(** Address validation is down; the text search finds one place. *)
Definition validation_down : world :=
  fun _ q =>
    match q with
    | AddressValidate _ => down
    | TextSearch _ None =>
        ok_response (JDict [("status", JStr "OK");
                            ("results", JList [place "centre" 23 72])])
    | _ => down
    end.

(** Address validation answers with a null ["geocode"]; the text search
    finds one place. *)
Definition validation_null_geocode : world :=
  fun _ q =>
    match q with
    | AddressValidate _ =>
        ok_response (JDict [("result", JDict [("geocode", JNull)])])
    | TextSearch _ None =>
        ok_response (JDict [("status", JStr "OK");
                            ("results", JList [place "centre" 23 72])])
    | _ => down
    end.

(** Address validation answers 200 with an empty ["result"]; the text
    search finds one place. *)
Definition validation_without_geocode : world :=
  fun _ q =>
    match q with
    | AddressValidate _ => ok_response (JDict [("result", JDict [])])
    | TextSearch _ None =>
        ok_response (JDict [("status", JStr "OK");
                            ("results", JList [place "centre" 23 72])])
    | _ => down
    end.

End Attempts.

(** ** What a provider's answer does to the area refinement *)

Module Answers.
Import Geocode CityArea Sample.









End Answers.

(** ** What the ranking is measured against *)

Module RankSpec.
Import Ranking.

(** The element's status is ["OK"]. *)
Definition status_ok (el : json) : bool :=
  match get el "status" with
  | Ok st => eq_str st "OK"
  | Raise _ => false
  end.

(** [enumerate(elements)] restricted to the elements whose status is "OK". *)
Definition ok_elements (elements : list json) : list (nat * json) :=
  filter (fun ie => status_ok (snd ie))
         (combine (seq 0 (List.length elements)) elements).

(** [x] may stand before [y] in the ranking: its duration is smaller, or the
    durations are equal and its distance is not larger. *)
Definition ranks_before (x y : json) : Prop :=
  exists dx mx dy my,
    numeric_key x = Some (dx, mx) /\ numeric_key y = Some (dy, my)
    /\ (dx < dy \/ (dx == dy /\ mx <= my))%Q.

(** [x] has the numeric key [k]. *)
Definition same_key (k : Q * Q) (x : json) : bool :=
  match numeric_key x with
  | Some k' => Qeq_bool (fst k) (fst k') && Qeq_bool (snd k) (snd k')
  | None => false
  end.

(** [paired] is what the provider's answer to the one distance-matrix call
    made from state [st] amounts to, in the provider's order: one entry for
    each element whose status is "OK", built from that element and from the
    candidate at the element's index. *)
Definition provider_order (w : world) (st : state) (olat olng : Q) (places : json)
    (paired : list json) : Prop :=
  exists destinations r data elements,
    w (calls st) (DistanceMatrix (olat, olng) destinations) = Ok r
    /\ json_body r = Ok data
    /\ response_elements data = Ok elements
    /\ Forall2 (fun ie entry =>
                  exists p, index places (fst ie) = Ok p
                            /\ pair_entry p (snd ie) = Ok entry)
               (ok_elements elements) paired.

(** A candidate as the nearby search sends it: a dictionary with a
    location. *)
Definition well_formed_place (p : json) : Prop :=
  (exists kv, p = JDict kv)
  /\ exists lat lng, place_coord p "lat" = Ok lat /\ place_coord p "lng" = Ok lng.

(** An element as the distance matrix sends it: a dictionary which, when its
    status is "OK", holds a distance and a duration, each with a text and a
    numeric value. *)
Definition well_formed_element (el : json) : Prop :=
  (exists kv, el = JDict kv)
  /\ (status_ok el = true ->
      exists dist dur distance_text duration_text distance_value duration_value,
        item el "distance" = Ok dist
        /\ item dist "text" = Ok distance_text
        /\ item dist "value" = Ok (JNum distance_value)
        /\ item el "duration" = Ok dur
        /\ item dur "text" = Ok duration_text
        /\ item dur "value" = Ok (JNum duration_value)).

End RankSpec.
Import RankSpec.

(** ** Notions for the further properties of the pipeline *)

Module PipelineSpec.
Import Sample.

(** No provider can be reached: every call fails. *)
Definition unreachable (w : world) : Prop :=
  forall h q, exists e, w h q = Raise e.

(** Every provider is down, whatever is asked. *)
Definition all_down : world := fun _ _ => down.

Fixpoint filter_str (keep : ascii -> bool) (s : string) : string :=
  match s with
  | EmptyString => EmptyString
  | String c s' => if keep c then String c (filter_str keep s') else filter_str keep s'
  end.

(** The text without its blank code points. *)
Definition unblank (s : string) : string :=
  filter_str (fun c => negb (is_space c)) s.

(** The text without its spaces. *)
Definition unspace (s : string) : string :=
  filter_str (fun c => negb (Ascii.eqb c " ")) s.

(** [" ".join(address.strip().split())] with the country suffix: the text
    the address resolver geocodes (lines 1438-1440). *)
Definition normalized_address (address : string) : string :=
  Geocode.india_bias (join " " (split (strip address))).

(** The tokens of a text that ends in [", India"]. *)
Fixpoint with_country (toks : list string) : list string :=
  match toks with
  | [] => []
  | [t] => [(t ++ ",")%string; "India"]
  | t :: rest => t :: with_country rest
  end.

(** Only the unbiased text search answers, with one place on the equator,
    at (0, 72). *)
Definition on_equator : world :=
  fun _ q =>
    match q with
    | TextSearch _ None =>
        ok_response (JDict [("status", JStr "OK");
                            ("results", JList [place "centre" 0 72])])
    | _ => down
    end.

(** Only the nearby search answers, with one place. *)
Definition nearby_only : world :=
  fun _ q =>
    match q with
    | NearbySearch _ _ _ => ok_response (JDict [("results", JList [place "a" 1 1])])
    | _ => down
    end.

(** A candidate without a ["geometry"]. *)
Definition nameless_place : json := JDict [("name", JStr "yard")].

End PipelineSpec.
Import PipelineSpec.

(** ** Dictionaries in insertion order *)

Module Dict.
Section Dict.

Context {K V : Type} (eqb : K -> K -> bool).

(** [d.get(k)]. *)
Fixpoint find (k : K) (d : list (K * V)) : option V :=
  match d with
  | [] => None
  | (k', v) :: rest => if eqb k k' then Some v else find k rest
  end.

(** [d[k] = v]: an existing key keeps its place, a new key goes to the
    end. *)
Fixpoint store (k : K) (v : V) (d : list (K * V)) : list (K * V) :=
  match d with
  | [] => [(k, v)]
  | (k', v') :: rest =>
      if eqb k k' then (k', v) :: rest else (k', v') :: store k v rest
  end.

End Dict.
End Dict.

(** ** Python floats *)

Module PyFloat.

(** A [float]: a finite number, given by its value, an infinity, or NaN.
    The two zeros are one value here: they compare equal and neither is
    true.  What an operation rounds to is not described; the product comes
    in as a parameter where it is needed. *)
Inductive float : Type :=
| Finite (q : Q)
| Infinity (negative : bool)
| NaN.

Definition is_nan (a : float) : bool :=
  match a with NaN => true | _ => false end.

(** [a < b], which is false when either side is NaN. *)
Definition lt (a b : float) : bool :=
  match a, b with
  | NaN, _ => false
  | _, NaN => false
  | Finite x, Finite y => negb (Qle_bool y x)
  | Finite _, Infinity negative => negb negative
  | Infinity negative, Finite _ => negative
  | Infinity na, Infinity nb => na && negb nb
  end.

(** [a <= b], which is false when either side is NaN. *)
Definition le (a b : float) : bool :=
  match a, b with
  | NaN, _ => false
  | _, NaN => false
  | Finite x, Finite y => Qle_bool x y
  | Finite _, Infinity negative => negb negative
  | Infinity negative, Finite _ => negative
  | Infinity na, Infinity nb => na || negb nb
  end.

(** [a > b]. *)
Definition gt (a b : float) : bool := lt b a.

(** [bool(a)]: every float but zero is true, NaN included. *)
Definition nonzero (a : float) : bool :=
  match a with
  | Finite q => negb (Qeq_bool q 0)
  | _ => true
  end.

End PyFloat.

(** ** Sorting by a float, highest first *)

Module Descending.
Section Sort.

Context {A : Type} (key : A -> PyFloat.float).

(** [a] may stand before [b]: its key is not lower. *)
Definition before (a b : A) : Prop := PyFloat.le (key b) (key a) = true.

Fixpoint insert (x : A) (l : list A) : list A :=
  match l with
  | [] => [x]
  | y :: rest =>
      if PyFloat.lt (key x) (key y) then y :: insert x rest else x :: l
  end.

(** [sorted(l, key=key, reverse=True)] for keys without NaN: highest first,
    items of equal key in their order.  The sort compares keys with [<]
    only; with a NaN among them the comparisons do not order the keys, what
    CPython returns depends on the run of its merge sort, and this function
    does not describe it. *)
Fixpoint sorted (l : list A) : list A :=
  match l with
  | [] => []
  | x :: rest => insert x (sorted rest)
  end.

End Sort.
End Descending.

(** ** [scrap_price] (views.py, lines 1288-1396) *)

Module ScrapPrice.
Import PyFloat.

(** A value of a row of the price list: [None], a [bool], an [int], a
    [float] or a [str]. *)
Inductive cell : Type :=
| CNone
| CBool (b : bool)
| CInt (z : Z)
| CFloat (f : float)
| CStr (s : string).

(** A row of [query_scrap_prices]: a dictionary from column names to
    values. *)
Definition row : Type := list (string * cell).

(** [r.get(key, default)]. *)
Definition get_cell (r : row) (key : string) (default : cell) : cell :=
  match Dict.find String.eqb key r with
  | Some v => v
  | None => default
  end.

(** Truth value of a cell. *)
Definition cell_truthy (v : cell) : bool :=
  match v with
  | CNone => false
  | CBool b => b
  | CInt z => negb (Z.eqb z 0)
  | CFloat f => nonzero f
  | CStr s => negb (String.eqb s "")
  end.

(** [(a or b or "").strip()] for two request parameters. *)
Definition param (from_get from_post : option string) : string :=
  strip (if Endpoint.nonempty from_get then CityArea.or_empty from_get
         else if Endpoint.nonempty from_post then CityArea.or_empty from_post
         else "").

(** What the view hands to the template, without the two constant lists of
    sites, and with the data of the chart ([site_labels], [site_prices]) in
    the place of its image. *)
Record context : Type := Context {
  item : string;
  table : list row;
  show_weight : bool;
  max_price : option float;
  top_site : option string;
  weight : string;
  total_value : option float;
  site_labels : list string;
  site_prices : list float
}.

(** The operations of Python the view relies on: [float(s)] on a string,
    [None] being [ValueError]; [float(n)] on an integer, [None] being
    [OverflowError]; [str(v)] on a value that is not a string; and the
    product of two floats. *)
Record conversions : Type := Conversions {
  float_of_str : string -> option float;
  float_of_int : Z -> option float;
  str_of : cell -> string;
  mul : float -> float -> float
}.

Section WithConversions.

Variable cv : conversions.

Definition py_str (v : cell) : string :=
  match v with CStr s => s | _ => str_of cv v end.

(** [float(v)]; [None] is an exception. *)
Definition py_float (v : cell) : option float :=
  match v with
  | CFloat f => Some f
  | CInt z => float_of_int cv z
  | CBool b => Some (Finite (if b then 1 else 0))
  | CStr s => float_of_str cv s
  | CNone => None
  end.

(** The [try] block of lines 1303-1305: [(site, price)] of a row; [None] is
    an exception, which skips the row.  A price that is not true is
    replaced by the integer 0. *)
Definition site_and_price (r : row) : option (string * float) :=
  let site := strip (py_str (get_cell r "Website" (CStr ""))) in
  let found := get_cell r "Price" (CInt 0) in
  match (if cell_truthy found then py_float found else Some (Finite 0)) with
  | Some price => Some (site, price)
  | None => None
  end.

(** One round of the loop of lines 1302-1311. *)
Definition record_row (d : list (string * float)) (r : row) : list (string * float) :=
  match site_and_price r with
  | None => d
  | Some (site, price) =>
      if String.eqb site "" then d
      else
        match Dict.find String.eqb site d with
        | None => Dict.store String.eqb site price d
        | Some old => if gt price old then Dict.store String.eqb site price d else d
        end
  end.

Definition site_to_price (rows : list row) : list (string * float) :=
  fold_left record_row rows [].

(** Lines 1320-1329: the value of the given weight at the highest price. *)
Definition value_of (weight_raw : string) (max_price : option float) : option float :=
  if String.eqb weight_raw "" then None
  else
    match float_of_str cv weight_raw with
    | None => None
    | Some weight_value =>
        match max_price with
        | Some m => Some (mul cv weight_value m)
        | None => None
        end
    end.

(** [query_scrap_prices(item, filename=csv_abs_path)] as the view sees it;
    [None] is an exception. *)
Variable query_scrap_prices : string -> option (list row).

(** [scrap_price]: the context of the rendered page. *)
Definition scrap_price (get_item post_item get_weight post_weight : option string)
  : context :=
  let item := param get_item post_item in
  let weight_raw := param get_weight post_weight in
  let rows := match query_scrap_prices item with Some rows => rows | None => [] end in
  let site_items_sorted := Descending.sorted snd (site_to_price rows) in
  let site_labels := map fst site_items_sorted in
  let site_prices := map snd site_items_sorted in
  let max_price := match site_prices with p :: _ => Some p | [] => None end in
  let top_site := match site_labels with s :: _ => Some s | [] => None end in
  Context item rows (negb (String.eqb item "")) max_price top_site weight_raw
          (value_of weight_raw max_price) site_labels site_prices.

(** Row [r] offers [price] at [site]: the loop reads the two values off the
    row and the site has a name. *)
Definition offers (r : row) (site : string) (price : float) : Prop :=
  site_and_price r = Some (site, price) /\ site <> "".

(** What holds of the dictionary [d] once the loop has gone through the
    rows [seen]: the sites are distinct, every entry is an offer of some row,
    and no row offers more at a site than the entry of that site, as far as
    the two can be compared. *)
Definition aggregated (seen : list row) (d : list (string * float)) : Prop :=
  NoDup (map fst d)
  /\ (forall site price, Dict.find String.eqb site d = Some price ->
        exists r, In r seen /\ offers r site price)
  /\ (forall r site price, In r seen -> offers r site price ->
        exists best,
          Dict.find String.eqb site d = Some best
          /\ (is_nan best = false -> is_nan price = false -> le price best = true)).

End WithConversions.

(** A row of the price list; stand-ins for [float] on strings and integers,
    for [str] on values that are not strings and for the product, exact on
    the whole numbers they are used on; and a price list with three rows for
    two sites. *)
Definition offer (site : string) (price : Z) : row :=
  [("Item", CStr "iron"); ("Website", CStr site); ("Price", CInt price)].

Definition whole_float (s : string) : option float :=
  option_map Finite (Sample.whole_number s).

Definition exact_int (z : Z) : option float := Some (Finite (inject_Z z)).

Definition str_none : cell -> string := fun _ => "None".

Definition exact_mul (a b : float) : float :=
  match a, b with
  | Finite x, Finite y => Finite (x * y)
  | _, _ => NaN
  end.

Definition exact : conversions :=
  Conversions whole_float exact_int str_none exact_mul.

Definition price_list : string -> option (list row) :=
  fun _ => Some [offer "A" 20; offer "B" 35; offer " A " 28].

End ScrapPrice.

(** ** [contact] (views.py, lines 1776-1811) *)

Module Contact.

(** A row of [ContactMessage] or of [Feedback], with the fields the view
    sets (models.py). *)
Inductive row : Type :=
| ContactMessage (name email message : string)
| Feedback (name email : string) (rating : Z) (comments : string).

(** The fields of [request.POST]; [None] is an absent field. *)
Record form : Type := Form {
  p_form_type : option string;
  p_name : option string;
  p_email : option string;
  p_message : option string;
  p_rating : option string;
  p_comments : option string
}.

(** The template context: a key that is not set is [None] or [false]. *)
Record context : Type := Context {
  contact_error : option string;
  contact_success : bool;
  feedback_error : option string;
  feedback_success : bool;
  form_error : option string
}.

Definition empty_context : context := Context None false None false None.

(** [(request.POST.get(key) or '').strip()]. *)
Definition field (v : option string) : string := strip (CityArea.or_empty v).

Section WithDatabase.

(** [int(s)] on a string, [None] being [ValueError]; and [objects.create],
    which answers [Some e] when the database refuses the row, [e] being the
    text of the exception. *)
Variable int_of_str : string -> option Z.
Variable refuses : row -> option string.

(** [Model.objects.create(...)] inside the outer [try]: the rows after the
    call, or the context of the [except] branch. *)
Definition create (r : row) (on_success : context) (store : list row)
  : context * list row :=
  match refuses r with
  | None => (on_success, store ++ [r])
  | Some e => (Context None false None false (Some ("Submission failed: " ++ e)%string), store)
  end.

(** [rating not in [1,2,3,4,5]]. *)
Definition in_range (rating : Z) : bool := (1 <=? rating)%Z && (rating <=? 5)%Z.

(** [contact]: the context of the rendered page and the rows of the two
    tables after the request; [posted] is [request.POST] for a POST request
    and [None] for any other method. *)
Definition contact (posted : option form) (store : list row) : context * list row :=
  match posted with
  | None => (empty_context, store)
  | Some post =>
      let form_type := field (p_form_type post) in
      if String.eqb form_type "contact" then
        let name := field (p_name post) in
        let email := field (p_email post) in
        let message := field (p_message post) in
        if negb (negb (String.eqb name "") && negb (String.eqb email "")
                 && negb (String.eqb message "")) then
          (Context (Some "Please fill all required fields.") false None false None,
           store)
        else
          create (ContactMessage name email message)
                 (Context None true None false None) store
      else if String.eqb form_type "feedback" then
        let name := field (p_name post) in
        let email := field (p_email post) in
        let rating_str := field (p_rating post) in
        let comments := field (p_comments post) in
        let rating := match int_of_str rating_str with Some n => n | None => 0%Z end in
        if String.eqb name "" || negb (in_range rating) then
          (Context None false
                   (Some "Please provide your name and a rating between 1 and 5.")
                   false None,
           store)
        else
          create (Feedback name email rating comments)
                 (Context None false None true None) store
      else (empty_context, store)
  end.

End WithDatabase.

(** What the view lets into the tables: a contact message has a name, an
    address and a text; a feedback has a name and a rating from 1 to 5.  No
    text has blanks around it. *)
Definition trimmed (s : string) : Prop := strip s = s.

Definition acceptable (r : row) : Prop :=
  match r with
  | ContactMessage name email message =>
      name <> "" /\ email <> "" /\ message <> ""
      /\ trimmed name /\ trimmed email /\ trimmed message
  | Feedback name email rating comments =>
      name <> "" /\ (1 <= rating <= 5)%Z
      /\ trimmed name /\ trimmed email /\ trimmed comments
  end.

(** The context reports a success, respectively an error. *)
Definition succeeded (c : context) : bool := contact_success c || feedback_success c.

Definition failed (c : context) : bool :=
  match contact_error c, feedback_error c, form_error c with
  | None, None, None => false
  | _, _, _ => true
  end.

(** A contact form or a feedback form was posted. *)
Definition known_form (posted : option form) : bool :=
  match posted with
  | Some post =>
      String.eqb (field (p_form_type post)) "contact"
      || String.eqb (field (p_form_type post)) "feedback"
  | None => false
  end.

(** Stand-ins: whole numbers without a sign, and a database that takes every
    row. *)
Definition whole (s : string) : option Z :=
  match s with
  | EmptyString => None
  | _ => Sample.digits 0 s
  end.

Definition accepts_all : row -> option string := fun _ => None.

End Contact.
(** ** The rows of the price list (scraper.py, lines 375-380 and 407-412) *)

Module Scraper.

(** A scraped row [(item_name, site, price, link)]; the price is whatever
    the scraper read. *)
Record row : Type := Row {
  item_name : string;
  site : string;
  price : json;
  link : string
}.

Definition key (r : row) : string * string := (item_name r, site r).

Definition key_eqb (a b : string * string) : bool :=
  String.eqb (fst a) (fst b) && String.eqb (snd a) (snd b).

(** [isinstance(price, (int, float)) and price]: a number other than zero;
    [True] counts, being an [int]. *)
Definition priced (r : row) : bool :=
  match price r with
  | JNum q => negb (Qeq_bool q 0)
  | JBool b => b
  | _ => false
  end.

(** One round of the loop. *)
Definition keep (dedup : list (string * string * row)) (r : row)
  : list (string * string * row) :=
  match Dict.find key_eqb (key r) dedup with
  | None => Dict.store key_eqb (key r) r dedup
  | Some _ => if priced r then Dict.store key_eqb (key r) r dedup else dedup
  end.

(** [final_rows]. *)
Definition final_rows (rows : list row) : list row :=
  map snd (fold_left keep rows []).

(** The rows with the key [k], and the one of them that stands for the
    key: the last one with a price, or else the first one. *)
Definition with_key (k : string * string) (rows : list row) : list row :=
  filter (fun r => key_eqb (key r) k) rows.

Definition choice (k : string * string) (rows : list row) : option row :=
  match rev (filter priced (with_key k rows)) with
  | r :: _ => Some r
  | [] => hd_error (with_key k rows)
  end.

End Scraper.
(** ** The detected object of [upload_view] (views.py, lines 134-192) *)

Module Detection.

(** The value of a number; [True] and [False] are the integers 1 and 0. *)
Definition number (v : json) : option Q :=
  match v with
  | JNum q => Some q
  | JBool b => Some (if b then 1%Q else 0%Q)
  | _ => None
  end.

(** [a > b] on numbers.  Values that are not numbers are answered with
    [TypeError] (Python would still order some of them, such as strings
    among themselves). *)
Definition greater (a b : json) : result bool :=
  match number a, number b with
  | Some x, Some y => Ok (negb (Qle_bool x y))
  | _, _ => Raise TypeError
  end.

(** The key of line 137: [p.get("confidence", 0)]. *)
Definition confidence (p : json) : result json :=
  get_default p "confidence" (JInt 0).

(** [max(preds, key=...)] after its first item: an item replaces the
    current one when its key is greater. *)
Fixpoint max_from (best best_key : json) (rest : list json) : result json :=
  match rest with
  | [] => Ok best
  | p :: rest' =>
      let? k := confidence p in
      let? above := greater k best_key in
      if above then max_from p k rest' else max_from best best_key rest'
  end.

Definition max_confidence (preds : list json) : result json :=
  match preds with
  | [] => Raise ValueError
  | p :: rest => let? k := confidence p in max_from p k rest
  end.

(** Lines 135-137: [top_pred], [None] when there is no prediction. *)
Definition top_pred (preds : json) : result json :=
  if truthy preds then
    let? ps := iterate preds in max_confidence ps
  else Ok JNull.

Definition biodegradable_set : list string :=
  ["biological"; "organic"; "food"; "paper"; "cardboard"; "leaf"; "leaves";
   "garden"; "yard"].
Definition recyclable_set : list string :=
  ["plastic"; "glass"; "pet"; "bottle"; "jar"].
Definition metal_set : list string :=
  ["metal"; "aluminum"; "aluminium"; "steel"; "iron"; "copper"; "tin"].
Definition hazardous_ewaste_set : list string :=
  ["battery"; "batteries"; "e-waste"; "ewaste"; "electronics"; "phone"; "laptop"].

Definition member (s : string) (set : list string) : bool :=
  existsb (String.eqb s) set.

(** Lines 177-192: the category of a class name. *)
Definition category (class_name : json) : result string :=
  let? cls :=
    match py_or class_name (JStr "") with
    | JStr s => Ok (lower (strip s))
    | _ => Raise AttributeError
    end in
  Ok (if member cls biodegradable_set then "Biodegradable"
      else if member cls recyclable_set then "Recyclable"
      else if member cls metal_set then "Hazardous and Recyclable"
      else if member cls hazardous_ewaste_set then "Hazardous E-waste"
      else "General Waste").

(** The confidence of a prediction that is a dictionary with a numeric
    confidence, or with none (which counts as 0). *)
Definition confidence_of (p : json) : option Q :=
  match confidence p with
  | Ok k => number k
  | Raise _ => None
  end.

(** A prediction as the detector sends it. *)
Definition prediction (class_name : string) (percent : Z) : json :=
  JDict [("class", JStr class_name); ("confidence", JNum (percent # 100))].

End Detection.
(** ** The reply of the language model in [upload_view]
       (views.py, lines 255-564) *)

Module Solutions.

(** The line feed. *)
Definition LF : ascii := ascii_of_nat 10.
Definition CR : ascii := ascii_of_nat 13.
Definition nl : string := String LF EmptyString.

(** [text.replace('**', '')]. *)
Fixpoint remove_stars (s : string) : string :=
  match s with
  | EmptyString => EmptyString
  | String c rest =>
      match rest with
      | String d rest' =>
          if Ascii.eqb c "*" && Ascii.eqb d "*" then remove_stars rest'
          else String c (remove_stars rest)
      | EmptyString => String c EmptyString
      end
  end.

(** The line boundaries of [str.splitlines] among the 7-bit code points:
    LF, VT, FF, CR, FS, GS and RS. *)
Definition is_linebreak (c : ascii) : bool :=
  let n := nat_of_ascii c in
  ((10 <=? n) && (n <=? 13)) || ((28 <=? n) && (n <=? 30)).

(** [str.splitlines]: CR LF is one boundary, and a boundary at the very end
    opens no further line.  [acc] is the line being read. *)
Fixpoint splitlines_acc (acc : string) (s : string) : list string :=
  match s with
  | EmptyString =>
      match acc with EmptyString => [] | _ => [acc] end
  | String c s' =>
      if is_linebreak c then
        acc :: match s' with
               | String d s'' =>
                   if Ascii.eqb c CR && Ascii.eqb d LF
                   then splitlines_acc EmptyString s''
                   else splitlines_acc EmptyString s'
               | EmptyString => []
               end
      else splitlines_acc (acc ++ String c EmptyString) s'
  end.

Definition splitlines (s : string) : list string := splitlines_acc EmptyString s.

(** Line 258: [[ln.strip() for ln in cleaned.splitlines() if ln.strip()]]. *)
Definition raw_lines_of (cleaned : string) : list string :=
  filter (fun ln => negb (String.eqb ln "")) (map strip (splitlines cleaned)).

(** [line.lower().startswith(prefix)]. *)
Definition has_prefix (prefix line : string) : bool :=
  starts_with prefix (lower line).

(** [line.split(':', 1)[1]]; [None] is the [IndexError] of a line without a
    colon. *)
Fixpoint after_colon (line : string) : option string :=
  match line with
  | EmptyString => None
  | String c rest => if Ascii.eqb c ":" then Some rest else after_colon rest
  end.

(** The test of line 280. *)
Definition is_header (line : string) : bool :=
  has_prefix "best action:" line || has_prefix "how to" line
  || has_prefix "other suggestions" line.

(** Lines 280-282: the lines that continue the harm text. *)
Fixpoint harm_loop (harm_out : string) (lines : list string) : string * list string :=
  match lines with
  | [] => (harm_out, [])
  | line :: rest =>
      if negb (is_header line)
      then harm_loop (harm_out ++ (if String.eqb harm_out "" then "" else nl) ++ line)
                     rest
      else (harm_out, lines)
  end.

Fixpoint skip_digits (s : string) : string :=
  match s with
  | EmptyString => EmptyString
  | String c s' => if is_digit c then skip_digits s' else s
  end.

(** [re.sub(r'^\d+\.?\s+', '', item)]: digits, a dot or none, and blanks, at
    the start. *)
Definition numbered_sub (item : string) : string :=
  match item with
  | EmptyString => item
  | String c _ =>
      if is_digit c then
        let rest := skip_digits item in
        let rest :=
          match rest with
          | String d rest' => if Ascii.eqb d "." then rest' else rest
          | EmptyString => rest
          end in
        match rest with
        | String b _ => if is_space b then lstrip rest else item
        | EmptyString => item
        end
      else item
  end.

(** Lines 294-299: an item without its bullet or number. *)
Definition clean_item (item : string) : string :=
  if starts_with "- " item then strip (drop 2 item)
  else strip (numbered_sub item).

(** Lines 292-301 and 307-316: the items up to the first line that [stop]
    accepts, or to the end; [clean] takes the bullet or number off a line. *)
Fixpoint items_loop (clean : string -> string) (stop : string -> bool)
    (items : list string) (lines : list string) : list string * list string :=
  match lines with
  | [] => (items, [])
  | line :: rest =>
      if stop line then (items, lines)
      else
        let item := clean line in
        items_loop clean stop
          (if String.eqb item "" then items else items ++ [item]) rest
  end.

(** What the parser reads off the reply. *)
Record parsed : Type := Parsed {
  category_out : string;
  harm_out : string;
  best_action : string;
  how_to_label : string;
  how_to : list string;
  others_label : string;
  others : list string
}.

(** A header line with a value after its colon (lines 271-273 and
    284-286). *)
Definition labelled (prefix : string) (lines : list string)
  : option (string * list string) :=
  match lines with
  | line :: rest =>
      if has_prefix prefix line then
        match after_colon line with
        | Some v => Some (strip v, rest)
        | None => None
        end
      else Some ("", lines)
  | [] => Some ("", lines)
  end.

(** Lines 275-282: the harm line and the lines that continue it. *)
Definition harm_section (lines : list string) : option (string * list string) :=
  match lines with
  | line :: rest =>
      if has_prefix "harm:" line then
        match after_colon line with
        | Some v => Some (harm_loop (strip v) rest)
        | None => None
        end
      else Some ("", lines)
  | [] => Some ("", lines)
  end.

(** A header line kept as it is (lines 288-290 and 303-305). *)
Definition header (prefix : string) (lines : list string) : string * list string :=
  match lines with
  | line :: rest => if has_prefix prefix line then (line, rest) else ("", lines)
  | [] => ("", lines)
  end.

(** Lines 260-319: the parser; [None] is an exception. *)
Definition parse (raw_lines : list string) : option parsed :=
  match labelled "category:" raw_lines with
  | None => None
  | Some (category_out, lines) =>
  match harm_section lines with
  | None => None
  | Some (harm_out, lines) =>
  match labelled "best action:" lines with
  | None => None
  | Some (best_action, lines) =>
  let '(how_to_label, lines) := header "how to" lines in
  let '(how_to, lines) :=
    items_loop clean_item (has_prefix "other suggestions") [] lines in
  let '(others_label, lines) := header "other suggestions" lines in
  let '(others, _) := items_loop clean_item (fun _ => false) [] lines in
  let best_action :=
    if String.eqb best_action ""
    then match raw_lines with line :: _ => line | [] => "" end
    else best_action in
  Some (Parsed category_out harm_out best_action how_to_label how_to
               others_label others)
  end end end.

(** The parser of the older [upload_view] (src/trashsort/myapp/views.py,
    lines 177-216): no category, no harm text, and items with a bullet
    only.  Lines 197-198 and 208-209: *)
Definition unbullet (item : string) : string :=
  if starts_with "- " item then strip (drop 2 item) else item.

Definition parse_v1 (raw_lines : list string) : option parsed :=
  match labelled "best action:" raw_lines with
  | None => None
  | Some (best_action, lines) =>
  let '(how_to_label, lines) := header "how to" lines in
  let '(how_to, lines) :=
    items_loop unbullet (has_prefix "other suggestions") [] lines in
  let '(others_label, lines) := header "other suggestions" lines in
  let '(others, _) := items_loop unbullet (fun _ => false) [] lines in
  let best_action :=
    if String.eqb best_action ""
    then match raw_lines with line :: _ => line | [] => "" end
    else best_action in
  Some (Parsed "" "" best_action how_to_label how_to others_label others)
  end.

(** The entry of one category in the table of [_defaults_for]. *)
Record defaults : Type := Defaults {
  steps : list string;
  tips : list string;
  harm : list string
}.

(** [while len(l) < n: l.append(fill[len(l) % len(fill)])], the body being
    run [k] times; [None] is the [ZeroDivisionError] of an empty [fill]. *)
Fixpoint pad_by (k : nat) (fill : list string) (l : list string)
  : option (list string) :=
  match k with
  | O => Some l
  | S k' =>
      match fill with
      | [] => None
      | _ => pad_by k' fill
               (l ++ [nth (List.length l mod List.length fill) fill ""])
      end
  end.

(** The loop runs until the list has [n] items: each round adds one. *)
Definition pad (n : nat) (fill : list string) (l : list string)
  : option (list string) :=
  pad_by (n - List.length l) fill l.

(** [s.split(sep)] for a separator of one code point. *)
Fixpoint split_on_acc (sep : ascii) (acc : string) (s : string) : list string :=
  match s with
  | EmptyString => [acc]
  | String c s' =>
      if Ascii.eqb c sep then acc :: split_on_acc sep EmptyString s'
      else split_on_acc sep (acc ++ String c EmptyString) s'
  end.

Definition split_on (sep : ascii) (s : string) : list string :=
  split_on_acc sep EmptyString s.

(** What the block leaves in the template context. *)
Record shown : Type := Shown {
  s_best_action : string;
  s_best_action_details : list string;
  s_other_suggestions : list string;
  s_category : string;
  s_harm_text : option string;
  s_solutions_text : string
}.

(** Line 321: the category whose defaults fill the lists,
    [category_out or context.get('category') or 'General Waste']. *)
Definition cat_for_defaults (category : string) (p : parsed) : string :=
  if negb (String.eqb (category_out p) "") then category_out p
  else if negb (String.eqb category "") then category
  else "General Waste".

(** Lines 545-548: the lines of the harm text that are not blank. *)
Definition harm_lines_of (harm_out : string) : list string :=
  if negb (String.eqb harm_out "")
  then filter (fun ln => negb (String.eqb (strip ln) "")) (split_on LF harm_out)
  else [].

Section WithTable.

(** The dictionary [defaults] of [_defaults_for], by category. *)
Variable table : list (string * defaults).

Fixpoint entry (cat : string) (t : list (string * defaults)) : option defaults :=
  match t with
  | [] => None
  | (k, d) :: rest => if String.eqb cat k then Some d else entry cat rest
  end.

(** [_defaults_for] (lines 323-537); [None] is the [KeyError] of a table
    without 'General Waste'. *)
Definition _defaults_for (cat_name : string) : option defaults :=
  let cat := if String.eqb (strip cat_name) "" then "General Waste"
             else strip cat_name in
  match entry "General Waste" table with
  | None => None
  | Some general =>
      Some match entry cat table with Some d => d | None => general end
  end.

(** Lines 255-564 for a reply [text] that is not empty; [category] is
    [context['category']] as the detection left it.  [None] is an exception,
    which the handler of line 802 takes. *)
Definition solutions (category : string) (text : string) : option shown :=
  let cleaned := remove_stars text in
  match parse (raw_lines_of cleaned) with
  | None => None
  | Some p =>
  match _defaults_for (cat_for_defaults category p) with
  | None => None
  | Some d =>
  match pad 8 (steps d) (how_to p) with
  | None => None
  | Some how_to =>
  match pad 12 (tips d) (others p) with
  | None => None
  | Some others =>
  match pad 14 (harm d) (harm_lines_of (harm_out p)) with
  | None => None
  | Some harm_lines =>
  let harm_out := join nl harm_lines in
  Some (Shown (best_action p) how_to others
              (if negb (String.eqb (category_out p) "") then category_out p
               else category)
              (if negb (String.eqb harm_out "") then Some harm_out else None)
              cleaned)
  end end end end end.

End WithTable.

(** A reply in the structure the prompt asks for (lines 204-229): the
    category, the harm text on the header line and the lines that continue
    it, the best action, the header of the steps, the steps, the header of
    the tips and the tips.  A step or tip is written after its number, which
    is kept here as the digits the reply uses. *)
Record reply : Type := Reply {
  r_category : string;
  r_harm : string;
  r_more_harm : list string;
  r_action : string;
  r_how_to_label : string;
  r_steps : list (string * string);
  r_others_label : string;
  r_tips : list (string * string)
}.

Definition numbered (entry : string * string) : string :=
  (fst entry ++ ". " ++ snd entry)%string.

(** The lines of the reply. *)
Definition render (r : reply) : list string :=
  [("Category: " ++ r_category r)%string; ("Harm: " ++ r_harm r)%string]
  ++ r_more_harm r
  ++ [("Best Action: " ++ r_action r)%string; r_how_to_label r]
  ++ map numbered (r_steps r)
  ++ [r_others_label r]
  ++ map numbered (r_tips r).

(** A text that is not empty and has no blank at either end. *)
Definition phrase (s : string) : Prop := s <> "" /\ strip s = s.

(** The digits of a number: at least one, and nothing else. *)
Definition digits_only (s : string) : Prop :=
  s <> "" /\ forallb_str is_digit s = true.

(** The reply keeps to the structure: the values are phrases, no line that
    continues the harm text looks like a header, the two headers are the
    ones asked for, and the items are numbered phrases. *)
Definition well_formed (r : reply) : Prop :=
  phrase (r_category r) /\ phrase (r_harm r) /\ phrase (r_action r)
  /\ Forall (fun line => is_header line = false) (r_more_harm r)
  /\ has_prefix "how to" (r_how_to_label r) = true
  /\ has_prefix "other suggestions" (r_others_label r) = true
  /\ Forall (fun e => digits_only (fst e) /\ phrase (snd e)) (r_steps r)
  /\ Forall (fun e => digits_only (fst e) /\ phrase (snd e)) (r_tips r).

(** The table has the entry of 'General Waste', and no list of an entry is
    empty. *)
Definition complete (table : list (string * defaults)) : Prop :=
  entry "General Waste" table <> None
  /\ Forall (fun kd => steps (snd kd) <> [] /\ tips (snd kd) <> []
                       /\ harm (snd kd) <> []) table.

(** The items that padding to [n] adds to a list of [len] items: those of
    [fill] from position [len] on, going round. *)
Definition filling (n : nat) (fill : list string) (len : nat) : list string :=
  map (fun i => nth (i mod List.length fill) fill "") (seq len (n - len)).

(** The lines [rest] do not start with a line that [test] accepts. *)
Definition not_next (test : string -> bool) (rest : list string) : Prop :=
  match rest with
  | line :: _ => test line = false
  | [] => True
  end.

(** [front] is the line that [test] accepts at the start of [front ++ rest],
    or nothing when those lines start otherwise. *)
Definition optional_line (test : string -> bool) (front rest : list string) : Prop :=
  (front = [] /\ not_next test rest)
  \/ (exists line, front = [line] /\ test line = true).

(** [front] is the harm text at the start of [front ++ rest]: its header
    line and all the lines up to the next header; or nothing when the lines
    do not start with the harm header. *)
Definition harm_block (front rest : list string) : Prop :=
  (front = [] /\ not_next (has_prefix "harm:") rest)
  \/ (exists line more,
        front = line :: more /\ has_prefix "harm:" line = true
        /\ Forall (fun l => is_header l = false) more
        /\ not_next (fun l => negb (is_header l)) rest).

(** A table with one entry, and a reply with two steps and one tip. *)
Definition small_table : list (string * defaults) :=
  [("General Waste", Defaults ["Sort it."; "Bag it."] ["Buy less."] ["It piles up."])].

Definition short_reply : reply :=
  Reply "Recyclable" "Plastic lasts." ["It breaks into pieces."] "Recycle"
        "How to Recycle:" [("1", "Rinse it."); ("2", "Flatten it.")]
        "Other Suggestions:" [("1", "Refill bottles.")].

(** A reply that keeps to the structure only loosely. *)
Definition loose_reply : string :=
  ("**Best Action:** Recycle" ++ nl ++ "1. Rinse it." ++ nl ++ nl
   ++ "Other suggestions" ++ nl ++ "- Refill bottles.")%string.

End Solutions.
(** ** [query_scrap_prices] (scraper.py, lines 418-522) *)

Module PriceList.
Import PyFloat.

(** [site_urls], and [SITE_COLS], its keys. *)
Definition site_urls : list (string * string) :=
  [("TheKabadiwala", "https://www.thekabadiwala.com/scrap-rates/Ahmadabad");
   ("RecyclePay", "https://recyclepay.ceibagreen.com/price-list/");
   ("ScrapBuddy", "http://scrapbuddy.in/ratecard");
   ("RecycleBaba", "https://recyclebaba.com/scrap-price-list/");
   ("KabadiwalaOnline", "https://www.kabadiwalaonline.com/scrap-rates/");
   ("ScrapUncle", "https://scrapuncle.com/local-rate")].

Definition SITE_COLS : list string := map fst site_urls.

(** [site_urls.get(site, '')]. *)
Definition url (site : string) : string :=
  match Dict.find String.eqb site site_urls with Some u => u | None => "" end.

(** A row of [csv.DictReader]: every field is a string, or [None] when the
    line is too short. *)
Definition record : Type := list (string * option string).

(** [rec.get(key)] and [rec.get(key, '')]. *)
Definition get (rec : record) (key : string) : option string :=
  match Dict.find String.eqb key rec with Some v => v | None => None end.

Definition get_or_empty (rec : record) (key : string) : option string :=
  match Dict.find String.eqb key rec with Some v => v | None => Some "" end.

(** [str(v)] for a string or [None]. *)
Definition py_str (v : option string) : string :=
  match v with Some s => s | None => "None" end.

(** [s.replace(',', '')]. *)
Fixpoint remove_commas (s : string) : string :=
  match s with
  | EmptyString => EmptyString
  | String c rest =>
      if Ascii.eqb c "," then remove_commas rest else String c (remove_commas rest)
  end.

Definition member (s : string) (l : list string) : bool := existsb (String.eqb s) l.

(** A row of the answer. *)
Record priced : Type := Priced {
  p_item : string;
  p_website : option string;
  p_price : float;
  p_link : option string
}.

Definition opt_cell (s : option string) : ScrapPrice.cell :=
  match s with Some x => ScrapPrice.CStr x | None => ScrapPrice.CNone end.

(** The dictionary of lines 501 and 513. *)
Definition row_of (r : priced) : ScrapPrice.row :=
  [("Item", ScrapPrice.CStr (p_item r)); ("Website", opt_cell (p_website r));
   ("Price", ScrapPrice.CFloat (p_price r)); ("Link", opt_cell (p_link r))].

(** Line 484: the file has a column for some site and none named
    'Website'. *)
Definition using_wide (fns : list string) : bool :=
  negb (member "Website" fns) && existsb (fun c => member c fns) SITE_COLS.

Section WithFloat.

(** [float(s)] on a string, [None] being [ValueError]. *)
Variable float_of_str : string -> option float.

(** [float(str(v).replace(',', '').strip())]. *)
Definition price_of (v : option string) : option float :=
  float_of_str (strip (remove_commas (py_str v))).

(** [(rec.get('Item') or '').strip()], and the test of lines 489 and 507. *)
Definition item_of (rec : record) : string :=
  strip (CityArea.or_empty (get rec "Item")).

Definition skipped (q : string) (item_name : string) : bool :=
  negb (String.eqb q "") && negb (contains q (lower item_name)).

(** Lines 487-503: the rows of one record of a file with a column per
    site.  A price is left out when [price_f <= 0] holds, which it does not
    for NaN. *)
Definition wide_rows (fns : list string) (q : string) (rec : record) : list priced :=
  let item_name := item_of rec in
  if skipped q item_name then []
  else
    flat_map
      (fun site =>
         if member site fns then
           match get rec site with
           | None => []
           | Some s =>
               if String.eqb (strip s) "" then []
               else
                 match price_of (Some s) with
                 | None => []
                 | Some price_f =>
                     if le price_f (Finite 0) then []
                     else [Priced item_name (Some site) price_f (Some (url site))]
                 end
           end
         else [])
      SITE_COLS.

(** Lines 506-514: the row of one record of a file with one price per
    line. *)
Definition long_rows (q : string) (rec : record) : list priced :=
  let item_name := item_of rec in
  if skipped q item_name then []
  else
    match price_of (get_or_empty rec "Price") with
    | None => []
    | Some price_f =>
        [Priced item_name (get_or_empty rec "Website") price_f
                (get_or_empty rec "Link")]
    end.

(** Lines 481-518: the rows read without pandas; [fieldnames] is
    [r.fieldnames]. *)
Definition csv_rows (fieldnames : option (list string)) (records : list record)
    (q : string) : list priced :=
  let fns := match fieldnames with Some l => l | None => [] end in
  if using_wide fns
  then Descending.sorted p_price (flat_map (wide_rows fns q) records)
  else Descending.sorted p_price (flat_map (long_rows q) records).

(** [query_scrap_prices].  [by_pandas] is what the pandas branch gives,
    [None] when pandas is missing or the branch raises; [file] is the CSV
    file at the path of lines 422-429 as [csv.DictReader] reads it, [None]
    when that raises. *)
Definition query_scrap_prices
    (by_pandas : option (list ScrapPrice.row))
    (file : option (option (list string) * list record))
    (item_query : option string) : list ScrapPrice.row :=
  let q := lower (strip (CityArea.or_empty item_query)) in
  match by_pandas with
  | Some out_rows => out_rows
  | None =>
      match file with
      | Some (fieldnames, records) => map row_of (csv_rows fieldnames records q)
      | None => []
      end
  end.

End WithFloat.

(** Two lines of a file with a column per site. *)
Definition wide_file : list record :=
  [[("Item", Some "Iron"); ("ScrapUncle", Some "30"); ("RecyclePay", Some "")];
   [("Item", Some " Old iron "); ("ScrapUncle", Some "1,200"); ("RecyclePay", None)]].

End PriceList.

(** * Properties *)

Import Geocode CityArea Ranking Endpoint.

(** ** Facts about Python strings *)

Module StrFacts.

Lemma append_nil_r (s : string) : (s ++ "")%string = s.
Proof. induction s as [|c s IH]; simpl; congruence. Qed.

Lemma append_assoc (a b c : string) :
  ((a ++ b) ++ c)%string = (a ++ (b ++ c))%string.
Proof. induction a as [|x a IH]; simpl; congruence. Qed.

Lemma append_snoc (a : string) (c : ascii) (b : string) :
  ((a ++ String c "") ++ b)%string = (a ++ String c b)%string.
Proof. now rewrite append_assoc. Qed.

Lemma append_empty_inv (a b : string) :
  (a ++ b)%string = "" -> a = "" /\ b = "".
Proof. destruct a; simpl; [auto | discriminate]. Qed.

Ltac by_cases c :=
  destruct c as [[] [] [] [] [] [] [] []]; vm_compute; try reflexivity; try discriminate.

Lemma is_space_to_upper c : is_space (to_upper c) = is_space c.
Proof. by_cases c. Qed.

Lemma is_space_to_lower c : is_space (to_lower c) = is_space c.
Proof. by_cases c. Qed.




Lemma to_lower_idem c : to_lower (to_lower c) = to_lower c.
Proof. by_cases c. Qed.

Lemma to_lower_to_upper c : to_lower (to_upper c) = to_lower c.
Proof. by_cases c. Qed.




(** *** [map_str] and the case conversions *)


Lemma nospace_map_str f s :
  (forall c, is_space (f c) = is_space c) ->
  nospace (map_str f s) = nospace s.
Proof.
  intros Hf. unfold nospace. induction s as [|c s IH]; simpl; [reflexivity|].
  now rewrite Hf, IH.
Qed.








Lemma token_case_token tok : token (case_token tok) = token tok.
Proof.
  unfold case_token, token.
  destruct ((String.length tok <=? 3) && isalpha tok).
  - unfold upper. rewrite nospace_map_str by apply is_space_to_upper.
    destruct tok; reflexivity.
  - destruct tok as [|c s]; [reflexivity|]. unfold capitalize, nospace. simpl.
    rewrite is_space_to_upper. f_equal.
    apply (nospace_map_str to_lower), is_space_to_lower.
Qed.

(** *** [split] and [join] *)

Lemma nospace_append a b : nospace (a ++ b) = nospace a && nospace b.
Proof.
  unfold nospace. induction a as [|c a IH]; simpl; [reflexivity|].
  now rewrite IH, andb_assoc.
Qed.

Lemma token_nonempty t : token t = true -> t <> "".
Proof. unfold token. destruct t; simpl; [discriminate | discriminate]. Qed.

Lemma token_nospace t : token t = true -> nospace t = true.
Proof. unfold token. intros H. now apply andb_true_iff in H. Qed.

Lemma token_starts t : token t = true -> starts_nonblank t = true.
Proof.
  destruct t as [|c t]; [reflexivity|]. unfold token, nospace. simpl.
  intros H. now apply andb_true_iff in H.
Qed.

Lemma split_acc_tokens s : forall acc,
  nospace acc = true -> Forall (fun t => token t = true) (split_acc acc s).
Proof.
  induction s as [|c s IH]; intros acc Hacc; simpl.
  - destruct acc; constructor; [|constructor]. unfold token. now rewrite Hacc.
  - destruct (is_space c) eqn:Hc.
    + destruct acc as [|a acc]; [now apply IH|].
      constructor; [unfold token; now rewrite Hacc | now apply IH].
    + apply IH. rewrite nospace_append, Hacc. unfold nospace. simpl. now rewrite Hc.
Qed.

Lemma split_tokens s : Forall (fun t => token t = true) (split s).
Proof. now apply split_acc_tokens. Qed.

Lemma split_acc_app_token t : forall acc r,
  nospace t = true -> split_acc acc (t ++ r) = split_acc (acc ++ t) r.
Proof.
  induction t as [|c t IH]; intros acc r Ht; simpl.
  - now rewrite append_nil_r.
  - unfold nospace in Ht. simpl in Ht. apply andb_true_iff in Ht as [Hc Ht].
    apply negb_true_iff in Hc. rewrite Hc, IH by exact Ht.
    now rewrite append_snoc.
Qed.

Lemma split_acc_blank c acc r :
  is_space c = true -> acc <> "" ->
  split_acc acc (String c r) = acc :: split_acc "" r.
Proof. intros Hc Hacc. simpl. rewrite Hc. destruct acc; congruence. Qed.


Lemma join_cons2 sep t t' ts :
  join sep (t :: t' :: ts) = (t ++ sep ++ join sep (t' :: ts))%string.
Proof. reflexivity. Qed.

Lemma split_join toks :
  Forall (fun t => token t = true) toks -> split (join " " toks) = toks.
Proof.
  induction 1 as [|t ts Ht Hts IH]; [reflexivity|].
  unfold split in *. destruct ts as [|t' ts].
  - simpl. rewrite <- (append_nil_r t) at 1.
    rewrite split_acc_app_token by now apply token_nospace.
    simpl. apply token_nonempty in Ht. destruct t; congruence.
  - rewrite join_cons2, split_acc_app_token by now apply token_nospace.
    change ("" ++ t)%string with t.
    change (" " ++ join " " (t' :: ts))%string with (String " " (join " " (t' :: ts))).
    rewrite split_acc_blank; [now rewrite IH | reflexivity |].
    now apply token_nonempty.
Qed.

(** *** Blank ends and doubled spaces *)

Lemma lstrip_fixed s : starts_nonblank s = true -> lstrip s = s.
Proof.
  destruct s as [|c s]; simpl; [reflexivity|]. intros H.
  apply negb_true_iff in H. now rewrite H.
Qed.

Lemma rstrip_fixed s : ends_nonblank s = true -> rstrip s = s.
Proof.
  induction s as [|c s IH]; [reflexivity|]. simpl. destruct s as [|c' s].
  - intros H. apply negb_true_iff in H. simpl. now rewrite H.
  - intros H. rewrite IH by exact H. reflexivity.
Qed.

Lemma strip_fixed s :
  starts_nonblank s = true -> ends_nonblank s = true -> strip s = s.
Proof. intros H1 H2. unfold strip. now rewrite lstrip_fixed, rstrip_fixed. Qed.

Lemma ends_nonblank_append a b :
  b <> "" -> ends_nonblank (a ++ b) = ends_nonblank b.
Proof.
  intros Hb. induction a as [|c a IH]; [reflexivity|].
  simpl. destruct (a ++ b)%string eqn:E; [|exact IH].
  apply append_empty_inv in E. tauto.
Qed.

Lemma ends_nonblank_token t : token t = true -> ends_nonblank t = true.
Proof.
  intros H. pose proof (token_nonempty _ H) as Hne. apply token_nospace in H.
  induction t as [|c t IH]; [reflexivity|].
  unfold nospace in H. simpl in H. apply andb_true_iff in H as [Hc Ht].
  simpl. destruct t; [exact Hc|]. apply IH; [exact Ht | discriminate].
Qed.

Lemma join_nonempty t ts : token t = true -> join " " (t :: ts) <> "".
Proof.
  intros Ht E. apply token_nonempty in Ht. destruct ts.
  - simpl in E. congruence.
  - rewrite join_cons2 in E. apply append_empty_inv in E. tauto.
Qed.

Lemma join_ends toks :
  Forall (fun t => token t = true) toks -> ends_nonblank (join " " toks) = true.
Proof.
  induction 1 as [|t ts Ht Hts IH]; [reflexivity|]. destruct ts as [|t' ts].
  - now apply ends_nonblank_token.
  - rewrite join_cons2, ends_nonblank_append by discriminate.
    inversion Hts as [|? ? Ht' _]; subst.
    pose proof (join_nonempty t' ts Ht') as Hne.
    remember (join " " (t' :: ts)) as j eqn:E.
    change (" " ++ j)%string with (String " " j).
    destruct j; [congruence | exact IH].
Qed.

Lemma join_starts toks :
  Forall (fun t => token t = true) toks -> starts_nonblank (join " " toks) = true.
Proof.
  destruct 1 as [|t ts Ht Hts]; [reflexivity|].
  pose proof (token_starts _ Ht) as Hs. pose proof (token_nonempty _ Ht) as Hne.
  destruct ts; [exact Hs|]. rewrite join_cons2.
  destruct t; [congruence | exact Hs].
Qed.

Lemma contains_cons needle c s :
  contains needle (String c s) = starts_with needle (String c s) || contains needle s.
Proof. reflexivity. Qed.

Lemma no_double_space_token_app t : forall r,
  nospace t = true ->
  contains "  " (t ++ r) = contains "  " r.
Proof.
  induction t as [|c t IH]; intros r Ht; [reflexivity|].
  unfold nospace in Ht. simpl in Ht. apply andb_true_iff in Ht as [Hc Ht].
  simpl append. rewrite contains_cons, IH by exact Ht.
  replace (starts_with "  " (String c (t ++ r))) with false; [reflexivity|].
  cbn [starts_with]. destruct (Ascii.eqb_spec " " c) as [<-|]; [discriminate Hc | reflexivity].
Qed.

Lemma no_double_space_join toks :
  Forall (fun t => token t = true) toks -> contains "  " (join " " toks) = false.
Proof.
  induction 1 as [|t ts Ht Hts IH]; [reflexivity|]. destruct ts as [|t' ts].
  - simpl join. rewrite <- (append_nil_r t).
    now rewrite no_double_space_token_app by now apply token_nospace.
  - rewrite join_cons2, no_double_space_token_app by now apply token_nospace.
    change (" " ++ join " " (t' :: ts))%string with (String " " (join " " (t' :: ts))).
    rewrite contains_cons, IH, orb_false_r.
    pose proof (join_starts _ Hts) as Hs.
    remember (join " " (t' :: ts)) as j eqn:E.
    destruct j as [|c r]; [reflexivity|].
    simpl in Hs. cbn [starts_with]. rewrite Ascii.eqb_refl.
    destruct (Ascii.eqb_spec " " c) as [<-|]; [discriminate Hs | reflexivity].
Qed.

Lemma no_double_space_append a b :
  contains "  " a = false -> contains "  " b = false ->
  starts_nonblank b = true ->
  contains "  " (a ++ b) = false.
Proof.
  intros Ha Hb Hs. induction a as [|c a IH]; [exact Hb|].
  rewrite contains_cons in Ha. apply orb_false_iff in Ha as [Hp Ha].
  simpl append. rewrite contains_cons, IH by exact Ha. rewrite orb_false_r.
  cbn [starts_with] in Hp |- *.
  destruct (Ascii.eqb_spec " " c) as [<-|]; [|reflexivity].
  destruct a as [|c' a]; [|exact Hp].
  destruct b as [|c' b]; [reflexivity|]. cbn [append]. simpl in Hs.
  destruct (Ascii.eqb_spec " " c') as [<-|]; [discriminate Hs | reflexivity].
Qed.

End StrFacts.

(** ** Running the handlers *)

Module Run.
Import StrFacts.

(** Unfolds the monad and splits on every value the run inspects. *)
Ltac unfold_monad :=
  unfold bind, ret, lift, try_except, http, append_log, read_log, clear_log in *.

Ltac split_run :=
  repeat match goal with
  | |- context [match ?x with _ => _ end] =>
      lazymatch x with
      | context [match _ with _ => _ end] => fail
      | _ => destruct x eqn:?
      end; cbn [fst snd calls log json_body status_code]
  end.

Ltac run_block :=
  intros; unfold_monad; cbn [calls log]; split_run;
  try (do 2 eexists; rewrite <- ?app_assoc; reflexivity).

(** Every attempt of a resolver ends normally, having made exactly its one
    call and having appended its entries to the trail. *)
Lemma try_addressvalidation_runs norm w st :
  exists r entries,
    try_addressvalidation norm w st =
      (Ok r, State (calls st ++ [AddressValidate norm]) (log st ++ entries)).
Proof. unfold try_addressvalidation. run_block. Qed.

Lemma try_textsearch_runs norm w st :
  exists r entries,
    try_textsearch norm w st =
      (Ok r, State (calls st ++ [TextSearch norm None]) (log st ++ entries)).
Proof. unfold try_textsearch. run_block. Qed.

Lemma try_findplace_runs norm w st :
  exists r entries,
    try_findplace norm w st =
      (Ok r, State (calls st ++ [FindPlace norm None]) (log st ++ entries)).
Proof. unfold try_findplace. run_block. Qed.

Lemma try_city_textsearch_runs q w st :
  exists r entries,
    try_city_textsearch q w st =
      (Ok r, State (calls st ++ [TextSearch q None]) (log st ++ entries)).
Proof. unfold try_city_textsearch. run_block. Qed.

Lemma try_city_addressvalidation_runs q lat lng w st :
  exists r entries,
    try_city_addressvalidation q lat lng w st =
      (Ok r, State (calls st ++ [AddressValidate q]) (log st ++ entries)).
Proof. unfold try_city_addressvalidation. run_block. Qed.

Lemma try_area_findplace_runs av lat lng w st :
  exists r entries,
    try_area_findplace av lat lng w st =
      (Ok r, State (calls st ++ [FindPlace av (Some (30000%Z, lat, lng))])
                   (log st ++ entries)).
Proof. unfold try_area_findplace. run_block. Qed.

Lemma try_area_addressvalidation_runs line w st :
  exists r entries,
    try_area_addressvalidation line w st =
      (Ok r, State (calls st ++ [AddressValidate line]) (log st ++ entries)).
Proof. unfold try_area_addressvalidation. run_block. Qed.

Lemma try_area_textsearch_bias_runs q lat lng w st :
  exists r entries,
    try_area_textsearch_bias q lat lng w st =
      (Ok r, State (calls st ++ [TextSearch q (Some (lat, lng, 40000%Z))])
                   (log st ++ entries)).
Proof. unfold try_area_textsearch_bias. run_block. Qed.

Lemma city_stage_runs q w st :
  exists r more entries,
    city_stage q w st = (Ok r, State (calls st ++ more) (log st ++ entries)).
Proof.
  unfold city_stage. unfold bind at 1.
  destruct (try_city_textsearch_runs q w st) as ([lat lng] & e1 & E1). rewrite E1.
  destruct (is_none lat || is_none lng).
  - match goal with |- context [try_city_addressvalidation q lat lng w ?s] =>
      destruct (try_city_addressvalidation_runs q lat lng w s) as (r2 & e2 & E2) end.
    rewrite E2. cbn [calls log]. rewrite <- !app_assoc. eauto.
  - unfold ret. eauto.
Qed.

(** The find-place loop calls the provider for the variants in order, the
    first one in any case, and stops at the first answer. *)
Lemma area_findplace_loop_runs variants lat lng w : forall st,
  exists r more entries,
    area_findplace_loop variants lat lng w st =
      (Ok r, State (calls st ++ more) (log st ++ entries))
    /\ (forall v rest, variants = v :: rest ->
          exists more', more = FindPlace v (Some (30000%Z, lat, lng)) :: more').
Proof.
  induction variants as [|v rest IH]; intros st; cbn [area_findplace_loop].
  - exists None, [], []. rewrite !app_nil_r. unfold ret. destruct st.
    split; [reflexivity | discriminate].
  - unfold bind at 1.
    destruct (try_area_findplace_runs v lat lng w st) as (r1 & e1 & E1). rewrite E1.
    destruct r1 as [c|].
    + exists (Some c), [FindPlace v (Some (30000%Z, lat, lng))], e1.
      split; [reflexivity|]. intros v' rest' [= <- <-]. eauto.
    + match goal with |- context [area_findplace_loop rest lat lng w ?s] =>
        destruct (IH s) as (r2 & m2 & e2 & E2 & _) end.
      rewrite E2. cbn [calls log]. rewrite <- !app_assoc.
      do 3 eexists. split; [reflexivity|].
      intros v' rest' [= <- <-]. cbn [app]. eauto.
Qed.

Lemma area_stage_runs city area lat lng w st :
  exists r more entries,
    area_stage city area lat lng w st =
      (Ok r, State (calls st ++ more) (log st ++ entries))
    /\ (forall v rest, area_variants area = v :: rest ->
          exists more', more = FindPlace v (Some (30000%Z, lat, lng)) :: more').
Proof.
  unfold area_stage. unfold bind at 1.
  destruct (area_findplace_loop_runs (area_variants area) lat lng w st)
    as (r1 & m1 & e1 & E1 & Hfirst).
  rewrite E1. destruct r1 as [c|]; [unfold ret; eauto 6|].
  unfold bind at 1.
  match goal with |- context [try_area_addressvalidation ?l w ?s] =>
    destruct (try_area_addressvalidation_runs l w s) as (r2 & e2 & E2) end.
  rewrite E2. cbn [calls log]. rewrite <- !app_assoc.
  destruct r2 as [c|].
  { unfold ret. do 3 eexists. split; [reflexivity|].
    intros v rest Hv. destruct (Hfirst v rest Hv) as [m' ->]. cbn [app]. eauto. }
  unfold bind at 1.
  match goal with |- context [try_area_textsearch_bias ?q lat lng w ?s] =>
    destruct (try_area_textsearch_bias_runs q lat lng w s) as (r3 & e3 & E3) end.
  rewrite E3. cbn [calls log]. rewrite <- !app_assoc.
  exists (match r3 with Some c => c | None => (lat, lng) end).
  do 2 eexists. split; [destruct r3; reflexivity|].
  intros v rest Hv. destruct (Hfirst v rest Hv) as [m' ->]. cbn [app]. eauto.
Qed.

End Run.

(** ** Normalised text (C8, C9, C10) *)

Module NormalizeFacts.
Import StrFacts Run.

(** What [" ".join(text.split())] looks like. *)
Lemma join_split_clean s :
  contains "  " (join " " (split s)) = false
  /\ starts_nonblank (join " " (split s)) = true
  /\ ends_nonblank (join " " (split s)) = true.
Proof.
  pose proof (split_tokens s) as H.
  auto using no_double_space_join, join_starts, join_ends.
Qed.

Lemma india_bias_clean s :
  contains "  " s = false -> starts_nonblank s = true -> ends_nonblank s = true ->
  contains "  " (india_bias s) = false /\ strip (india_bias s) = india_bias s.
Proof.
  intros Hd Hs He. unfold india_bias.
  destruct (negb (s =? "")%string && negb (contains "india" (lower s))) eqn:E.
  - split.
    + now apply no_double_space_append.
    + apply strip_fixed.
      * destruct s; [discriminate E | exact Hs].
      * now rewrite ends_nonblank_append.
  - split; [exact Hd | now apply strip_fixed].
Qed.

Lemma case_tokens toks :
  Forall (fun t => token t = true) toks ->
  Forall (fun t => token t = true) (map case_token toks).
Proof.
  induction 1; simpl; constructor; [now rewrite token_case_token | assumption].
Qed.

(** The place-text normaliser leaves single spaces and no blank end. *)
Lemma normalize_place_text_clean text :
  contains "  " (_normalize_place_text text) = false
  /\ strip (_normalize_place_text text) = _normalize_place_text text.
Proof.
  unfold _normalize_place_text.
  destruct (join " " (split (strip text)) =? "")%string eqn:E.
  - apply String.eqb_eq in E. rewrite E. now split.
  - match goal with |- context [map case_token ?l] =>
      pose proof (case_tokens _ (split_tokens
        (lj_university_sub (lj_prefix_sub (fold_left jam_pass jam_words
           (join " " (split (strip text)))))))) as H
    end.
    split; [now apply no_double_space_join|].
    apply strip_fixed; [now apply join_starts | now apply join_ends].
Qed.

(** C9. For every address, the text the address resolver geocodes -- the
    blank-collapsed address with the country suffix appended when it applies,
    reported as [debug["normalized"]] and sent in every provider call --
    contains no two consecutive spaces and has no leading or trailing
    whitespace; the resolver always returns it, whatever the providers do.
    The same shape holds for the output of [_normalize_place_text]. *)
Theorem normalized_address_is_clean (address : string) (w : world) (st : state) :
  let norm := india_bias (join " " (split (strip address))) in
  (contains "  " norm = false /\ strip norm = norm)
  /\ (exists lat lng attempts more,
        _address_to_latlng_with_debug address w st =
          (Ok (lat, lng,
               JDict [("normalized", JStr norm); ("attempts", JList attempts)]),
           State (calls st ++ more) attempts)
        /\ Forall (fun q => q = AddressValidate norm \/ q = TextSearch norm None
                            \/ q = FindPlace norm None) more)
  /\ (forall text,
        contains "  " (_normalize_place_text text) = false
        /\ strip (_normalize_place_text text) = _normalize_place_text text).
Proof.
  intros norm. split; [|split].
  - destruct (join_split_clean (strip address)) as (Hd & Hs & He).
    now apply india_bias_clean.
  - unfold _address_to_latlng_with_debug. fold norm.
    destruct (norm =? "")%string eqn:E.
    + exists JNull, JNull, [], []. rewrite app_nil_r. split; [reflexivity | constructor].
    + unfold bind at 1. cbn [clear_log calls log].
      set (st0 := State (calls st) []).
      unfold bind at 1.
      destruct (try_addressvalidation_runs norm w st0) as (r1 & e1 & E1).
      rewrite E1. cbn [log calls st0 app].
      destruct r1 as [[lat lng]|].
      { exists lat, lng, e1, [AddressValidate norm]. split; [reflexivity|].
        repeat apply Forall_cons; try apply Forall_nil; tauto. }
      unfold bind at 1.
      match goal with |- context [try_textsearch norm w ?s] =>
        destruct (try_textsearch_runs norm w s) as (r2 & e2 & E2) end.
      rewrite E2. cbn [log calls].
      destruct r2 as [[lat lng]|].
      { exists lat, lng, (e1 ++ e2), [AddressValidate norm; TextSearch norm None].
        rewrite <- app_assoc. split; [reflexivity|].
        repeat apply Forall_cons; try apply Forall_nil; tauto. }
      unfold bind at 1.
      match goal with |- context [try_findplace norm w ?s] =>
        destruct (try_findplace_runs norm w s) as (r3 & e3 & E3) end.
      rewrite E3. cbn [log calls].
      exists (match r3 with Some (lat, _) => lat | None => JNull end),
             (match r3 with Some (_, lng) => lng | None => JNull end),
             ((e1 ++ e2) ++ e3),
             [AddressValidate norm; TextSearch norm None; FindPlace norm None].
      rewrite <- !app_assoc. split; [destruct r3 as [[? ?]|]; reflexivity|].
      repeat apply Forall_cons; try apply Forall_nil; tauto.
  - apply normalize_place_text_clean.
Qed.

(** *** Fixed points of the normaliser's steps *)





Lemma lj_prefix_sub_other s : starts_lj s = false -> lj_prefix_sub s = s.
Proof.
  unfold starts_lj, lj_prefix_sub. destruct s as [|a [|b r]]; try reflexivity.
  now intros ->.
Qed.

Lemma lj_prefix_sub_lj s :
  starts_lj s = true -> lj_prefix_sub s = ("LJ " ++ lstrip (drop 2 s))%string.
Proof.
  unfold starts_lj, lj_prefix_sub. destruct s as [|a [|b r]]; try discriminate.
  now intros ->.
Qed.






Lemma split_acc_first r : forall acc,
  acc <> "" -> exists x more, split_acc acc r = (acc ++ x)%string :: more.
Proof.
  induction r as [|c r IH]; intros acc Hacc; cbn [split_acc].
  - exists "", []. rewrite append_nil_r. destruct acc; congruence.
  - destruct (is_space c).
    + exists "", (split_acc "" r). rewrite append_nil_r. destruct acc; congruence.
    + destruct (IH (acc ++ String c "")%string) as (x & more & E).
      { intros E. apply append_empty_inv in E. destruct E; discriminate. }
      exists (String c x), more. now rewrite E, append_snoc.
Qed.








(** *** Counting tokens: a jam that is split adds one *)





Section JamCount.

Variables (a : ascii) (word' : string).
Hypothesis first_is_letter : is_alpha a = true.
Let word := String a word'.



End JamCount.









End NormalizeFacts.

Module JammedArea.
Import StrFacts Run Sample.

(** C8. The jammed area "ljuniversity" normalises to "LJ University", and
    for the city "Ahmedabad" the first area-refinement call made once the
    city is resolved is the find-place query for "LJ University", biased to
    the city centre. *)
Theorem ljuniversity_is_split_before_dispatch :
  _normalize_place_text "ljuniversity" = "LJ University"
  /\ forall (w : world) (st st1 : state) (lat lng : json),
       city_stage "Ahmedabad, India" w (State (calls st) []) = (Ok (lat, lng), st1) ->
       is_none lat = false -> is_none lng = false ->
       exists r st' more,
         _geocode_city_area (Some "Ahmedabad") (Some "ljuniversity") w st = (Ok r, st')
         /\ calls st' =
              calls st1 ++ FindPlace "LJ University" (Some (30000%Z, lat, lng)) :: more.
Proof.
  split; [vm_compute; reflexivity|].
  intros w st st1 lat lng Hcity Hlat Hlng.
  unfold _geocode_city_area, or_empty.
  replace (_normalize_place_text "Ahmedabad") with "Ahmedabad" by (vm_compute; reflexivity).
  replace (_normalize_place_text "ljuniversity") with "LJ University"
    by (vm_compute; reflexivity).
  replace (india_bias (if ("Ahmedabad" =? "")%string then "LJ University" else "Ahmedabad"))
    with "Ahmedabad, India" by (vm_compute; reflexivity).
  cbn [String.eqb Ascii.eqb Bool.eqb andb].
  unfold bind at 1. cbn [clear_log]. unfold bind at 1. rewrite Hcity.
  rewrite Hlat, Hlng. cbn [orb].
  unfold bind at 1.
  destruct (area_stage_runs "Ahmedabad" "LJ University" lat lng w st1)
    as (r & more & entries & E & Hfirst).
  rewrite E.
  destruct (Hfirst "LJ University" [] eq_refl) as [more' ->].
  unfold dbg_dict. unfold_monad. cbn [calls log].
  do 3 eexists. split; reflexivity.
Qed.

(** The hypotheses of C8 hold when only the city text search answers. *)
Lemma ljuniversity_is_split_before_dispatch_witness :
  exists r st' more,
    _geocode_city_area (Some "Ahmedabad") (Some "ljuniversity") only_textsearch initial
      = (Ok r, st')
    /\ calls st' =
         [TextSearch "Ahmedabad, India" None]
         ++ FindPlace "LJ University" (Some (30000%Z, JInt 23, JInt 72)) :: more.
Proof.
  apply (proj2 ljuniversity_is_split_before_dispatch only_textsearch initial
           (State [TextSearch "Ahmedabad, India" None]
                  [JDict [("type", JStr "city_textsearch"); ("status", JInt 200);
                          ("api_status", JStr "OK"); ("error_message", JNull)]])
           (JInt 23) (JInt 72)); reflexivity.
Defined.

End JammedArea.

(** ** The address resolver (C5) *)

Module AddressFacts.
Import StrFacts Run Sample Attempts.

Lemma try_addressvalidation_failure norm w st raised entry :
  av_failure (w (calls st) (AddressValidate norm)) raised entry ->
  try_addressvalidation norm w st
  = (Ok None, State (calls st ++ [AddressValidate norm]) (log st ++ [entry]))
  /\ has_error entry = raised.
Proof.
  unfold try_addressvalidation. unfold_monad. cbn [calls log].
  inversion 1 as [e He | s e He | s j e Hc He | s j bs lat lng Hc Hlat Hlng Hnone He];
    cbn [json_body status_code].
  - now split.
  - now split.
  - rewrite Hc. now split.
  - rewrite Hc, Hlat, Hlng.
    replace (negb (is_none lat) && negb (is_none lng)) with false
      by (destruct (is_none lat), (is_none lng); try reflexivity; discriminate).
    now split.
Qed.

Lemma try_textsearch_success norm w st entry lat lng :
  ts_success (w (calls st) (TextSearch norm None)) entry lat lng ->
  try_textsearch norm w st
  = (Ok (Some (lat, lng)),
     State (calls st ++ [TextSearch norm None]) (log st ++ [entry])).
Proof.
  unfold try_textsearch. unfold_monad. cbn [calls log].
  inversion 1 as [s j e found loc la ln He Hfound Htruthy Hloc Hlat Hlng Hr].
  cbn [json_body]. rewrite He, Hfound.
  replace (py_or found (JList [])) with found by (unfold py_or; now rewrite Htruthy).
  rewrite Htruthy, Hloc, Hlat, Hlng. reflexivity.
Qed.

(** C5, as amended.  When address validation fails -- by raising, or by
    answering a document that reads through without a coordinate -- and the
    text search then finds a place, the resolver returns the text-search
    coordinate, nothing is raised, and the trail has exactly two entries: the
    address-validation one, which carries an error exactly when that attempt
    raised, and the text-search one. *)
Theorem resolve_falls_back_to_text_search
    (w : world) (st : state) (address : string)
    (raised : bool) (entry1 entry2 lat lng : json) :
  let norm := india_bias (join " " (split (strip address))) in
  norm <> "" ->
  av_failure (w (calls st) (AddressValidate norm)) raised entry1 ->
  ts_success (w (calls st ++ [AddressValidate norm]) (TextSearch norm None))
             entry2 lat lng ->
  _address_to_latlng_with_debug address w st
  = (Ok (lat, lng,
         JDict [("normalized", JStr norm); ("attempts", JList [entry1; entry2])]),
     State (calls st ++ [AddressValidate norm; TextSearch norm None])
           [entry1; entry2])
  /\ has_error entry1 = raised.
Proof.
  intros norm Hnorm Hav Hts.
  unfold _address_to_latlng_with_debug. fold norm.
  apply String.eqb_neq in Hnorm. rewrite Hnorm.
  unfold bind at 1. cbn [clear_log].
  unfold bind at 1.
  destruct (try_addressvalidation_failure norm w (State (calls st) []) raised entry1 Hav)
    as [E1 Herr].
  cbn [calls log app] in E1. rewrite E1. unfold bind at 1.
  rewrite (try_textsearch_success norm w
             (State (calls st ++ [AddressValidate norm]) [entry1]) entry2 lat lng Hts).
  cbn [calls log app]. rewrite <- app_assoc. split; [reflexivity | exact Herr].
Qed.

(** The hypotheses of the amended C5 hold when address validation is down. *)
Lemma resolve_falls_back_to_text_search_witness :
  _address_to_latlng_with_debug "lj university" validation_down initial
  = (Ok (JInt 23, JInt 72,
         JDict [("normalized", JStr "lj university, India");
                ("attempts",
                 JList [error_entry "addressvalidation"
                          (RequestException "connection refused");
                        JDict [("type", JStr "textsearch"); ("status", JInt 200);
                               ("api_status", JStr "OK"); ("error_message", JNull)]])]),
     State [AddressValidate "lj university, India";
            TextSearch "lj university, India" None]
           [error_entry "addressvalidation" (RequestException "connection refused");
            JDict [("type", JStr "textsearch"); ("status", JInt 200);
                   ("api_status", JStr "OK"); ("error_message", JNull)]])
  /\ has_error (error_entry "addressvalidation" (RequestException "connection refused"))
     = true.
Proof.
  apply (resolve_falls_back_to_text_search validation_down initial "lj university").
  - discriminate.
  - apply av_unreachable.
  - eapply ts_found; reflexivity.
Defined.

(** C5 as stated fails, in both of its parts about the trail.  A validation
    answer without a geocode is recorded with its HTTP status and nothing
    marks the entry as failed; and a validation answer whose ["geocode"] is
    null is logged twice, once with its status and once with the error of
    reading it, so the trail has three entries although only two providers
    ran.  In both runs the text-search coordinate is returned. *)
Lemma failed_validation_logged_twice :
  (exists st,
     _address_to_latlng_with_debug "lj university" validation_without_geocode initial
     = (Ok (JInt 23, JInt 72,
            JDict [("normalized", JStr "lj university, India");
                   ("attempts",
                    JList [JDict [("type", JStr "addressvalidation");
                                  ("status", JInt 200); ("body_status", JNull)];
                           JDict [("type", JStr "textsearch"); ("status", JInt 200);
                                  ("api_status", JStr "OK");
                                  ("error_message", JNull)]])]), st)
     /\ has_error (JDict [("type", JStr "addressvalidation");
                          ("status", JInt 200); ("body_status", JNull)]) = false)
  /\ (exists lat lng attempts st,
        _address_to_latlng_with_debug "lj university" validation_null_geocode initial
        = (Ok (lat, lng,
               JDict [("normalized", JStr "lj university, India");
                      ("attempts", JList attempts)]), st)
        /\ calls st = [AddressValidate "lj university, India";
                       TextSearch "lj university, India" None]
        /\ (lat, lng) = (JInt 23, JInt 72)
        /\ List.length attempts = 3
        /\ List.length attempts <> 2).
Proof.
  split.
  - eexists. split; [vm_compute; reflexivity | reflexivity].
  - do 4 eexists. split; [vm_compute; reflexivity|].
    repeat split. discriminate.
Qed.

End AddressFacts.

(** ** The city-area resolver (C6) *)

Module CityAreaFacts.
Import StrFacts Run Sample Answers.






Section AreaFails.

Variables (w : world) (city_lat city_lng : json).



End AreaFails.




End CityAreaFacts.

(** ** The endpoint (C1, C2, C7) *)

Module EndpointFacts.
Import Run Sample.

Section WithFloat.

Variable float_of_str : string -> option Q.

(** C1, as amended.  The input kinds are prioritised address, then explicit
    coordinates, then (city, area): a non-empty address is geocoded and the
    explicit coordinates that came with it have no effect on the response;
    without an address, explicit coordinates are taken as they are and no
    provider is asked; the city-area resolver runs only when there is no
    address and the explicit coordinates are incomplete. *)
Theorem input_priority (address lat lng city area : option string) :
  (nonempty address = true ->
   resolve_input (Query address lat lng city area)
   = (r <- _address_to_latlng_with_debug (or_empty address) ;;
      let '(lat', lng', geo_dbg) := r in ret (lat', lng', Some geo_dbg))
   /\ find_dumpyards float_of_str (Query address lat lng city area)
      = find_dumpyards float_of_str (Query address None None city area))
  /\ (nonempty address = false -> nonempty lat = true -> nonempty lng = true ->
      resolve_input (Query address lat lng city area)
      = ret (JStr (or_empty lat), JStr (or_empty lng), None)
      /\ forall w st,
           resolve_origin float_of_str (Query address lat lng city area) w st
           = (Ok match float_of_str (strip (or_empty lat)),
                       float_of_str (strip (or_empty lng)) with
                 | Some lat_f, Some lng_f => inr (lat_f, lng_f)
                 | _, _ =>
                     inl (JsonResponse (JDict [("error", JStr "Invalid coordinates.")])
                                       400)
                 end, st))
  /\ (nonempty address = false -> nonempty lat && nonempty lng = false ->
      nonempty city || nonempty area = true ->
      resolve_input (Query address lat lng city area)
      = (r <- _geocode_city_area city area ;;
         let '(lat', lng', geo_dbg) := r in ret (lat', lng', Some geo_dbg))).
Proof.
  unfold find_dumpyards, resolve_origin, resolve_error, resolve_input.
  cbn [q_address q_lat q_lng q_city q_area].
  split; [|split].
  - intros ->. split; reflexivity.
  - intros -> Hlat Hlng. rewrite Hlat, Hlng. cbn [andb negb].
    rewrite andb_false_r.
    destruct lat as [lat|]; [|discriminate]. destruct lng as [lng|]; [|discriminate].
    split; [reflexivity|]. intros w st. unfold_monad.
    cbn [opt_str or_empty truthy]. unfold nonempty in Hlat, Hlng.
    rewrite Hlat, Hlng. cbn [andb negb]. unfold to_float.
    destruct (float_of_str (strip lat)), (float_of_str (strip lng)); reflexivity.
  - intros -> Hcoords Hcity. now rewrite Hcoords, Hcity.
Qed.

End WithFloat.

(** The three cases of the amended C1 at concrete requests. *)
Lemma input_priority_witness :
  (resolve_input (Query (Some "lj university") (Some "1") (Some "2") None None)
   = (r <- _address_to_latlng_with_debug "lj university" ;;
      let '(lat', lng', geo_dbg) := r in ret (lat', lng', Some geo_dbg))
   /\ find_dumpyards whole_number
        (Query (Some "lj university") (Some "1") (Some "2") None None)
      = find_dumpyards whole_number (Query (Some "lj university") None None None None))
  /\ (resolve_input (Query None (Some "1") (Some "2") (Some "Ahmedabad") None)
      = ret (JStr "1", JStr "2", None)
      /\ forall w st,
           resolve_origin whole_number
             (Query None (Some "1") (Some "2") (Some "Ahmedabad") None) w st
           = (Ok (inr (inject_Z 1, inject_Z 2)), st))
  /\ resolve_input (Query None (Some "1") None (Some "Ahmedabad") None)
     = (r <- _geocode_city_area (Some "Ahmedabad") None ;;
        let '(lat', lng', geo_dbg) := r in ret (lat', lng', Some geo_dbg)).
Proof.
  split; [|split].
  - apply (proj1 (input_priority whole_number
                    (Some "lj university") (Some "1") (Some "2") None None)).
    reflexivity.
  - apply (proj1 (proj2 (input_priority whole_number
                           None (Some "1") (Some "2") (Some "Ahmedabad") None)));
      reflexivity.
  - apply (proj2 (proj2 (input_priority whole_number
                           None (Some "1") None (Some "Ahmedabad") None)));
      reflexivity.
Defined.

(** C1 as stated fails: with an address and explicit coordinates (1, 2),
    both well-formed, the origin is the geocoded address (23, 72). *)
Lemma address_overrides_explicit_coordinates :
  let request := Query (Some "lj university") (Some "1") (Some "2") None None in
  to_float whole_number (opt_str (q_lat request)) = Some (inject_Z 1)
  /\ to_float whole_number (opt_str (q_lng request)) = Some (inject_Z 2)
  /\ fst (find_dumpyards whole_number request no_dump_yards initial)
     = Ok (JsonResponse
             (JDict [("origin", origin_dict (inject_Z 23) (inject_Z 72));
                     ("places", JList [])]) 200)
  /\ origin_dict (inject_Z 23) (inject_Z 72) <> origin_dict (inject_Z 1) (inject_Z 2).
Proof.
  repeat split; try (vm_compute; reflexivity). discriminate.
Qed.

Section Responses.

Variable float_of_str : string -> option Q.

(** A response that ends the request before the search is an error. *)
Lemma resolve_origin_error_status request w st body status st' :
  resolve_origin float_of_str request w st = (Ok (inl (JsonResponse body status)), st') ->
  status = 400%Z.
Proof.
  unfold resolve_origin, resolve_error. unfold_monad.
  destruct (resolve_input request w st) as [[[[lat lng] dbg]|e] st1]; [|discriminate].
  destruct (negb (truthy lat && truthy lng)).
  - destruct (_geolocate w st1) as [[[g_lat g_lng]|e] st2]; [|discriminate].
    destruct (truthy g_lat && truthy g_lng).
    + destruct (to_float float_of_str g_lat), (to_float float_of_str g_lng);
        intros [= <- <-]; reflexivity.
    + intros [= <- <-]; reflexivity.
  - destruct (to_float float_of_str lat), (to_float float_of_str lng);
      intros [= <- <-]; reflexivity.
Qed.

(** C2, as amended.  A success response comes from a resolved origin and
    from the answer of the nearby search to it, and its body holds the origin
    and the list of places.  When the nearby search returned no candidate,
    no distance is asked for, the list is empty and the body has no
    ["nearest"] field.  Otherwise the list is what the ranker returns for
    the candidates, and the body also has ["nearest"]: element 0 of the list,
    or null when the list is empty. *)
Theorem success_response_shape (request : query) (w : world) (st st' : state)
    (body : json) :
  find_dumpyards float_of_str request w st = (Ok (JsonResponse body 200), st') ->
  exists lat_f lng_f st1 candidates st2,
    resolve_origin float_of_str request w st = (Ok (inr (lat_f, lng_f)), st1)
    /\ _places_nearby lat_f lng_f 15000 w st1 = (Ok candidates, st2)
    /\ (truthy candidates = false ->
        st' = st2
        /\ body = JDict [("origin", origin_dict lat_f lng_f); ("places", JList [])])
    /\ (truthy candidates = true ->
        exists ranked,
          _distance_matrix lat_f lng_f candidates w st2 = (Ok ranked, st')
          /\ body = JDict [("origin", origin_dict lat_f lng_f);
                           ("places", JList ranked);
                           ("nearest", match ranked with x :: _ => x | [] => JNull end)]).
Proof.
  unfold find_dumpyards. unfold bind at 1.
  destruct (resolve_origin float_of_str request w st) as [[[resp|[lat_f lng_f]]|e] st1] eqn:E;
    [| |discriminate].
  - destruct resp as [b s]. apply resolve_origin_error_status in E. subst s.
    unfold ret. discriminate.
  - unfold search_and_rank. unfold bind at 1.
    destruct (_places_nearby lat_f lng_f 15000 w st1) as [[candidates|e] st2] eqn:En;
      [|discriminate].
    intros H. exists lat_f, lng_f, st1, candidates, st2.
    split; [reflexivity|]. split; [exact En|].
    revert H. destruct (truthy candidates); cbn [negb].
    + unfold bind at 1.
      destruct (_distance_matrix lat_f lng_f candidates w st2) as [[ranked|e] st3];
        [|discriminate].
      unfold ret. intros [= <- <-]. split; [discriminate|].
      intros _. now exists ranked.
    + unfold ret. intros [= <- <-]. split; [now split | discriminate].
Qed.

(** C7. When the origin is resolved and the nearby-search provider answers
    with no results, the endpoint answers 200 with the origin and an empty
    list of places. *)
Theorem no_candidates_is_success (request : query) (w : world) (st st1 : state)
    (lat_f lng_f : Q) (status : Z) (j found : json) :
  resolve_origin float_of_str request w st = (Ok (inr (lat_f, lng_f)), st1) ->
  w (calls st1) (NearbySearch lat_f lng_f 15000) = Ok (Response status (Ok j)) ->
  get_default j "results" (JList []) = Ok found ->
  truthy found = false ->
  find_dumpyards float_of_str request w st
  = (Ok (JsonResponse
           (JDict [("origin", origin_dict lat_f lng_f); ("places", JList [])]) 200),
     State (calls st1 ++ [NearbySearch lat_f lng_f 15000]) (log st1)).
Proof.
  intros Horigin Hnearby Hresults Hnone.
  unfold find_dumpyards. unfold bind at 1. rewrite Horigin.
  unfold search_and_rank, _places_nearby. unfold_monad.
  rewrite Hnearby. cbn [json_body]. rewrite Hresults, Hnone. reflexivity.
Qed.

End Responses.

(** The hypothesis of the amended C2 holds for a request whose search ranks
    two candidates: the body has the three fields, and ["nearest"] is the
    first of the places. *)
Lemma success_response_shape_witness :
  let b := ranked_entry "b" 2 2 300 2000 in
  let a := ranked_entry "a" 1 1 600 5000 in
  let body := JDict [("origin", origin_dict (inject_Z 7) (inject_Z 9));
                     ("places", JList [b; a]); ("nearest", b)] in
  let request := Query None (Some "7") (Some "9") None None in
  let st' := State [NearbySearch (inject_Z 7) (inject_Z 9) 15000;
                    DistanceMatrix (inject_Z 7, inject_Z 9)
                      [(JInt 1, JInt 1); (JInt 2, JInt 2)]] [] in
  find_dumpyards whole_number request two_dump_yards initial
  = (Ok (JsonResponse body 200), st')
  /\ exists lat_f lng_f st1 candidates st2,
       resolve_origin whole_number request two_dump_yards initial
       = (Ok (inr (lat_f, lng_f)), st1)
       /\ _places_nearby lat_f lng_f 15000 two_dump_yards st1 = (Ok candidates, st2)
       /\ (truthy candidates = false ->
           st' = st2
           /\ body = JDict [("origin", origin_dict lat_f lng_f); ("places", JList [])])
       /\ (truthy candidates = true ->
           exists ranked,
             _distance_matrix lat_f lng_f candidates two_dump_yards st2 = (Ok ranked, st')
             /\ body = JDict [("origin", origin_dict lat_f lng_f);
                              ("places", JList ranked);
                              ("nearest",
                               match ranked with x :: _ => x | [] => JNull end)]).
Proof.
  intros b a body request st'.
  assert (find_dumpyards whole_number request two_dump_yards initial
          = (Ok (JsonResponse body 200), st')) as Hrun
    by (vm_compute; reflexivity).
  split; [exact Hrun|].
  exact (success_response_shape whole_number request two_dump_yards initial st' body Hrun).
Defined.

(** C2 as stated fails: the success response of a search without candidates
    has no ["nearest"] field. *)
Lemma success_without_nearest_field :
  exists kv,
    fst (find_dumpyards whole_number (Query None (Some "1") (Some "2") None None)
           no_dump_yards initial)
    = Ok (JsonResponse (JDict kv) 200)
    /\ lookup "origin" kv <> None
    /\ lookup "places" kv = Some (JList [])
    /\ lookup "nearest" kv = None.
Proof.
  eexists. split; [vm_compute; reflexivity|].
  repeat split. discriminate.
Qed.

(** The hypotheses of C7 hold for explicit coordinates when the nearby
    search finds nothing. *)
Lemma no_candidates_is_success_witness :
  find_dumpyards whole_number (Query None (Some "1") (Some "2") None None)
    no_dump_yards initial
  = (Ok (JsonResponse
           (JDict [("origin", origin_dict (inject_Z 1) (inject_Z 2));
                   ("places", JList [])]) 200),
     State [NearbySearch (inject_Z 1) (inject_Z 2) 15000] []).
Proof.
  apply (no_candidates_is_success whole_number
           (Query None (Some "1") (Some "2") None None) no_dump_yards initial initial
           (inject_Z 1) (inject_Z 2) 200 (JDict [("results", JList [])]) (JList []));
    reflexivity.
Defined.

End EndpointFacts.

(** ** The ranking (C3, C4) *)

Module RankingFacts.
Import Run Sample.

(** *** The order of the keys *)

Lemma key_le_spec a b :
  key_le a b = true
  <-> (fst a < fst b \/ (fst a == fst b /\ snd a <= snd b))%Q.
Proof.
  unfold key_le. rewrite orb_true_iff, andb_true_iff, negb_true_iff.
  rewrite Qeq_bool_iff, Qle_bool_iff.
  split; intros [H|H]; auto.
  - left. apply Qnot_le_lt. intros Hle. apply Qle_bool_iff in Hle. congruence.
  - left. destruct (Qle_bool (fst b) (fst a)) eqn:E; [|reflexivity].
    apply Qle_bool_iff in E. lra.
Qed.

Lemma key_le_total a b : key_le a b = false -> key_le b a = true.
Proof.
  intros H. apply key_le_spec.
  destruct (Qlt_le_dec (fst b) (fst a)) as [Hlt|Hle]; [now left|].
  destruct (Qlt_le_dec (fst a) (fst b)) as [Hlt'|Hle'].
  - assert (key_le a b = true) by (apply key_le_spec; now left). congruence.
  - destruct (Qlt_le_dec (snd b) (snd a)) as [Hs|Hs].
    + right. split; lra.
    + assert (key_le a b = true) by (apply key_le_spec; right; split; lra).
      congruence.
Qed.

Lemma ranks_before_leb x y : entry_leb x y = true <-> ranks_before x y.
Proof.
  unfold entry_leb, ranks_before. split.
  - destruct (numeric_key x) as [[dx mx]|], (numeric_key y) as [[dy my]|];
      try discriminate.
    intros H. apply key_le_spec in H. now exists dx, mx, dy, my.
  - intros (dx & mx & dy & my & -> & -> & H). now apply key_le_spec.
Qed.

Lemma ranks_before_trans x y z :
  ranks_before x y -> ranks_before y z -> ranks_before x z.
Proof.
  intros (dx & mx & dy & my & Hx & Hy & H1) (dy' & my' & dz & mz & Hy' & Hz & H2).
  rewrite Hy in Hy'. injection Hy' as <- <-.
  exists dx, mx, dz, mz. repeat split; try assumption.
  destruct H1 as [H1|[H1 H1']], H2 as [H2|[H2 H2']]; try (left; lra).
  right. split; lra.
Qed.

Lemma ranks_before_total x y :
  has_numeric_key x = true -> has_numeric_key y = true ->
  entry_leb x y = false -> ranks_before y x.
Proof.
  unfold has_numeric_key. intros Hx Hy H. apply ranks_before_leb.
  unfold entry_leb in *.
  destruct (numeric_key x), (numeric_key y); try discriminate.
  now apply key_le_total.
Qed.

(** *** The stable insertion sort *)

Lemma insert_entry_perm x l : Permutation (x :: l) (insert_entry x l).
Proof.
  induction l as [|y l IH]; cbn [insert_entry]; [apply Permutation_refl|].
  destruct (entry_leb x y); [apply Permutation_refl|].
  eapply perm_trans; [apply perm_swap|]. now apply perm_skip.
Qed.

Lemma sort_entries_perm l : Permutation l (sort_entries l).
Proof.
  induction l as [|x l IH]; cbn [sort_entries]; [constructor|].
  eapply perm_trans; [apply perm_skip, IH | apply insert_entry_perm].
Qed.

Lemma insert_entry_sorted x l :
  has_numeric_key x = true ->
  Forall (fun y => has_numeric_key y = true) l ->
  StronglySorted ranks_before l ->
  StronglySorted ranks_before (insert_entry x l).
Proof.
  intros Hx Hl Hs. induction Hs as [|y l Hs IH Hy]; cbn [insert_entry].
  - repeat constructor.
  - inversion Hl as [|? ? Hky Hl']; subst.
    destruct (entry_leb x y) eqn:E.
    + apply ranks_before_leb in E. constructor; [now constructor|].
      constructor; [exact E|].
      eapply Forall_impl; [|exact Hy]. intros z Hz. now apply ranks_before_trans with y.
    + constructor; [now apply IH|].
      eapply Permutation_Forall; [apply insert_entry_perm|].
      constructor; [now apply ranks_before_total | exact Hy].
Qed.

Lemma sort_entries_sorted l :
  Forall (fun y => has_numeric_key y = true) l ->
  StronglySorted ranks_before (sort_entries l).
Proof.
  induction 1 as [|x l Hx Hl IH]; cbn [sort_entries]; [constructor|].
  apply insert_entry_sorted; [exact Hx | | exact IH].
  eapply Permutation_Forall; [apply sort_entries_perm | exact Hl].
Qed.

Lemma same_key_leb k x y :
  same_key k x = true -> same_key k y = true -> entry_leb x y = true.
Proof.
  unfold same_key, entry_leb.
  destruct (numeric_key x) as [[dx mx]|], (numeric_key y) as [[dy my]|];
    try discriminate.
  cbn [fst snd]. rewrite !andb_true_iff, !Qeq_bool_iff.
  intros [H1 H2] [H3 H4]. apply key_le_spec. cbn [fst snd]. right. split; lra.
Qed.

(** Inserting an item leaves the items of every key class in their order,
    with the new item in front of its own class. *)
Lemma insert_entry_stable k x l :
  filter (same_key k) (insert_entry x l)
  = if same_key k x then x :: filter (same_key k) l else filter (same_key k) l.
Proof.
  induction l as [|y l IH]; cbn [insert_entry filter]; [reflexivity|].
  destruct (entry_leb x y) eqn:E; cbn [filter]; [reflexivity|].
  rewrite IH. destruct (same_key k x) eqn:Hx, (same_key k y) eqn:Hy; try reflexivity.
  rewrite (same_key_leb k x y Hx Hy) in E. discriminate.
Qed.

Lemma sort_entries_stable k l :
  filter (same_key k) (sort_entries l) = filter (same_key k) l.
Proof.
  induction l as [|x l IH]; cbn [sort_entries filter]; [reflexivity|].
  rewrite insert_entry_stable, IH. reflexivity.
Qed.

(** What [paired.sort] returns, when it returns. *)
Lemma sort_paired_spec paired ranked :
  sort_paired paired = Ok ranked ->
  Permutation paired ranked
  /\ StronglySorted ranks_before ranked
  /\ forall k, filter (same_key k) ranked = filter (same_key k) paired.
Proof.
  unfold sort_paired. destruct paired as [|x [|y rest]].
  - intros [= <-]. repeat split; constructor.
  - intros [= <-]. repeat split; [apply Permutation_refl | repeat constructor].
  - destruct (forallb has_numeric_key (x :: y :: rest)) eqn:E; [|discriminate].
    intros [= <-]. rewrite forallb_forall in E. apply Forall_forall in E.
    split; [apply (sort_entries_perm (x :: y :: rest))|].
    split; [now apply (sort_entries_sorted (x :: y :: rest))|].
    intros k. apply (sort_entries_stable k (x :: y :: rest)).
Qed.

(** *** [_distance_matrix] step by step *)

Lemma pair_up_spec places elements : forall idx paired,
  pair_up places idx elements = Ok paired ->
  Forall2 (fun ie entry =>
             exists p, index places (fst ie) = Ok p
                       /\ pair_entry p (snd ie) = Ok entry)
          (filter (fun ie => status_ok (snd ie))
                  (combine (seq idx (List.length elements)) elements))
          paired.
Proof.
  induction elements as [|el rest IH]; intros idx paired; cbn [pair_up].
  - intros [= <-]. constructor.
  - cbn [List.length seq combine filter snd]. unfold status_ok at 1.
    unfold and_then at 1. destruct (get el "status") as [st|e]; [|discriminate].
    destruct (eq_str st "OK").
    + unfold and_then.
      destruct (index places idx) as [p|e] eqn:Hp; [|discriminate].
      destruct (pair_entry p el) as [entry|e] eqn:He; [|discriminate].
      destruct (pair_up places (S idx) rest) as [more|e] eqn:Hmore; [|discriminate].
      intros [= <-]. constructor; [exists p; now split | now apply IH].
    + apply IH.
Qed.

Lemma distance_matrix_steps olat olng places w st ranked st' :
  truthy places = true ->
  _distance_matrix olat olng places w st = (Ok ranked, st') ->
  exists ps destinations r data elements paired,
    iterate places = Ok ps
    /\ map_result destination ps = Ok destinations
    /\ w (calls st) (DistanceMatrix (olat, olng) destinations) = Ok r
    /\ json_body r = Ok data
    /\ response_elements data = Ok elements
    /\ pair_up places 0 elements = Ok paired
    /\ sort_paired paired = Ok ranked.
Proof.
  intros Hplaces. unfold _distance_matrix. rewrite Hplaces. cbn [negb].
  unfold_monad.
  destruct (iterate places) as [ps|e] eqn:Hps; [|discriminate].
  destruct (map_result destination ps) as [destinations|e] eqn:Hdest; [|discriminate].
  cbn [calls log].
  destruct (w (calls st) (DistanceMatrix (olat, olng) destinations)) as [r|e] eqn:Hw;
    [|discriminate].
  destruct (json_body r) as [data|e] eqn:Hdata; [|discriminate].
  destruct (response_elements data) as [elements|e] eqn:Hels; [|discriminate].
  destruct (pair_up places 0 elements) as [paired|e] eqn:Hpair; [|discriminate].
  destruct (sort_paired paired) as [ranked'|e] eqn:Hsort; [|discriminate].
  intros [= <- <-]. exists ps, destinations, r, data, elements, paired.
  repeat split; assumption || reflexivity.
Qed.

Lemma distance_matrix_no_places olat olng places w st :
  truthy places = false ->
  _distance_matrix olat olng places w st = (Ok [], st).
Proof. intros H. unfold _distance_matrix. now rewrite H. Qed.

Lemma distance_matrix_spec olat olng places w st ranked st' :
  truthy places = true ->
  _distance_matrix olat olng places w st = (Ok ranked, st') ->
  exists paired,
    provider_order w st olat olng places paired
    /\ Permutation paired ranked
    /\ StronglySorted ranks_before ranked
    /\ forall k, filter (same_key k) ranked = filter (same_key k) paired.
Proof.
  intros Hplaces Hrun.
  destruct (distance_matrix_steps _ _ _ _ _ _ _ Hplaces Hrun)
    as (ps & destinations & r & data & elements & paired
        & _ & _ & Hw & Hdata & Hels & Hpair & Hsort).
  exists paired. split; [|now apply sort_paired_spec].
  exists destinations, r, data, elements. repeat split; try assumption.
  now apply pair_up_spec.
Qed.

(** *** Well-formed answers are ranked *)

Lemma destinations_of_places ps :
  Forall well_formed_place ps -> exists dests, map_result destination ps = Ok dests.
Proof.
  induction 1 as [|p ps [_ (lat & lng & Hlat & Hlng)] _ [dests IH]]; cbn [map_result].
  - now exists [].
  - unfold destination at 1. rewrite Hlat, Hlng. cbn [and_then]. rewrite IH.
    cbn [and_then]. eauto.
Qed.

Lemma pair_entry_well_formed p el :
  well_formed_place p -> well_formed_element el -> status_ok el = true ->
  exists entry, pair_entry p el = Ok entry /\ has_numeric_key entry = true.
Proof.
  intros [[kv ->] (lat & lng & Hlat & Hlng)] [_ Hel] Hok.
  destruct (Hel Hok) as (dist & dur & dt & ut & dv & uv & H1 & H2 & H3 & H4 & H5 & H6).
  unfold pair_entry. cbn [get get_default and_then].
  rewrite Hlat, Hlng. cbn [and_then]. rewrite H1. cbn [and_then].
  rewrite H2, H3. cbn [and_then]. rewrite H4. cbn [and_then]. rewrite H5, H6.
  cbn [and_then]. eexists. split; reflexivity.
Qed.

Lemma pair_up_well_formed ps elements : forall idx,
  Forall well_formed_place ps ->
  Forall well_formed_element elements ->
  idx + List.length elements <= List.length ps ->
  exists paired,
    pair_up (JList ps) idx elements = Ok paired
    /\ Forall (fun x => has_numeric_key x = true) paired.
Proof.
  intros idx Hps Hels. revert idx.
  induction Hels as [|el rest Hel Hrest IH]; intros idx Hlen; cbn [pair_up].
  - exists []. split; [reflexivity | constructor].
  - cbn [List.length] in Hlen. destruct (IH (S idx)) as (more & Hmore & Hkeys); [lia|].
    pose proof Hel as [[kv Hkv] _].
    assert (exists st, get el "status" = Ok st) as [st Hst]
      by (subst el; cbn [get get_default]; eauto).
    rewrite Hst. cbn [and_then]. destruct (eq_str st "OK") eqn:Hok.
    + destruct (nth_error ps idx) as [p|] eqn:Hp.
      2:{ apply nth_error_None in Hp. lia. }
      cbn [index]. rewrite Hp. cbn [and_then].
      destruct (pair_entry_well_formed p el) as (entry & He & Hk); try assumption.
      { rewrite Forall_forall in Hps. eapply Hps, nth_error_In, Hp. }
      { unfold status_ok. now rewrite Hst. }
      rewrite He. cbn [and_then]. rewrite Hmore. cbn [and_then].
      exists (entry :: more). split; [reflexivity | now constructor].
    + exists more. now split.
Qed.

Lemma sort_paired_numeric paired :
  Forall (fun x => has_numeric_key x = true) paired ->
  exists ranked, sort_paired paired = Ok ranked.
Proof.
  intros H. unfold sort_paired. destruct paired as [|x [|y rest]]; eauto.
  rewrite Forall_forall in H. rewrite <- forallb_forall in H. rewrite H. eauto.
Qed.

(** A well-formed answer to a well-formed candidate list is ranked: the
    ranker returns, with one entry per "OK" element. *)
Lemma distance_matrix_returns olat olng ps w st status data elements :
  ps <> [] ->
  Forall well_formed_place ps ->
  (forall dests,
     w (calls st) (DistanceMatrix (olat, olng) dests) = Ok (Response status (Ok data))) ->
  response_elements data = Ok elements ->
  Forall well_formed_element elements ->
  List.length elements <= List.length ps ->
  exists ranked st',
    _distance_matrix olat olng (JList ps) w st = (Ok ranked, st')
    /\ List.length ranked = List.length (ok_elements elements).
Proof.
  intros Hne Hps Hw Hels Hwf Hlen.
  assert (truthy (JList ps) = true) as Htruthy by (destruct ps; [congruence | reflexivity]).
  destruct (destinations_of_places ps Hps) as [dests Hdests].
  destruct (pair_up_well_formed ps elements 0 Hps Hwf Hlen) as (paired & Hpair & Hkeys).
  destruct (sort_paired_numeric paired Hkeys) as [ranked Hsort].
  assert (_distance_matrix olat olng (JList ps) w st
          = (Ok ranked, State (calls st ++ [DistanceMatrix (olat, olng) dests]) (log st)))
    as Hrun.
  { unfold _distance_matrix. rewrite Htruthy. cbn [negb iterate]. unfold_monad.
    rewrite Hdests. cbn [calls log]. rewrite Hw. cbn [json_body].
    rewrite Hels, Hpair, Hsort. reflexivity. }
  exists ranked, (State (calls st ++ [DistanceMatrix (olat, olng) dests]) (log st)).
  split; [exact Hrun|].
  apply pair_up_spec in Hpair. apply Forall2_length in Hpair.
  apply sort_paired_spec in Hsort as [Hperm _]. apply Permutation_length in Hperm.
  unfold ok_elements. lia.
Qed.

(** C4. Whenever the ranker returns a list for a non-empty candidate list,
    the provider was asked once, and the list is a rearrangement of one entry
    per element whose status is "OK", each built from that element and from
    the candidate at the element's index; elements with another status give
    no entry.  It does return, with as many entries as there are "OK"
    elements, whenever candidates and answer are well formed.  For statuses
    ["OK", "OK", "ZERO_RESULTS"] with durations 600 and 300 the result is
    exactly the two entries, the 300 one first. *)
Theorem ranking_pairs_ok_elements_by_index :
  (forall (olat olng : Q) (places : json) (w : world) (st st' : state)
          (ranked : list json),
      truthy places = true ->
      _distance_matrix olat olng places w st = (Ok ranked, st') ->
      exists paired,
        provider_order w st olat olng places paired /\ Permutation paired ranked)
  /\ (forall (olat olng : Q) (ps : list json) (w : world) (st : state)
             (status : Z) (data : json) (elements : list json),
        ps <> [] ->
        Forall well_formed_place ps ->
        (forall dests,
           w (calls st) (DistanceMatrix (olat, olng) dests)
           = Ok (Response status (Ok data))) ->
        response_elements data = Ok elements ->
        Forall well_formed_element elements ->
        List.length elements <= List.length ps ->
        exists ranked st',
          _distance_matrix olat olng (JList ps) w st = (Ok ranked, st')
          /\ List.length ranked = List.length (ok_elements elements))
  /\ fst (_distance_matrix 0 0
            (JList [place "a" 1 1; place "b" 2 2; place "c" 3 3])
            (distances [element_ok 600 5000; element_ok 300 2000; element_zero_results])
            initial)
     = Ok [ranked_entry "b" 2 2 300 2000; ranked_entry "a" 1 1 600 5000].
Proof.
  split; [|split; [|vm_compute; reflexivity]].
  - intros olat olng places w st st' ranked Hplaces Hrun.
    destruct (distance_matrix_spec _ _ _ _ _ _ _ Hplaces Hrun) as (paired & H1 & H2 & _).
    now exists paired.
  - intros. now apply distance_matrix_returns with status data.
Qed.

(** The hypotheses of C4 hold at its own example. *)
Lemma ranking_pairs_ok_elements_by_index_witness :
  let ps := [place "a" 1 1; place "b" 2 2; place "c" 3 3] in
  let elements := [element_ok 600 5000; element_ok 300 2000; element_zero_results] in
  (exists paired,
     provider_order (distances elements) initial 0 0 (JList ps) paired
     /\ Permutation paired
          [ranked_entry "b" 2 2 300 2000; ranked_entry "a" 1 1 600 5000])
  /\ (exists ranked st',
        _distance_matrix 0 0 (JList ps) (distances elements) initial = (Ok ranked, st')
        /\ List.length ranked = 2).
Proof.
  intros ps elements. split.
  - apply (proj1 ranking_pairs_ok_elements_by_index 0%Q 0%Q (JList ps)
             (distances elements) initial
             (State [DistanceMatrix (0%Q, 0%Q)
                       [(JInt 1, JInt 1); (JInt 2, JInt 2); (JInt 3, JInt 3)]] [])).
    + reflexivity.
    + vm_compute. reflexivity.
  - apply (proj1 (proj2 ranking_pairs_ok_elements_by_index) 0%Q 0%Q ps
             (distances elements) initial 200%Z
             (JDict [("rows", JList [JDict [("elements", JList elements)]])]) elements).
    + discriminate.
    + repeat apply Forall_cons; try apply Forall_nil;
        (split; [eexists; reflexivity | do 2 eexists; split; reflexivity]).
    + reflexivity.
    + reflexivity.
    + repeat apply Forall_cons; try apply Forall_nil;
        (split; [eexists; reflexivity |];
         intros H; try discriminate H; do 6 eexists; repeat split; reflexivity).
    + cbn. lia.
Defined.

(** C3. A list the ranker returns whose sort keys are numbers (finite ones,
    as every number of a document here) is in ascending order of duration,
    and of distance among equal durations; and the order is that of a stable
    sort: entries with the same key stand as the provider listed them.  For
    well-formed candidates and answers the ranker does return, and the list
    is one of numeric keys in that order.  Two candidates of 400 s each,
    1000 m and 900 m away, come back with the 900 m one first. *)
Theorem ranking_is_sorted_by_duration_then_distance :
  (forall (olat olng : Q) (places : json) (w : world) (st st' : state)
          (ranked : list json),
      _distance_matrix olat olng places w st = (Ok ranked, st') ->
      Forall (fun x => has_numeric_key x = true) ranked ->
      StronglySorted ranks_before ranked
      /\ (truthy places = true ->
          exists paired,
            provider_order w st olat olng places paired
            /\ Forall (fun x => has_numeric_key x = true) paired
            /\ forall k, filter (same_key k) ranked = filter (same_key k) paired))
  /\ (forall (olat olng : Q) (ps : list json) (w : world) (st : state)
             (status : Z) (data : json) (elements : list json),
        ps <> [] ->
        Forall well_formed_place ps ->
        (forall dests,
           w (calls st) (DistanceMatrix (olat, olng) dests)
           = Ok (Response status (Ok data))) ->
        response_elements data = Ok elements ->
        Forall well_formed_element elements ->
        List.length elements <= List.length ps ->
        exists ranked st',
          _distance_matrix olat olng (JList ps) w st = (Ok ranked, st')
          /\ Forall (fun x => has_numeric_key x = true) ranked
          /\ StronglySorted ranks_before ranked)
  /\ fst (_distance_matrix 0 0
            (JList [place "a" 1 1; place "b" 2 2])
            (distances [element_ok 400 1000; element_ok 400 900])
            initial)
     = Ok [ranked_entry "b" 2 2 400 900; ranked_entry "a" 1 1 400 1000].
Proof.
  split; [|split; [|vm_compute; reflexivity]].
  - intros olat olng places w st st' ranked Hrun Hkeys.
    destruct (truthy places) eqn:Hplaces.
    + destruct (distance_matrix_steps _ _ _ _ _ _ _ Hplaces Hrun)
        as (ps & destinations & r & data & elements & paired
            & _ & _ & Hw & Hdata & Hels & Hpair & Hsort).
      assert (Permutation paired ranked) as Hperm
        by now apply sort_paired_spec in Hsort.
      assert (Forall (fun x => has_numeric_key x = true) paired) as Hpkeys
        by (eapply Permutation_Forall; [apply Permutation_sym, Hperm | exact Hkeys]).
      assert (ranked = sort_entries paired) as ->.
      { revert Hsort. unfold sort_paired. destruct paired as [|x [|y rest]].
        - now intros [= <-].
        - now intros [= <-].
        - destruct (forallb has_numeric_key (x :: y :: rest)); [|discriminate].
          now intros [= <-]. }
      split; [now apply sort_entries_sorted|]. intros _. exists paired.
      split; [|split; [exact Hpkeys | intros k; apply sort_entries_stable]].
      exists destinations, r, data, elements. repeat split; try assumption.
      now apply pair_up_spec.
    + rewrite (distance_matrix_no_places _ _ _ _ _ Hplaces) in Hrun.
      injection Hrun as <- <-. split; [constructor | discriminate].
  - intros olat olng ps w st status data elements Hne Hps Hw Hels Hwf Hlen.
    assert (truthy (JList ps) = true) as Htruthy
      by (destruct ps; [congruence | reflexivity]).
    destruct (destinations_of_places ps Hps) as [dests Hdests].
    destruct (pair_up_well_formed ps elements 0 Hps Hwf Hlen) as (paired & Hpair & Hkeys).
    exists (sort_entries paired),
           (State (calls st ++ [DistanceMatrix (olat, olng) dests]) (log st)).
    split; [|split].
    + unfold _distance_matrix. rewrite Htruthy. cbn [negb iterate]. unfold_monad.
      rewrite Hdests. cbn [calls log]. rewrite Hw. cbn [json_body].
      rewrite Hels, Hpair. unfold sort_paired. destruct paired as [|x [|y rest]];
        try reflexivity.
      rewrite Forall_forall in Hkeys. rewrite <- forallb_forall in Hkeys.
      now rewrite Hkeys.
    + eapply Permutation_Forall; [apply sort_entries_perm | exact Hkeys].
    + now apply sort_entries_sorted.
Qed.

(** The hypotheses of C3 hold at its own example. *)
Lemma ranking_is_sorted_by_duration_then_distance_witness :
  let ps := [place "a" 1 1; place "b" 2 2] in
  let elements := [element_ok 400 1000; element_ok 400 900] in
  let ranked := [ranked_entry "b" 2 2 400 900; ranked_entry "a" 1 1 400 1000] in
  (StronglySorted ranks_before ranked
   /\ (truthy (JList ps) = true ->
       exists paired,
         provider_order (distances elements) initial 0 0 (JList ps) paired
         /\ Forall (fun x => has_numeric_key x = true) paired
         /\ forall k, filter (same_key k) ranked = filter (same_key k) paired))
  /\ (exists ranked' st',
        _distance_matrix 0 0 (JList ps) (distances elements) initial = (Ok ranked', st')
        /\ Forall (fun x => has_numeric_key x = true) ranked'
        /\ StronglySorted ranks_before ranked').
Proof.
  intros ps elements ranked. split.
  - apply (proj1 ranking_is_sorted_by_duration_then_distance 0%Q 0%Q (JList ps)
             (distances elements) initial
             (State [DistanceMatrix (0%Q, 0%Q) [(JInt 1, JInt 1); (JInt 2, JInt 2)]] [])).
    + vm_compute. reflexivity.
    + repeat constructor.
  - apply (proj1 (proj2 ranking_is_sorted_by_duration_then_distance) 0%Q 0%Q ps
             (distances elements) initial 200%Z
             (JDict [("rows", JList [JDict [("elements", JList elements)]])]) elements).
    + discriminate.
    + repeat apply Forall_cons; try apply Forall_nil;
        (split; [eexists; reflexivity | do 2 eexists; split; reflexivity]).
    + reflexivity.
    + reflexivity.
    + repeat apply Forall_cons; try apply Forall_nil;
        (split; [eexists; reflexivity |];
         intros H; do 6 eexists; repeat split; reflexivity).
    + cbn. lia.
Defined.

End RankingFacts.

(** ** Further properties of the dump-yard pipeline *)

Module PipelineFacts.
Import StrFacts Run Sample Attempts Answers NormalizeFacts.

(** X1. [_geolocate] never raises and calls the provider exactly once; what
    it returns is a pair of two values that are not [None], or
    [(None, None)]. *)
Theorem geolocate_both_or_neither (w : world) (st : state) :
  exists lat lng,
    _geolocate w st = (Ok (lat, lng), State (calls st ++ [Geolocate]) (log st))
    /\ ((is_none lat = false /\ is_none lng = false)
        \/ (lat = JNull /\ lng = JNull)).
Proof.
  unfold _geolocate. unfold_monad. cbn [calls log].
  destruct (w (calls st) Geolocate) as [[s [j|e]]|e]; cbn [json_body];
    try (exists JNull, JNull; split; [reflexivity | now right]).
  split_run;
    try (exists JNull, JNull; split; [reflexivity | now right]).
  all: match goal with
       | H : negb (is_none ?a) && negb (is_none ?b) = true |- _ =>
           exists a, b; split; [reflexivity | left];
           apply andb_true_iff in H as [Ha Hb];
           now rewrite negb_true_iff in Ha, Hb
       end.
Qed.

(** *** Blank text *)

Lemma lstrip_blank s : forallb_str is_space (lstrip s) = forallb_str is_space s.
Proof.
  induction s as [|c s IH]; [reflexivity|]. cbn [lstrip].
  destruct (is_space c) eqn:E; [|reflexivity].
  cbn [forallb_str]. now rewrite E.
Qed.

Lemma rstrip_blank s : forallb_str is_space (rstrip s) = forallb_str is_space s.
Proof.
  induction s as [|c s IH]; [reflexivity|]. cbn [rstrip forallb_str].
  destruct (rstrip s) as [|d r] eqn:E.
  - rewrite <- IH. cbn [forallb_str]. rewrite andb_true_r.
    destruct (is_space c) eqn:Ec; [reflexivity|]. cbn [forallb_str]. now rewrite Ec.
  - cbn [forallb_str] in *. now rewrite IH.
Qed.

Lemma rstrip_all_blank s : forallb_str is_space s = true -> rstrip s = "".
Proof.
  induction s as [|c s IH]; [reflexivity|]. cbn [rstrip forallb_str].
  intros H. apply andb_true_iff in H as [Hc Hs]. now rewrite (IH Hs), Hc.
Qed.

Lemma strip_all_blank s : forallb_str is_space s = true -> strip s = "".
Proof.
  intros H. unfold strip. apply rstrip_all_blank. now rewrite lstrip_blank.
Qed.

Lemma split_acc_nonempty s : forall acc, acc <> "" -> split_acc acc s <> [].
Proof.
  intros acc H. destruct (split_acc_first s acc H) as (x & more & ->). discriminate.
Qed.

Lemma split_acc_not_blank s : forall acc,
  forallb_str is_space s = false -> split_acc acc s <> [].
Proof.
  induction s as [|c s IH]; intros acc H; [discriminate|].
  cbn [forallb_str] in H. cbn [split_acc].
  destruct (is_space c) eqn:E.
  - cbn [andb] in H. destruct acc; [now apply IH | discriminate].
  - apply split_acc_nonempty. destruct acc; discriminate.
Qed.

Lemma join_split_strip_blank s :
  (join " " (split (strip s)) =? "")%string = forallb_str is_space s.
Proof.
  destruct (forallb_str is_space s) eqn:E.
  - now rewrite (strip_all_blank s E).
  - apply String.eqb_neq.
    assert (H : forallb_str is_space (strip s) = false).
    { unfold strip. now rewrite rstrip_blank, lstrip_blank. }
    pose proof (split_tokens (strip s)) as Ht.
    pose proof (split_acc_not_blank (strip s) "" H) as Hne. fold (split (strip s)) in Hne.
    destruct (split (strip s)) as [|t ts]; [contradiction|].
    apply join_nonempty. now inversion Ht.
Qed.

Lemma india_bias_empty x : (india_bias x =? "")%string = (x =? "")%string.
Proof.
  unfold india_bias. destruct x as [|c x]; [reflexivity|]. cbn [String.eqb negb andb].
  destruct (negb (contains "india" (lower (String c x)))); reflexivity.
Qed.

(** The text the address resolver geocodes is empty exactly for a blank
    address. *)
Lemma normalized_address_blank address :
  (normalized_address address =? "")%string = forallb_str is_space address.
Proof.
  unfold normalized_address. now rewrite india_bias_empty, join_split_strip_blank.
Qed.

(** X5. The address resolver asks no provider for a blank address: it
    returns [(None, None)] with an empty trail.  For any other address the
    calls it makes are, in this order, address validation, then text search,
    then find-place, each for the normalised text, and it stops after the
    first, the second or the third of them. *)
Theorem address_resolver_calls (address : string) (w : world) (st : state) :
  let norm := normalized_address address in
  exists lat lng attempts more,
    _address_to_latlng_with_debug address w st
    = (Ok (lat, lng, JDict [("normalized", JStr norm); ("attempts", JList attempts)]),
       State (calls st ++ more) attempts)
    /\ if forallb_str is_space address
       then more = [] /\ attempts = [] /\ lat = JNull /\ lng = JNull
       else more = [AddressValidate norm]
            \/ more = [AddressValidate norm; TextSearch norm None]
            \/ more = [AddressValidate norm; TextSearch norm None; FindPlace norm None].
Proof.
  intros norm. rewrite <- (normalized_address_blank address). fold norm.
  unfold _address_to_latlng_with_debug. fold (normalized_address address). fold norm.
  unfold bind at 1. unfold clear_log at 1. cbv beta iota.
  destruct (norm =? "")%string eqn:E.
  - unfold debug_dict. unfold_monad. cbn [calls log].
    exists JNull, JNull, [], []. now rewrite app_nil_r.
  - unfold bind at 1.
    match goal with |- context [try_addressvalidation norm w ?s] =>
      destruct (try_addressvalidation_runs norm w s) as (r1 & e1 & E1) end.
    rewrite E1. cbn [calls log app] in *.
    destruct r1 as [[lat lng]|].
    { unfold debug_dict. unfold_monad. cbn [calls log].
      exists lat, lng, e1, [AddressValidate norm]. split; [reflexivity | now left]. }
    unfold bind at 1.
    match goal with |- context [try_textsearch norm w ?s] =>
      destruct (try_textsearch_runs norm w s) as (r2 & e2 & E2) end.
    rewrite E2. cbn [calls log] in *. rewrite <- app_assoc.
    destruct r2 as [[lat lng]|].
    { unfold debug_dict. unfold_monad. cbn [calls log].
      exists lat, lng, (e1 ++ e2), [AddressValidate norm; TextSearch norm None].
      split; [reflexivity | right; now left]. }
    unfold bind at 1.
    match goal with |- context [try_findplace norm w ?s] =>
      destruct (try_findplace_runs norm w s) as (r3 & e3 & E3) end.
    rewrite E3. cbn [calls log] in *. rewrite <- app_assoc.
    destruct r3 as [[lat lng]|]; unfold debug_dict; unfold_monad; cbn [calls log].
    + exists lat, lng, ((e1 ++ e2) ++ e3),
        [AddressValidate norm; TextSearch norm None; FindPlace norm None].
      split; [reflexivity | right; now right].
    + exists JNull, JNull, ((e1 ++ e2) ++ e3),
        [AddressValidate norm; TextSearch norm None; FindPlace norm None].
      split; [reflexivity | right; now right].
Qed.


(** *** The address normaliser applied twice *)

Lemma lower_append a b : lower (a ++ b) = (lower a ++ lower b)%string.
Proof.
  induction a as [|c a IH]; [reflexivity|].
  cbn [append]. unfold lower in *. cbn [map_str append]. now rewrite IH.
Qed.

Lemma starts_with_append n a b : starts_with n a = true -> starts_with n (a ++ b) = true.
Proof.
  revert a. induction n as [|c n IH]; intros a H; [reflexivity|].
  destruct a as [|d a]; [discriminate|]. cbn [starts_with append] in *.
  apply andb_true_iff in H as [H1 H2]. now rewrite H1, (IH a H2).
Qed.

Lemma contains_append_l n a b : contains n a = true -> contains n (a ++ b) = true.
Proof.
  induction a as [|c a IH]; intros H.
  - destruct n; [destruct b; reflexivity | discriminate].
  - rewrite contains_cons in H. cbn [append]. rewrite contains_cons.
    apply orb_true_iff in H as [H|H]; apply orb_true_iff.
    + left. now apply (starts_with_append n (String c a) b).
    + right. now apply IH.
Qed.

Lemma contains_append_r n a b : contains n b = true -> contains n (a ++ b) = true.
Proof.
  intros H. induction a as [|c a IH]; [exact H|].
  cbn [append]. rewrite contains_cons, IH. apply orb_true_r.
Qed.

Lemma join_with_country t ts :
  (join " " (t :: ts) ++ ", India")%string = join " " (with_country (t :: ts)).
Proof.
  revert t. induction ts as [|t' ts IH]; intros t.
  - cbn. now rewrite append_assoc.
  - rewrite join_cons2. change (with_country (t :: t' :: ts)) with (t :: with_country (t' :: ts)).
    rewrite !append_assoc, IH.
    destruct (with_country (t' :: ts)) eqn:E.
    + destruct ts; discriminate.
    + now rewrite join_cons2.
Qed.

Lemma token_comma t : token t = true -> token (t ++ ",") = true.
Proof.
  unfold token. intros H. apply andb_true_iff in H as [H1 H2].
  rewrite nospace_append, H2. destruct t; [discriminate | reflexivity].
Qed.

Lemma with_country_tokens toks :
  Forall (fun t => token t = true) toks ->
  Forall (fun t => token t = true) (with_country toks).
Proof.
  induction 1 as [|t ts Ht Hts IH]; [constructor|].
  destruct ts as [|t' ts].
  - cbn. repeat constructor. now apply token_comma.
  - change (with_country (t :: t' :: ts)) with (t :: with_country (t' :: ts)).
    now constructor.
Qed.

Lemma join_split_fixed toks :
  Forall (fun t => token t = true) toks ->
  join " " (split (strip (join " " toks))) = join " " toks.
Proof.
  intros H. rewrite strip_fixed; [| now apply join_starts | now apply join_ends].
  now rewrite split_join.
Qed.

Lemma india_bias_fixed toks :
  Forall (fun t => token t = true) toks ->
  india_bias (join " " (split (strip (india_bias (join " " toks)))))
  = india_bias (join " " toks).
Proof.
  intros Ht.
  assert (H : (india_bias (join " " toks) = (join " " toks ++ ", India")%string
               /\ exists t ts, toks = t :: ts)
              \/ (india_bias (join " " toks) = join " " toks
                  /\ negb (join " " toks =? "")%string
                     && negb (contains "india" (lower (join " " toks))) = false)).
  { unfold india_bias.
    destruct (negb (join " " toks =? "")%string
              && negb (contains "india" (lower (join " " toks)))) eqn:E.
    - left. split; [reflexivity|]. destruct toks; [discriminate E | eauto].
    - right. now split. }
  destruct H as [[-> (t & ts & ->)] | [-> E]].
  - rewrite join_with_country.
    rewrite join_split_fixed by now apply with_country_tokens.
    rewrite <- join_with_country. unfold india_bias.
    rewrite lower_append, contains_append_r by reflexivity.
    now rewrite andb_false_r.
  - rewrite join_split_fixed by assumption.
    unfold india_bias. now rewrite E.
Qed.

(** X6. Normalising an address a second time changes nothing: blanks stay
    collapsed and the country suffix is not appended twice. *)
Theorem normalized_address_idempotent (address : string) :
  normalized_address (normalized_address address) = normalized_address address.
Proof.
  unfold normalized_address. apply india_bias_fixed, split_tokens.
Qed.

(** *** What the place-text normaliser keeps *)

Lemma unblank_cons c s :
  unblank (String c s) = if is_space c then unblank s else String c (unblank s).
Proof. unfold unblank. cbn [filter_str]. now destruct (is_space c). Qed.

Lemma unblank_append a b : unblank (a ++ b) = (unblank a ++ unblank b)%string.
Proof.
  induction a as [|c a IH]; [reflexivity|].
  cbn [append]. rewrite !unblank_cons, IH. now destruct (is_space c).
Qed.

Lemma unblank_nospace t : nospace t = true -> unblank t = t.
Proof.
  induction t as [|c t IH]; [reflexivity|]. unfold nospace. cbn [forallb_str].
  intros H. apply andb_true_iff in H as [Hc Ht]. rewrite unblank_cons.
  apply negb_true_iff in Hc. rewrite Hc. f_equal. now apply IH.
Qed.

Lemma unblank_join_cons t ts :
  unblank (join " " (t :: ts)) = (unblank t ++ unblank (join " " ts))%string.
Proof.
  destruct ts as [|t' ts].
  - cbn. now rewrite append_nil_r.
  - rewrite join_cons2, !unblank_append. reflexivity.
Qed.

Lemma unblank_split_acc s : forall acc,
  nospace acc = true ->
  unblank (join " " (split_acc acc s)) = (acc ++ unblank s)%string.
Proof.
  induction s as [|c s IH]; intros acc Hacc.
  - cbn [split_acc]. destruct acc; [reflexivity|].
    cbn [join String.concat]. rewrite append_nil_r. now apply unblank_nospace.
  - cbn [split_acc]. rewrite unblank_cons. destruct (is_space c) eqn:E.
    + destruct acc as [|a acc'].
      * now apply IH.
      * rewrite unblank_join_cons, (IH "" eq_refl).
        now rewrite (unblank_nospace _ Hacc).
    + rewrite IH.
      * now rewrite append_snoc.
      * rewrite nospace_append, Hacc. unfold nospace. cbn [forallb_str]. now rewrite E.
Qed.

Lemma unblank_join_split s : unblank (join " " (split s)) = unblank s.
Proof. unfold split. now rewrite unblank_split_acc. Qed.

Lemma unblank_lstrip s : unblank (lstrip s) = unblank s.
Proof.
  induction s as [|c s IH]; [reflexivity|]. cbn [lstrip]. rewrite unblank_cons.
  destruct (is_space c) eqn:E; [exact IH|]. now rewrite unblank_cons, E.
Qed.

Lemma unblank_rstrip s : unblank (rstrip s) = unblank s.
Proof.
  induction s as [|c s IH]; [reflexivity|]. cbn [rstrip]. rewrite unblank_cons.
  destruct (rstrip s) as [|d r] eqn:E.
  - rewrite <- IH. destruct (is_space c) eqn:Ec; [reflexivity|].
    rewrite unblank_cons, Ec. reflexivity.
  - rewrite unblank_cons, IH. reflexivity.
Qed.

Lemma unblank_strip s : unblank (strip s) = unblank s.
Proof. unfold strip. now rewrite unblank_rstrip, unblank_lstrip. Qed.

Lemma unblank_jam_sub word s : forall skip, unblank (jam_sub word skip s) = unblank s.
Proof.
  induction s as [|c s IH]; intros skip; [reflexivity|]. cbn [jam_sub].
  destruct skip as [|k].
  - destruct (is_alpha c && starts_with_ci word s);
      rewrite !unblank_cons, ?IH; reflexivity.
  - now rewrite !unblank_cons, IH.
Qed.

Lemma unblank_jam_passes words : forall s,
  unblank (fold_left jam_pass words s) = unblank s.
Proof.
  induction words as [|word words IH]; intros s; [reflexivity|].
  cbn [fold_left]. rewrite IH. apply unblank_jam_sub.
Qed.

Lemma eqb_ci_lower a b : eqb_ci a b = true -> to_lower b = to_lower a.
Proof. unfold eqb_ci. intros H. now apply Ascii.eqb_eq in H. Qed.

Lemma eqb_ci_space a b : eqb_ci a b = true -> is_space b = is_space a.
Proof.
  intros H. apply eqb_ci_lower in H.
  now rewrite <- (is_space_to_lower b), H, is_space_to_lower.
Qed.

Lemma lower_cons c s : lower (String c s) = String (to_lower c) (lower s).
Proof. reflexivity. Qed.

(** A text that starts with [word], in any case, has its letters first. *)
Lemma starts_with_ci_letters word : forall s,
  nospace word = true -> starts_with_ci word s = true ->
  lower (unblank s)
  = (lower word ++ lower (unblank (drop (String.length word) s)))%string.
Proof.
  induction word as [|a word IH]; intros s Hw H; [reflexivity|].
  destruct s as [|b s]; [discriminate|]. cbn [starts_with_ci] in H.
  apply andb_true_iff in H as [Hab Hrest].
  unfold nospace in Hw. cbn [forallb_str] in Hw.
  apply andb_true_iff in Hw as [Ha Hword]. apply negb_true_iff in Ha.
  rewrite unblank_cons, (eqb_ci_space a b Hab), Ha.
  cbn [String.length drop]. rewrite !lower_cons, (eqb_ci_lower a b Hab).
  cbn [append]. f_equal. now apply IH.
Qed.

Lemma letters_lj_prefix_sub s :
  lower (unblank (lj_prefix_sub s)) = lower (unblank s).
Proof.
  destruct (starts_lj s) eqn:E.
  - rewrite lj_prefix_sub_lj by assumption.
    assert (H : starts_with_ci "lj" s = true).
    { destruct s as [|a [|b s]]; try discriminate. unfold starts_lj in E.
      cbn [starts_with_ci]. apply andb_true_iff in E as [-> ->]. reflexivity. }
    rewrite (starts_with_ci_letters "lj" s eq_refl H).
    rewrite unblank_append, unblank_lstrip, lower_append. reflexivity.
  - now rewrite lj_prefix_sub_other.
Qed.

Lemma letters_lj_university_sub s :
  lower (unblank (lj_university_sub s)) = lower (unblank s).
Proof.
  unfold lj_university_sub. destruct (starts_with_ci "ljuniversity" s) eqn:E;
    [|reflexivity].
  rewrite (starts_with_ci_letters "ljuniversity" s eq_refl E).
  rewrite unblank_append, lower_append. reflexivity.
Qed.

Lemma letters_map_str f s :
  (forall c, is_space (f c) = is_space c) ->
  (forall c, to_lower (f c) = to_lower c) ->
  lower (unblank (map_str f s)) = lower (unblank s).
Proof.
  intros Hs Hl. induction s as [|c s IH]; [reflexivity|].
  cbn [map_str]. rewrite !unblank_cons, Hs. destruct (is_space c); [exact IH|].
  now rewrite !lower_cons, Hl, IH.
Qed.

Lemma letters_case_token t : lower (unblank (case_token t)) = lower (unblank t).
Proof.
  unfold case_token. destruct ((String.length t <=? 3) && isalpha t).
  - apply letters_map_str; auto using is_space_to_upper, to_lower_to_upper.
  - destruct t as [|c t]; [reflexivity|]. unfold capitalize.
    rewrite !unblank_cons, is_space_to_upper.
    assert (H : lower (unblank (lower t)) = lower (unblank t)).
    { apply letters_map_str; auto using is_space_to_lower, to_lower_idem. }
    destruct (is_space c); [exact H|].
    now rewrite !lower_cons, to_lower_to_upper, H.
Qed.

Lemma letters_case_tokens toks :
  lower (unblank (join " " (map case_token toks))) = lower (unblank (join " " toks)).
Proof.
  induction toks as [|t toks IH]; [reflexivity|]. cbn [map].
  rewrite !unblank_join_cons, !lower_append, IH, letters_case_token. reflexivity.
Qed.

(** X8. On 7-bit text the place-text normaliser only moves blanks and
    changes case: with the blanks taken out and the case folded, its output
    is its input. *)
Theorem normalize_keeps_characters (text : string) :
  isascii text = true ->
  lower (unblank (_normalize_place_text text)) = lower (unblank text).
Proof.
  intros _. unfold _normalize_place_text.
  destruct (join " " (split (strip text)) =? "")%string.
  - now rewrite unblank_join_split, unblank_strip.
  - rewrite letters_case_tokens, unblank_join_split.
    rewrite letters_lj_university_sub, letters_lj_prefix_sub.
    now rewrite unblank_jam_passes, unblank_join_split, unblank_strip.
Qed.

(** *** The variants of an area *)

Lemma unspace_cons c s :
  unspace (String c s) = if Ascii.eqb c " " then unspace s else String c (unspace s).
Proof. unfold unspace. cbn [filter_str]. now destruct (Ascii.eqb c " "). Qed.

Lemma unspace_variant_sub s : forall prev, unspace (variant_sub prev s) = unspace s.
Proof.
  induction s as [|c s IH]; intros prev.
  - cbn [variant_sub].
    destruct prev as [p|]; [|reflexivity].
    destruct (negb (is_digit p) && existsb (fun w => starts_with_ci w "") variant_words);
      reflexivity.
  - cbn [variant_sub].
    assert (H : unspace (String c (variant_sub (Some c) s)) = unspace (String c s)).
    { rewrite !unspace_cons, IH. reflexivity. }
    destruct prev as [p|]; [|exact H].
    destruct (negb (is_digit p)
              && existsb (fun w => starts_with_ci w (String c s)) variant_words);
      [|exact H].
    rewrite unspace_cons. exact H.
Qed.

Lemma variant_sub_nonempty c s prev : variant_sub prev (String c s) <> "".
Proof.
  cbn [variant_sub]. destruct prev as [p|]; [|discriminate].
  destruct (negb (is_digit p)
            && existsb (fun w => starts_with_ci w (String c s)) variant_words);
    discriminate.
Qed.

(** X9. The texts tried for an area: a non-empty area comes first and at
    most one variant follows it; every text tried is non-empty and is the
    area up to its spaces. *)
Theorem area_variants_spec (area : string) :
  (area <> "" ->
   exists rest, area_variants area = area :: rest /\ List.length rest <= 1)
  /\ (forall v, In v (area_variants area) ->
        v <> "" /\ unspace v = unspace area).
Proof.
  unfold area_variants. split.
  - intros Hne. destruct area as [|c s]; [contradiction|].
    destruct (negb (String c s =? "")%string && negb (contains " " (String c s)));
      cbn [filter String.eqb negb].
    + eexists. split; [reflexivity|].
      destruct (negb (variant_sub None (String c s) =? "")%string); cbn; lia.
    + exists []. split; [reflexivity | cbn; lia].
  - intros v Hv. apply filter_In in Hv as [Hin Hv].
    apply negb_true_iff, String.eqb_neq in Hv. split; [exact Hv|].
    destruct (negb (area =? "")%string && negb (contains " " area)).
    + destruct Hin as [<-|[<-|[]]]; [reflexivity | apply unspace_variant_sub].
    + destruct Hin as [<-|[]]; reflexivity.
Qed.

(** *** When no provider can be reached *)

Section Unreachable.

Variable w : world.
Hypothesis Hdown : unreachable w.

Ltac down_block q :=
  intros; unfold_monad; cbn [calls log];
  match goal with |- context [w ?h q] => destruct (Hdown h q) as [e ->] end;
  eauto.

Lemma try_addressvalidation_down norm st :
  exists st', try_addressvalidation norm w st = (Ok None, st').
Proof. unfold try_addressvalidation. down_block (AddressValidate norm). Qed.

Lemma try_textsearch_down norm st :
  exists st', try_textsearch norm w st = (Ok None, st').
Proof. unfold try_textsearch. down_block (TextSearch norm None). Qed.

Lemma try_findplace_down norm st :
  exists st', try_findplace norm w st = (Ok None, st').
Proof. unfold try_findplace. down_block (FindPlace norm None). Qed.

Lemma address_down address st :
  exists dbg st',
    _address_to_latlng_with_debug address w st = (Ok (JNull, JNull, dbg), st').
Proof.
  unfold _address_to_latlng_with_debug. unfold bind at 1. unfold clear_log at 1.
  cbv beta iota.
  destruct (india_bias (join " " (split (strip address))) =? "")%string.
  { unfold debug_dict. unfold_monad. eauto. }
  unfold bind at 1.
  match goal with |- context [try_addressvalidation ?n w ?s] =>
    destruct (try_addressvalidation_down n s) as (s1 & ->) end.
  unfold bind at 1.
  match goal with |- context [try_textsearch ?n w ?s] =>
    destruct (try_textsearch_down n s) as (s2 & ->) end.
  unfold bind at 1.
  match goal with |- context [try_findplace ?n w ?s] =>
    destruct (try_findplace_down n s) as (s3 & ->) end.
  unfold debug_dict. unfold_monad. eauto.
Qed.

Lemma city_stage_down q st :
  exists st', city_stage q w st = (Ok (JNull, JNull), st').
Proof.
  unfold city_stage, try_city_textsearch, try_city_addressvalidation.
  unfold_monad. cbn [calls log].
  destruct (Hdown (calls st) (TextSearch q None)) as [e ->]. cbn [is_none orb calls log].
  match goal with |- context [w ?h (AddressValidate q)] =>
    destruct (Hdown h (AddressValidate q)) as [e' ->] end.
  eauto.
Qed.

Lemma city_area_down city area st :
  exists dbg st', _geocode_city_area city area w st = (Ok (JNull, JNull, dbg), st').
Proof.
  unfold _geocode_city_area. unfold bind at 1. unfold clear_log at 1. cbv beta iota.
  destruct ((_normalize_place_text (or_empty city) =? "")%string
            && (_normalize_place_text (or_empty area) =? "")%string).
  { unfold dbg_dict. unfold_monad. eauto. }
  unfold bind at 1.
  match goal with |- context [city_stage ?q w ?s] =>
    destruct (city_stage_down q s) as (s1 & ->) end.
  cbn [is_none orb]. unfold dbg_dict. unfold_monad. eauto.
Qed.

Lemma geolocate_down st :
  _geolocate w st = (Ok (JNull, JNull), State (calls st ++ [Geolocate]) (log st)).
Proof.
  unfold _geolocate. unfold_monad. cbn [calls log].
  now destruct (Hdown (calls st) Geolocate) as [e ->].
Qed.

End Unreachable.

(** X2. When no provider can be reached, a request with an address, or
    without complete explicit coordinates, is answered with status 400: the
    body carries the error message and the hint and no origin, and
    geolocation has been tried.  No exception leaves the view. *)
Theorem unreachable_is_bad_request
    (float_of_str : string -> option Q) (request : query) (w : world) (st : state) :
  unreachable w ->
  nonempty (q_address request) = true
  \/ nonempty (q_lat request) && nonempty (q_lng request) = false ->
  exists kv st',
    find_dumpyards float_of_str request w st = (Ok (JsonResponse (JDict kv) 400), st')
    /\ lookup "error" kv = Some (JStr "Please provide a valid address or lat/lng.")
    /\ lookup "hint" kv = Some (JStr hint)
    /\ lookup "origin" kv = None
    /\ In Geolocate (calls st').
Proof.
  intros Hdown Hin.
  assert (Hres : exists dbg st1,
             resolve_input request w st = (Ok (JNull, JNull, dbg), st1)
             \/ exists lat lng,
                  resolve_input request w st = (Ok (lat, lng, dbg), st1)
                  /\ truthy lat && truthy lng = false).
  { unfold resolve_input.
    destruct (nonempty (q_address request)) eqn:Ea.
    - unfold bind.
      destruct (address_down w Hdown (or_empty (q_address request)) st)
        as (dbg & st1 & ->).
      exists (Some dbg), st1. now left.
    - destruct Hin as [Hin|Hin]; [discriminate|]. rewrite Hin. cbn [negb].
      rewrite andb_true_r.
      destruct (nonempty (q_city request) || nonempty (q_area request)).
      + unfold bind.
        destruct (city_area_down w Hdown (q_city request) (q_area request) st)
          as (dbg & st1 & ->).
        exists (Some dbg), st1. now left.
      + exists None, st. right. unfold ret. do 2 eexists. split; [reflexivity|].
        unfold nonempty in Hin.
        destruct (q_lat request) as [[|]|], (q_lng request) as [[|]|];
          try reflexivity; discriminate. }
  assert (Hflag : exists dbg st1 lat lng,
             resolve_input request w st = (Ok (lat, lng, dbg), st1)
             /\ truthy lat && truthy lng = false).
  { destruct Hres as (dbg & st1 & [H | (lat & lng & H & Hf)]); eauto 8. }
  destruct Hflag as (dbg & st1 & lat & lng & Hinput & Hfalsy).
  unfold find_dumpyards, resolve_origin. unfold bind at 1 2. rewrite Hinput.
  rewrite Hfalsy. cbn [negb]. unfold bind at 1 2.
  rewrite (geolocate_down w Hdown st1). cbn [truthy andb].
  unfold ret, resolve_error.
  do 2 eexists. split; [reflexivity|].
  cbn [calls]. repeat split.
  - destruct dbg as [d|]; [|reflexivity].
    now destruct (nonempty (q_address request) || nonempty (q_city request)
                  || nonempty (q_area request)).
  - destruct dbg as [d|]; [|reflexivity].
    now destruct (nonempty (q_address request) || nonempty (q_city request)
                  || nonempty (q_area request)).
  - destruct dbg as [d|]; [|reflexivity].
    now destruct (nonempty (q_address request) || nonempty (q_city request)
                  || nonempty (q_area request)).
  - apply in_or_app. right. now left.
Qed.

(** X3. Once the origin is resolved, a failure of the search is not caught.
    When the nearby search fails -- the call itself, or a body that is not
    JSON -- [find_dumpyards] ends with that exception after that one call.
    When the nearby search answers with candidates that have their
    locations and the distance call fails in one of these ways,
    [find_dumpyards] ends with that exception after the two calls. *)
Theorem search_failure_is_not_caught
    (float_of_str : string -> option Q) (request : query) (w : world)
    (st st1 : state) (lat_f lng_f : Q) (e : exn) :
  resolve_origin float_of_str request w st = (Ok (inr (lat_f, lng_f)), st1) ->
  let nearby := NearbySearch lat_f lng_f 15000 in
  let fails (r : result response) :=
    r = Raise e \/ exists status, r = Ok (Response status (Raise e)) in
  (fails (w (calls st1) nearby) ->
   find_dumpyards float_of_str request w st
   = (Raise e, State (calls st1 ++ [nearby]) (log st1)))
  /\ (forall status j candidates ps dests,
        w (calls st1) nearby = Ok (Response status (Ok j)) ->
        get_default j "results" (JList []) = Ok candidates ->
        truthy candidates = true ->
        iterate candidates = Ok ps ->
        map_result destination ps = Ok dests ->
        fails (w (calls st1 ++ [nearby]) (DistanceMatrix (lat_f, lng_f) dests)) ->
        find_dumpyards float_of_str request w st
        = (Raise e,
           State ((calls st1 ++ [nearby]) ++ [DistanceMatrix (lat_f, lng_f) dests])
                 (log st1))).
Proof.
  intros Horigin nearby fails. split.
  - intros Hnearby.
    unfold find_dumpyards. unfold bind at 1. rewrite Horigin.
    unfold search_and_rank, _places_nearby. unfold_monad. fold nearby.
    destruct Hnearby as [-> | [status ->]]; reflexivity.
  - intros status j candidates ps dests Hnearby Hres Ht Hps Hd Hdist.
    unfold find_dumpyards. unfold bind at 1. rewrite Horigin.
    unfold search_and_rank, _places_nearby, _distance_matrix. unfold_monad.
    fold nearby. rewrite Hnearby. cbn [json_body]. rewrite Hres, Ht. cbn [negb].
    rewrite Hps, Hd. cbn [calls log].
    destruct Hdist as [-> | [status' ->]]; reflexivity.
Qed.

(** X4. A resolved coordinate one of whose parts is falsy, such as a
    latitude of exactly 0, is treated as missing: geolocation is asked, and
    when that fails the request is answered with the 400 error response, as
    if nothing had been resolved. *)
Theorem falsy_coordinate_is_discarded
    (float_of_str : string -> option Q) (request : query) (w : world)
    (st st1 : state) (lat lng : json) (geo_dbg : option json) (e : exn) :
  resolve_input request w st = (Ok (lat, lng, geo_dbg), st1) ->
  truthy lat = false \/ truthy lng = false ->
  w (calls st1) Geolocate = Raise e ->
  find_dumpyards float_of_str request w st
  = (Ok (resolve_error request geo_dbg), State (calls st1 ++ [Geolocate]) (log st1)).
Proof.
  intros Hinput Hfalsy Hgeo.
  unfold find_dumpyards, resolve_origin. unfold bind at 1 2. rewrite Hinput.
  assert (H : truthy lat && truthy lng = false).
  { destruct Hfalsy as [-> | ->]; [reflexivity | apply andb_false_r]. }
  rewrite H. cbn [negb]. unfold bind at 1 2.
  unfold _geolocate. unfold_monad. rewrite Hgeo. reflexivity.
Qed.

(** *** The city-area resolver without a refinement *)

Lemma city_stage_calls q w st r st' :
  city_stage q w st = (Ok r, st') ->
  calls st' = calls st ++ [TextSearch q None]
  \/ calls st' = calls st ++ [TextSearch q None; AddressValidate q].
Proof.
  unfold city_stage. unfold bind at 1.
  destruct (try_city_textsearch_runs q w st) as ([lat lng] & e1 & ->).
  destruct (is_none lat || is_none lng).
  - match goal with |- context [try_city_addressvalidation q lat lng w ?s] =>
      destruct (try_city_addressvalidation_runs q lat lng w s) as (r2 & e2 & ->) end.
    cbn [calls]. rewrite <- app_assoc. intros [= _ <-]. now right.
  - unfold ret. intros [= _ <-]. now left.
Qed.

(** X7. The city-area resolver without a refinement.  When city and area
    are both blank it returns [(None, None)] and calls no provider.
    Otherwise, when the city stage yields no coordinate, or the area is
    blank, it returns [(None, None)], respectively the city coordinate,
    having made the city text search and at most the city address
    validation, and nothing else. *)
Theorem city_area_without_refinement
    (city0 area0 : option string) (w : world) (st : state) :
  let city := _normalize_place_text (or_empty city0) in
  let area := _normalize_place_text (or_empty area0) in
  let city_query := india_bias (if (city =? "")%string then area else city) in
  let dbg steps := JDict [("city", opt_str city0); ("area", opt_str area0);
                          ("steps", JList steps)] in
  (city = "" -> area = "" ->
   _geocode_city_area city0 area0 w st
   = (Ok (JNull, JNull, dbg []), State (calls st) []))
  /\ (forall lat lng st1,
        (city =? "")%string && (area =? "")%string = false ->
        city_stage city_query w (State (calls st) []) = (Ok (lat, lng), st1) ->
        is_none lat || is_none lng = true \/ area = "" ->
        _geocode_city_area city0 area0 w st
        = (Ok (if is_none lat || is_none lng then (JNull, JNull, dbg (log st1))
               else (lat, lng, dbg (log st1))), st1)
        /\ (calls st1 = calls st ++ [TextSearch city_query None]
            \/ calls st1 = calls st ++ [TextSearch city_query None;
                                        AddressValidate city_query])).
Proof.
  intros city area city_query dbg. split.
  - intros Hc Ha. unfold _geocode_city_area. fold city area. rewrite Hc, Ha.
    reflexivity.
  - intros lat lng st1 Hne Hstage Hstop.
    split; [|exact (city_stage_calls _ _ _ _ _ Hstage)].
    unfold _geocode_city_area. fold city area. rewrite Hne. fold city_query.
    unfold bind at 1. unfold clear_log at 1. cbv beta iota.
    unfold bind at 1. rewrite Hstage.
    destruct (is_none lat || is_none lng) eqn:E.
    + destruct st1. reflexivity.
    + destruct Hstop as [Hstop|Hstop]; [discriminate|]. rewrite Hstop.
      destruct st1. reflexivity.
Qed.

(** *** The ranked list and the candidates *)

Lemma distance_matrix_sorted olat olng places w st ranked st' :
  _distance_matrix olat olng places w st = (Ok ranked, st') ->
  Forall (fun x => has_numeric_key x = true) ranked ->
  StronglySorted ranks_before ranked.
Proof.
  intros H Hkeys. destruct (truthy places) eqn:E.
  - destruct (RankingFacts.distance_matrix_steps _ _ _ _ _ _ _ E H)
      as (ps & destinations & r & data & elements & paired
          & _ & _ & _ & _ & _ & _ & Hsort).
    assert (Permutation paired ranked) as Hperm
      by now apply RankingFacts.sort_paired_spec in Hsort.
    assert (ranked = sort_entries paired) as ->.
    { revert Hsort. unfold sort_paired. destruct paired as [|x [|y rest]].
      - now intros [= <-].
      - now intros [= <-].
      - destruct (forallb has_numeric_key (x :: y :: rest)); [|discriminate].
        now intros [= <-]. }
    apply RankingFacts.sort_entries_sorted.
    eapply Permutation_Forall; [apply Permutation_sym, Hperm | exact Hkeys].
  - rewrite RankingFacts.distance_matrix_no_places in H by assumption.
    injection H as <- _. constructor.
Qed.

(** X10. In every success response ["nearest"], when there is a place, is
    the first of the places; and when the places have numeric sort keys,
    they are ordered by (duration, distance), so that the nearest ranks
    before every other one. *)
Theorem nearest_ranks_first
    (float_of_str : string -> option Q) (request : query) (w : world)
    (st st' : state) (body : json) :
  find_dumpyards float_of_str request w st = (Ok (JsonResponse body 200), st') ->
  exists kv ranked,
    body = JDict kv
    /\ lookup "places" kv = Some (JList ranked)
    /\ (forall x rest, ranked = x :: rest -> lookup "nearest" kv = Some x)
    /\ (Forall (fun x => has_numeric_key x = true) ranked ->
        StronglySorted ranks_before ranked
        /\ forall x rest, ranked = x :: rest -> Forall (ranks_before x) rest).
Proof.
  unfold find_dumpyards. unfold bind at 1.
  destruct (resolve_origin float_of_str request w st)
    as [[[resp|[lat_f lng_f]]|e] st1] eqn:E; [| |discriminate].
  - destruct resp as [b s]. apply EndpointFacts.resolve_origin_error_status in E.
    subst s. unfold ret. discriminate.
  - unfold search_and_rank. unfold bind at 1.
    destruct (_places_nearby lat_f lng_f 15000 w st1) as [[candidates|e] st2];
      [|discriminate].
    destruct (negb (truthy candidates)).
    + unfold ret. intros [= <- <-]. do 2 eexists. split; [reflexivity|].
      split; [reflexivity|]. split; [discriminate|].
      intros _. split; [constructor | discriminate].
    + unfold bind at 1.
      destruct (_distance_matrix lat_f lng_f candidates w st2)
        as [[ranked|e] st3] eqn:Ed; [|discriminate].
      unfold ret. intros [= <- <-].
      do 2 eexists. split; [reflexivity|]. split; [reflexivity|].
      split; [now intros x rest ->|].
      intros Hkeys. apply distance_matrix_sorted in Ed; [|exact Hkeys].
      split; [exact Ed|]. intros x rest ->. now inversion Ed.
Qed.

Lemma pair_up_bound places n :
  (forall i p el entry,
     index places i = Ok p -> pair_entry p el = Ok entry -> i < n) ->
  forall elements idx paired,
    pair_up places idx elements = Ok paired ->
    List.length paired <= n - idx.
Proof.
  intros Hn. induction elements as [|el rest IH]; intros idx paired.
  - cbn [pair_up]. intros [= <-]. cbn. lia.
  - cbn [pair_up]. destruct (get el "status") as [s|e]; [|discriminate].
    cbn [and_then]. destruct (eq_str s "OK").
    + destruct (index places idx) as [p|e] eqn:Ei; [|discriminate]. cbn [and_then].
      destruct (pair_entry p el) as [entry|e] eqn:Ep; [|discriminate]. cbn [and_then].
      destruct (pair_up places (S idx) rest) as [more|e] eqn:Er; [|discriminate].
      cbn [and_then]. intros [= <-]. cbn [List.length].
      pose proof (Hn _ _ _ _ Ei Ep). pose proof (IH _ _ Er). lia.
    + intros H. pose proof (IH _ _ H). lia.
Qed.

Lemma index_in_range places ps i p el entry :
  iterate places = Ok ps ->
  index places i = Ok p -> pair_entry p el = Ok entry -> i < List.length ps.
Proof.
  destruct places as [| | |s|l|kv]; try discriminate.
  - intros _. unfold index. destruct (String.get i s); [|discriminate].
    intros [= <-]. discriminate.
  - intros [= <-]. unfold index. destruct (nth_error l i) eqn:E; [|discriminate].
    intros _ _. apply nth_error_Some. congruence.
Qed.

(** X11. The ranking never returns more entries than there are
    candidates. *)
Theorem ranked_within_candidates
    (olat olng : Q) (places : json) (ps ranked : list json)
    (w : world) (st st' : state) :
  iterate places = Ok ps ->
  _distance_matrix olat olng places w st = (Ok ranked, st') ->
  List.length ranked <= List.length ps.
Proof.
  intros Hps H. destruct (truthy places) eqn:E.
  - destruct (RankingFacts.distance_matrix_steps _ _ _ _ _ _ _ E H)
      as (ps' & dests & r & data & elements & paired & _ & _ & _ & _ & _ & Hp & Hs).
    apply RankingFacts.sort_paired_spec in Hs as (Hperm & _).
    rewrite <- (Permutation_length Hperm).
    pose proof (pair_up_bound places (List.length ps)
                  (fun i p el entry => index_in_range places ps i p el entry Hps)
                  _ _ _ Hp).
    lia.
  - rewrite RankingFacts.distance_matrix_no_places in H by assumption.
    injection H as <- _. cbn. lia.
Qed.

Lemma map_result_raises {A B} (f : A -> result B) l :
  Exists (fun x => exists e, f x = Raise e) l -> exists e, map_result f l = Raise e.
Proof.
  induction 1 as [x l [e He]|x l _ [e IH]]; cbn [map_result].
  - rewrite He. cbn [and_then]. eauto.
  - destruct (f x); cbn [and_then]; [rewrite IH; cbn [and_then]|]; eauto.
Qed.

(** X12. A candidate without a location stops the ranking: when some
    candidate has no [geometry.location.lat] or [.lng], [_distance_matrix]
    raises before it calls the provider. *)
Theorem candidate_without_location_stops_ranking
    (olat olng : Q) (places : json) (ps : list json) (w : world) (st : state) :
  truthy places = true ->
  iterate places = Ok ps ->
  Exists (fun p => exists e, destination p = Raise e) ps ->
  exists e, _distance_matrix olat olng places w st = (Raise e, st).
Proof.
  intros Ht Hps Hbad. destruct (map_result_raises destination ps Hbad) as [e He].
  exists e. unfold _distance_matrix. rewrite Ht. cbn [negb].
  unfold_monad. now rewrite Hps, He.
Qed.

Lemma pair_up_out_of_range ps : forall elements idx,
  Forall well_formed_place ps ->
  Forall well_formed_element elements ->
  (exists k el, nth_error elements k = Some el /\ status_ok el = true
                /\ List.length ps <= idx + k) ->
  pair_up (JList ps) idx elements = Raise IndexError.
Proof.
  intros elements idx Hps. revert idx.
  induction elements as [|el rest IH]; intros idx Hel (k & el' & Hk & Hok & Hlen).
  - destruct k; discriminate.
  - inversion Hel as [|? ? Hwf Hrest]; subst. cbn [pair_up].
    assert (Hnext : forall k', k = S k' ->
              pair_up (JList ps) (S idx) rest = Raise IndexError).
    { intros k' ->. apply IH; [assumption|]. exists k', el'. cbn in Hk.
      repeat split; try assumption. lia. }
    destruct Hwf as [[kv ->] Hwf]. cbn [get get_default and_then].
    destruct (eq_str match lookup "status" kv with Some x => x | None => JNull end "OK")
      eqn:Es.
    + assert (Hok0 : status_ok (JDict kv) = true) by exact Es.
      unfold index. destruct (nth_error ps idx) as [p|] eqn:Ep; [|reflexivity].
      cbn [and_then].
      assert (Hp : well_formed_place p).
      { rewrite Forall_forall in Hps. apply Hps. eapply nth_error_In; eauto. }
      destruct (RankingFacts.pair_entry_well_formed p (JDict kv) Hp
                  (conj (ex_intro _ kv eq_refl) Hwf) Hok0) as (entry & -> & _).
      cbn [and_then]. destruct k as [|k'].
      * exfalso.
        assert (idx < List.length ps) by (apply nth_error_Some; congruence). lia.
      * now rewrite (Hnext k' eq_refl).
    + destruct k as [|k'].
      * cbn in Hk. injection Hk as <-. unfold status_ok in Hok.
        cbn [get get_default] in Hok. congruence.
      * exact (Hnext k' eq_refl).
Qed.

(** X13. An answer that reports an "OK" element at an index beyond the
    candidates makes [_distance_matrix] raise [IndexError], even when every
    candidate and every element is well-formed. *)
Theorem answer_beyond_candidates_is_index_error
    (olat olng : Q) (ps : list json) (w : world) (st : state)
    (status : Z) (data : json) (elements : list json) (k : nat) (el : json) :
  ps <> [] ->
  Forall well_formed_place ps ->
  (forall dests,
     w (calls st) (DistanceMatrix (olat, olng) dests) = Ok (Response status (Ok data))) ->
  response_elements data = Ok elements ->
  Forall well_formed_element elements ->
  nth_error elements k = Some el -> status_ok el = true -> List.length ps <= k ->
  exists st', _distance_matrix olat olng (JList ps) w st = (Raise IndexError, st').
Proof.
  intros Hne Hps Hw Hdata Hel Hk Hok Hlen.
  destruct (RankingFacts.destinations_of_places ps Hps) as [dests Hd].
  unfold _distance_matrix. destruct ps as [|p0 ps0]; [contradiction|].
  cbn [truthy negb iterate]. unfold_monad. rewrite Hd. cbn [calls log].
  rewrite Hw. cbn [json_body]. rewrite Hdata.
  rewrite (pair_up_out_of_range (p0 :: ps0) elements 0 Hps Hel).
  - eauto.
  - exists k, el. repeat split; assumption.
Qed.

(** *** Instances *)

Lemma unreachable_is_bad_request_witness :
  exists kv st',
    find_dumpyards whole_number (Query (Some "lj university") None None None None)
      all_down initial
    = (Ok (JsonResponse (JDict kv) 400), st')
    /\ lookup "error" kv = Some (JStr "Please provide a valid address or lat/lng.")
    /\ lookup "hint" kv = Some (JStr hint)
    /\ lookup "origin" kv = None
    /\ In Geolocate (calls st').
Proof.
  apply (unreachable_is_bad_request whole_number
           (Query (Some "lj university") None None None None) all_down initial).
  - intros h q. exists (RequestException "connection refused"). reflexivity.
  - left. reflexivity.
Defined.

Lemma search_failure_is_not_caught_witness :
  find_dumpyards whole_number (Query None (Some "1") (Some "2") None None)
    all_down initial
  = (Raise (RequestException "connection refused"),
     State ([] ++ [NearbySearch (inject_Z 1) (inject_Z 2) 15000]) [])
  /\ find_dumpyards whole_number (Query None (Some "1") (Some "2") None None)
       nearby_only initial
     = (Raise (RequestException "connection refused"),
        State (([] ++ [NearbySearch (inject_Z 1) (inject_Z 2) 15000])
               ++ [DistanceMatrix (inject_Z 1, inject_Z 2) [(JInt 1, JInt 1)]]) []).
Proof.
  split.
  - apply (proj1 (search_failure_is_not_caught whole_number
                    (Query None (Some "1") (Some "2") None None) all_down initial
                    initial (inject_Z 1) (inject_Z 2)
                    (RequestException "connection refused") eq_refl)).
    left. reflexivity.
  - apply (proj2 (search_failure_is_not_caught whole_number
                    (Query None (Some "1") (Some "2") None None) nearby_only initial
                    initial (inject_Z 1) (inject_Z 2)
                    (RequestException "connection refused") eq_refl)
             200%Z (JDict [("results", JList [place "a" 1 1])])
             (JList [place "a" 1 1]) [place "a" 1 1] [(JInt 1, JInt 1)]);
      try reflexivity.
    left. reflexivity.
Defined.

Lemma falsy_coordinate_is_discarded_witness :
  let request := Query (Some "equator") None None None None in
  exists geo_dbg st1,
    resolve_input request on_equator initial = (Ok (JInt 0, JInt 72, geo_dbg), st1)
    /\ find_dumpyards whole_number request on_equator initial
       = (Ok (resolve_error request geo_dbg),
          State (calls st1 ++ [Geolocate]) (log st1)).
Proof.
  intros request. do 2 eexists. split; [vm_compute; reflexivity|].
  apply (falsy_coordinate_is_discarded whole_number request on_equator initial)
    with (lat := JInt 0) (lng := JInt 72) (e := RequestException "connection refused").
  - vm_compute. reflexivity.
  - left. reflexivity.
  - reflexivity.
Defined.

Lemma city_area_without_refinement_witness :
  _geocode_city_area None None only_textsearch initial
  = (Ok (JNull, JNull,
         JDict [("city", JNull); ("area", JNull); ("steps", JList [])]),
     State [] [])
  /\ exists st1,
       _geocode_city_area (Some "Ahmedabad") None only_textsearch initial
       = (Ok (JInt 23, JInt 72,
              JDict [("city", JStr "Ahmedabad"); ("area", JNull);
                     ("steps", JList (log st1))]), st1)
       /\ (calls st1 = [] ++ [TextSearch "Ahmedabad, India" None]
           \/ calls st1 = [] ++ [TextSearch "Ahmedabad, India" None;
                                 AddressValidate "Ahmedabad, India"]).
Proof.
  split.
  - apply (proj1 (city_area_without_refinement None None only_textsearch initial));
      reflexivity.
  - eexists.
    apply (proj2 (city_area_without_refinement (Some "Ahmedabad") None
                    only_textsearch initial) (JInt 23) (JInt 72)).
    + reflexivity.
    + vm_compute. reflexivity.
    + right. reflexivity.
Defined.

(** X8 at the jammed "ljuniversity", a 7-bit text. *)
Lemma normalize_keeps_characters_witness :
  isascii "ljuniversity" = true
  /\ lower (unblank (_normalize_place_text "ljuniversity"))
     = lower (unblank "ljuniversity").
Proof.
  split; [reflexivity|].
  apply (normalize_keeps_characters "ljuniversity" eq_refl).
Defined.

Lemma area_variants_spec_witness :
  (exists rest, area_variants "SalUniversity" = "SalUniversity" :: rest
                /\ List.length rest <= 1)
  /\ "Sal University" <> "" /\ unspace "Sal University" = unspace "SalUniversity".
Proof.
  split.
  - apply (proj1 (area_variants_spec "SalUniversity")). discriminate.
  - apply (proj2 (area_variants_spec "SalUniversity") "Sal University").
    vm_compute. right. left. reflexivity.
Defined.

Lemma nearest_ranks_first_witness :
  let b := ranked_entry "b" 2 2 300 2000 in
  let a := ranked_entry "a" 1 1 600 5000 in
  let body := JDict [("origin", origin_dict (inject_Z 7) (inject_Z 9));
                     ("places", JList [b; a]); ("nearest", b)] in
  exists kv ranked,
    body = JDict kv
    /\ lookup "places" kv = Some (JList ranked)
    /\ (forall x rest, ranked = x :: rest -> lookup "nearest" kv = Some x)
    /\ (Forall (fun x => has_numeric_key x = true) ranked ->
        StronglySorted ranks_before ranked
        /\ forall x rest, ranked = x :: rest -> Forall (ranks_before x) rest).
Proof.
  intros b a body.
  apply (nearest_ranks_first whole_number
           (Query None (Some "7") (Some "9") None None) two_dump_yards initial
           (State [NearbySearch (inject_Z 7) (inject_Z 9) 15000;
                   DistanceMatrix (inject_Z 7, inject_Z 9)
                     [(JInt 1, JInt 1); (JInt 2, JInt 2)]] [])).
  vm_compute. reflexivity.
Defined.

Lemma ranked_within_candidates_witness :
  List.length [ranked_entry "b" 2 2 300 2000; ranked_entry "a" 1 1 600 5000]
  <= List.length [place "a" 1 1; place "b" 2 2; place "c" 3 3].
Proof.
  apply (ranked_within_candidates 0 0
           (JList [place "a" 1 1; place "b" 2 2; place "c" 3 3])
           [place "a" 1 1; place "b" 2 2; place "c" 3 3]
           [ranked_entry "b" 2 2 300 2000; ranked_entry "a" 1 1 600 5000]
           (distances [element_ok 600 5000; element_ok 300 2000; element_zero_results])
           initial
           (State [DistanceMatrix (0%Q, 0%Q)
                     [(JInt 1, JInt 1); (JInt 2, JInt 2); (JInt 3, JInt 3)]] [])).
  - reflexivity.
  - vm_compute. reflexivity.
Defined.

Lemma candidate_without_location_stops_ranking_witness :
  exists e,
    _distance_matrix 0 0 (JList [place "a" 1 1; nameless_place])
      (distances [element_ok 600 5000]) initial
    = (Raise e, initial).
Proof.
  apply (candidate_without_location_stops_ranking 0 0
           (JList [place "a" 1 1; nameless_place]) [place "a" 1 1; nameless_place]).
  - reflexivity.
  - reflexivity.
  - apply Exists_cons_tl, Exists_cons_hd. exists (KeyError "geometry"). reflexivity.
Defined.

Lemma answer_beyond_candidates_is_index_error_witness :
  exists st',
    _distance_matrix 0 0 (JList [place "a" 1 1])
      (distances [element_ok 600 5000; element_ok 300 2000]) initial
    = (Raise IndexError, st').
Proof.
  apply (answer_beyond_candidates_is_index_error 0 0 [place "a" 1 1]
           (distances [element_ok 600 5000; element_ok 300 2000]) initial 200
           (JDict [("rows",
                    JList [JDict [("elements",
                                   JList [element_ok 600 5000; element_ok 300 2000])]])])
           [element_ok 600 5000; element_ok 300 2000] 1 (element_ok 300 2000)).
  - discriminate.
  - repeat constructor; try (eexists; reflexivity).
    do 2 eexists. split; reflexivity.
  - reflexivity.
  - reflexivity.
  - repeat apply Forall_cons; try apply Forall_nil;
      (split; [eexists; reflexivity | intros _; do 6 eexists; repeat split; reflexivity]).
  - reflexivity.
  - reflexivity.
  - cbn. lia.
Defined.

End PipelineFacts.

(** ** Blanks around a text *)

Module TextFacts.
Import StrFacts.

Lemma starts_nonblank_lstrip s : starts_nonblank (lstrip s) = true.
Proof.
  induction s as [|c s IH]; [reflexivity|]. cbn [lstrip].
  destruct (is_space c) eqn:E; [exact IH|]. cbn [starts_nonblank]. now rewrite E.
Qed.

Lemma starts_nonblank_rstrip s :
  starts_nonblank s = true -> starts_nonblank (rstrip s) = true.
Proof.
  destruct s as [|c s]; [reflexivity|]. cbn [starts_nonblank rstrip]. intros H.
  destruct (rstrip s); [|exact H].
  apply negb_true_iff in H. rewrite H. cbn [starts_nonblank]. now rewrite H.
Qed.

Lemma ends_nonblank_rstrip s : ends_nonblank (rstrip s) = true.
Proof.
  induction s as [|c s IH]; [reflexivity|]. cbn [rstrip].
  destruct (rstrip s) as [|d r] eqn:E.
  - destruct (is_space c) eqn:Ec; [reflexivity|]. cbn [ends_nonblank]. now rewrite Ec.
  - exact IH.
Qed.

Lemma strip_idem s : strip (strip s) = strip s.
Proof.
  apply strip_fixed; unfold strip.
  - apply starts_nonblank_rstrip, starts_nonblank_lstrip.
  - apply ends_nonblank_rstrip.
Qed.

Lemma blank_append a b :
  forallb_str is_space (a ++ b) = forallb_str is_space a && forallb_str is_space b.
Proof.
  induction a as [|c a IH]; [reflexivity|]. cbn [append forallb_str].
  now rewrite IH, andb_assoc.
Qed.

Lemma lstrip_blank_prefix pre y :
  forallb_str is_space pre = true -> lstrip (pre ++ y) = lstrip y.
Proof.
  induction pre as [|c pre IH]; [reflexivity|]. cbn [forallb_str append lstrip].
  intros H. apply andb_true_iff in H as [-> H]. now apply IH.
Qed.

Lemma rstrip_blank_suffix y post :
  forallb_str is_space post = true -> rstrip (y ++ post) = rstrip y.
Proof.
  intros H. induction y as [|c y IH].
  - now apply PipelineFacts.rstrip_all_blank.
  - cbn [append rstrip]. now rewrite IH.
Qed.

Lemma lstrip_append x post :
  forallb_str is_space x = false -> lstrip (x ++ post) = (lstrip x ++ post)%string.
Proof.
  induction x as [|c x IH]; [discriminate|]. cbn [forallb_str append lstrip].
  destruct (is_space c); [exact IH | reflexivity].
Qed.

Lemma strip_padded pre x post :
  forallb_str is_space pre = true -> forallb_str is_space post = true ->
  strip (pre ++ x ++ post) = strip x.
Proof.
  intros Hpre Hpost. unfold strip. rewrite lstrip_blank_prefix by assumption.
  destruct (forallb_str is_space x) eqn:E.
  - fold (strip (x ++ post)). fold (strip x).
    rewrite !PipelineFacts.strip_all_blank; [reflexivity | assumption |].
    now rewrite blank_append, E.
  - rewrite lstrip_append by assumption. now apply rstrip_blank_suffix.
Qed.

Lemma lstrip_map_str f s :
  (forall c, is_space (f c) = is_space c) -> lstrip (map_str f s) = map_str f (lstrip s).
Proof.
  intros Hf. induction s as [|c s IH]; [reflexivity|]. cbn [map_str lstrip].
  rewrite Hf. now destruct (is_space c).
Qed.

Lemma rstrip_map_str f s :
  (forall c, is_space (f c) = is_space c) -> rstrip (map_str f s) = map_str f (rstrip s).
Proof.
  intros Hf. induction s as [|c s IH]; [reflexivity|]. cbn [map_str rstrip].
  rewrite IH, Hf. destruct (rstrip s); cbn [map_str]; [|reflexivity].
  now destruct (is_space c).
Qed.

Lemma lower_strip_upper s : lower (strip (upper s)) = lower (strip s).
Proof.
  unfold strip, upper.
  rewrite lstrip_map_str, rstrip_map_str by apply is_space_to_upper.
  unfold lower. generalize (rstrip (lstrip s)). intros x.
  induction x as [|c x IH]; [reflexivity|]. cbn [map_str].
  now rewrite to_lower_to_upper, IH.
Qed.

End TextFacts.

(** ** Dictionaries in insertion order *)

Module DictFacts.
Section Dict.

Context {K V : Type} (eqb : K -> K -> bool).
Hypothesis eqb_spec : forall a b, reflect (a = b) (eqb a b).

Lemma find_in k (d : list (K * V)) v : Dict.find eqb k d = Some v -> In (k, v) d.
Proof.
  induction d as [|[k' v'] d IH]; [discriminate|]. cbn [Dict.find].
  destruct (eqb_spec k k') as [->|Hne].
  - intros [= ->]. now left.
  - intros H. right. now apply IH.
Qed.

Lemma find_none k (d : list (K * V)) :
  Dict.find eqb k d = None -> ~ In k (map fst d).
Proof.
  induction d as [|[k' v'] d IH]; [intros _ []|]. cbn [Dict.find map fst].
  destruct (eqb_spec k k') as [->|Hne]; [discriminate|].
  intros H [Heq|Hin]; [congruence | now apply IH].
Qed.

Lemma in_find k (d : list (K * V)) v :
  NoDup (map fst d) -> In (k, v) d -> Dict.find eqb k d = Some v.
Proof.
  induction d as [|[k' v'] d IH]; [intros _ []|]. cbn [map fst Dict.find].
  intros Hnd [Heq|Hin].
  - injection Heq as -> ->. now destruct (eqb_spec k k).
  - inversion Hnd as [|? ? Hnotin Hnd']; subst.
    destruct (eqb_spec k k') as [->|Hne].
    + exfalso. apply Hnotin. now apply (in_map fst) in Hin.
    + now apply IH.
Qed.

Lemma find_store k v (d : list (K * V)) k' :
  Dict.find eqb k' (Dict.store eqb k v d)
  = if eqb k' k then Some v else Dict.find eqb k' d.
Proof.
  induction d as [|[k0 v0] d IH]; cbn [Dict.store Dict.find].
  - reflexivity.
  - destruct (eqb_spec k k0) as [->|Hne]; cbn [Dict.find].
    + now destruct (eqb k' k0).
    + rewrite IH. destruct (eqb_spec k' k0) as [->|Hne']; [|reflexivity].
      destruct (eqb_spec k0 k); [congruence | reflexivity].
Qed.

Lemma keys_store k v (d : list (K * V)) :
  map fst (Dict.store eqb k v d)
  = match Dict.find eqb k d with
    | Some _ => map fst d
    | None => map fst d ++ [k]
    end.
Proof.
  induction d as [|[k0 v0] d IH]; cbn [Dict.store Dict.find map fst app];
    [reflexivity|].
  destruct (eqb_spec k k0) as [->|Hne]; cbn [map fst]; [reflexivity|].
  rewrite IH. now destruct (Dict.find eqb k d).
Qed.

Lemma keys_store_nodup k v (d : list (K * V)) :
  NoDup (map fst d) -> NoDup (map fst (Dict.store eqb k v d)).
Proof.
  intros Hnd. rewrite keys_store. destruct (Dict.find eqb k d) eqn:E; [exact Hnd|].
  apply NoDup_app; [exact Hnd | repeat constructor; intros [] |].
  intros k' Hk [<-|[]]. now apply (find_none k d).
Qed.

End Dict.
End DictFacts.

(** ** Python floats *)

Module PyFloatFacts.
Import PyFloat.

Lemma Qle_bool_total x y : Qle_bool x y = false -> Qle_bool y x = true.
Proof.
  intros H. apply Qle_bool_iff. destruct (Qlt_le_dec y x) as [Hlt|Hle].
  - now apply Qlt_le_weak.
  - apply Qle_bool_iff in Hle. congruence.
Qed.

Lemma le_not_nan a b : le a b = true -> is_nan a = false /\ is_nan b = false.
Proof. destruct a, b; cbn; intros H; try discriminate H; auto. Qed.

Lemma lt_not_nan a b : lt a b = true -> is_nan a = false /\ is_nan b = false.
Proof. destruct a, b; cbn; intros H; try discriminate H; auto. Qed.

Lemma le_refl a : is_nan a = false -> le a a = true.
Proof.
  destruct a as [x|[]|]; cbn; intros H; try discriminate H; try reflexivity.
  apply Qle_bool_iff, Qle_refl.
Qed.

Lemma le_trans a b c : le a b = true -> le b c = true -> le a c = true.
Proof.
  destruct a as [x|[]|], b as [y|[]|], c as [z|[]|]; cbn;
    intros H1 H2; try discriminate; try reflexivity.
  apply Qle_bool_iff in H1, H2. apply Qle_bool_iff. now apply Qle_trans with y.
Qed.

Lemma lt_le a b : lt a b = true -> le a b = true.
Proof.
  destruct a as [x|[]|], b as [y|[]|]; cbn; intros H;
    try discriminate; try reflexivity.
  apply negb_true_iff in H. now apply Qle_bool_total.
Qed.

(** Among floats that are not NaN, [a < b] or [b <= a]. *)
Lemma not_lt_le a b :
  is_nan a = false -> is_nan b = false -> lt a b = false -> le b a = true.
Proof.
  destruct a as [x|[]|], b as [y|[]|]; cbn; intros Ha Hb H;
    try discriminate; try reflexivity.
  now apply negb_false_iff in H.
Qed.

(** Among floats that are not NaN, [a <= b] or [b < a], and not both. *)
Lemma not_le_lt a b :
  is_nan a = false -> is_nan b = false -> le a b = false -> lt b a = true.
Proof.
  destruct a as [x|[]|], b as [y|[]|]; cbn; intros Ha Hb H;
    try discriminate; try reflexivity.
  now apply negb_true_iff.
Qed.

Lemma lt_not_le a b : lt a b = true -> le b a = false.
Proof.
  destruct a as [x|[]|], b as [y|[]|]; cbn; intros H;
    try discriminate; try reflexivity.
  now apply negb_true_iff in H.
Qed.

Lemma not_le_zero_nonzero a : le a (Finite 0) = false -> nonzero a = true.
Proof.
  destruct a as [x| |]; cbn; intros H; try reflexivity.
  apply negb_true_iff. destruct (Qeq_bool x 0) eqn:E; [|reflexivity].
  apply Qeq_bool_iff in E.
  assert (Qle_bool x 0 = true) by (apply Qle_bool_iff; rewrite E; apply Qle_refl).
  congruence.
Qed.

End PyFloatFacts.

(** ** Sorting by a float, highest first *)

Module DescendingFacts.
Section Sort.

Context {A : Type} (key : A -> PyFloat.float).

Lemma insert_perm x l : Permutation (x :: l) (Descending.insert key x l).
Proof.
  induction l as [|y l IH]; cbn [Descending.insert]; [reflexivity|].
  destruct (PyFloat.lt (key x) (key y)); [|reflexivity].
  rewrite perm_swap. now constructor.
Qed.

Lemma sorted_perm l : Permutation l (Descending.sorted key l).
Proof.
  induction l as [|x l IH]; cbn [Descending.sorted]; [constructor|].
  rewrite <- insert_perm. now constructor.
Qed.

Lemma insert_sorted x l :
  PyFloat.is_nan (key x) = false ->
  Forall (fun y => PyFloat.is_nan (key y) = false) l ->
  StronglySorted (Descending.before key) l ->
  StronglySorted (Descending.before key) (Descending.insert key x l).
Proof.
  intros Hx Hl Hs. induction Hs as [|y l Hs IH Hall]; cbn [Descending.insert].
  - repeat constructor.
  - inversion Hl as [|? ? Hy Hl']; subst.
    destruct (PyFloat.lt (key x) (key y)) eqn:E.
    + constructor; [now apply IH|]. rewrite Forall_forall in *. intros z Hz.
      apply (Permutation_in _ (Permutation_sym (insert_perm x l))) in Hz.
      destruct Hz as [<-|Hz]; [now apply PyFloatFacts.lt_le | now apply Hall].
    + apply PyFloatFacts.not_lt_le in E; [|assumption|assumption].
      constructor; [now constructor|].
      constructor; [exact E|]. rewrite Forall_forall in *. intros z Hz.
      unfold Descending.before. apply (PyFloatFacts.le_trans _ (key y)); [now apply Hall | exact E].
Qed.

(** Without a NaN among the keys the result falls from left to right. *)
Lemma sorted_sorted l :
  Forall (fun y => PyFloat.is_nan (key y) = false) l ->
  StronglySorted (Descending.before key) (Descending.sorted key l).
Proof.
  induction 1 as [|x l Hx Hl IH]; cbn [Descending.sorted]; [constructor|].
  apply insert_sorted; [exact Hx | | exact IH].
  eapply Permutation_Forall; [apply sorted_perm | exact Hl].
Qed.

End Sort.
End DescendingFacts.

(** ** The scrap-price page *)

Module ScrapPriceFacts.
Import PyFloat ScrapPrice.

Section WithConversions.

Variable cv : conversions.


Lemma aggregated_more seen d r :
  aggregated cv seen d ->
  (forall site price, ~ offers cv r site price) ->
  aggregated cv (seen ++ [r]) d.
Proof.
  intros (Hnd & Hfrom & Hbest) Hno. split; [exact Hnd|]. split.
  - intros s p H. destruct (Hfrom s p H) as (r0 & Hin & Ho).
    exists r0. split; [apply in_or_app; now left | exact Ho].
  - intros r0 s p Hin Ho. apply in_app_or in Hin as [Hin|[<-|[]]].
    + now apply (Hbest r0).
    + now apply Hno in Ho.
Qed.

Lemma record_row_aggregated seen d r :
  aggregated cv seen d -> aggregated cv (seen ++ [r]) (record_row cv d r).
Proof.
  intros Hagg. pose proof Hagg as (Hnd & Hfrom & Hbest).
  unfold record_row.
  destruct (site_and_price cv r) as [[site price]|] eqn:E.
  2:{ apply aggregated_more; [exact Hagg|]. intros s p [Ho _]. congruence. }
  destruct (String.eqb_spec site "") as [->|Hne].
  { apply aggregated_more; [exact Hagg|]. intros s p [Ho Hs].
    rewrite E in Ho. injection Ho as <- <-. contradiction. }
  assert (Ho : offers cv r site price) by now split.
  assert (Hset : (forall old, Dict.find String.eqb site d = Some old ->
                              lt old price = true) ->
                 aggregated cv (seen ++ [r]) (Dict.store String.eqb site price d)).
  { intros Hlt. split; [|split].
    - now apply (DictFacts.keys_store_nodup String.eqb String.eqb_spec).
    - intros s p. rewrite (DictFacts.find_store String.eqb String.eqb_spec).
      destruct (String.eqb_spec s site) as [->|Hns].
      + intros [= <-]. exists r. split; [apply in_or_app; right; now left | exact Ho].
      + intros H. destruct (Hfrom s p H) as (r0 & Hin & Ho0).
        exists r0. split; [apply in_or_app; now left | exact Ho0].
    - intros r0 s p Hin Ho0. rewrite (DictFacts.find_store String.eqb String.eqb_spec).
      destruct (String.eqb_spec s site) as [->|Hns].
      + exists price. split; [reflexivity|]. intros Hnb Hnp.
        apply in_app_or in Hin as [Hin|[<-|[]]].
        * destruct (Hbest r0 site p Hin Ho0) as (best & Hl & Hp).
          pose proof (Hlt best Hl) as Hlt'.
          apply (PyFloatFacts.le_trans _ best).
          -- apply Hp; [|exact Hnp]. now apply PyFloatFacts.lt_not_nan in Hlt'.
          -- now apply PyFloatFacts.lt_le.
        * destruct Ho0 as [Ho0 _]. rewrite E in Ho0. injection Ho0 as <-.
          now apply PyFloatFacts.le_refl.
      + apply in_app_or in Hin as [Hin|[<-|[]]].
        * now apply (Hbest r0).
        * destruct Ho0 as [Ho0 _]. rewrite E in Ho0. injection Ho0 as <- _.
          contradiction. }
  destruct (Dict.find String.eqb site d) as [old|] eqn:El.
  - destruct (gt price old) eqn:Eg.
    + apply Hset. now intros best [= <-].
    + split; [exact Hnd|]. split.
      * intros s p H. destruct (Hfrom s p H) as (r0 & Hin & Ho0).
        exists r0. split; [apply in_or_app; now left | exact Ho0].
      * intros r0 s p Hin Ho0. apply in_app_or in Hin as [Hin|[<-|[]]].
        -- now apply (Hbest r0).
        -- destruct Ho0 as [Ho0 _]. rewrite E in Ho0. injection Ho0 as <- <-.
           exists old. split; [exact El|]. intros Hnb Hnp.
           now apply PyFloatFacts.not_lt_le.
  - apply Hset. discriminate.
Qed.

Lemma fold_record_row_aggregated rows : forall seen d,
  aggregated cv seen d ->
  aggregated cv (seen ++ rows) (fold_left (record_row cv) rows d).
Proof.
  induction rows as [|r rows IH]; intros seen d H; cbn [fold_left].
  - now rewrite app_nil_r.
  - replace (seen ++ r :: rows) with ((seen ++ [r]) ++ rows)
      by now rewrite <- app_assoc.
    apply IH. now apply record_row_aggregated.
Qed.

Lemma site_to_price_aggregated (rows : list row) :
  aggregated cv rows (site_to_price cv rows).
Proof.
  apply (fold_record_row_aggregated rows [] []).
  split; [constructor|]. split; [discriminate | intros ? ? ? []].
Qed.

(** The entries of the dictionary, read as a list. *)
Lemma aggregated_entries seen d :
  aggregated cv seen d ->
  (forall site price, In (site, price) d ->
     exists r, In r seen /\ offers cv r site price)
  /\ (forall r site price, In r seen -> offers cv r site price ->
        exists best,
          In (site, best) d
          /\ (is_nan best = false -> is_nan price = false -> le price best = true)).
Proof.
  intros (Hnd & Hfrom & Hbest). split.
  - intros site price Hin. apply Hfrom.
    now apply (DictFacts.in_find String.eqb String.eqb_spec).
  - intros r site price Hin Ho. destruct (Hbest r site price Hin Ho) as (best & Hl & Hp).
    exists best. split; [|exact Hp].
    now apply (DictFacts.find_in String.eqb String.eqb_spec).
Qed.

(** X14. The per-site prices of the scrap-price page: the sites are
    distinct; every entry is the site and price of some row; and for every
    row that (offers cv) a price at a named site, the entry of that site is at
    least that price, unless one of the two is NaN.  So each site is listed
    once, and when no row (offers cv) NaN, with the highest price its rows
    offer. *)
Theorem site_to_price_is_best_per_site (rows : list row) :
  let d := site_to_price cv rows in
  NoDup (map fst d)
  /\ (forall site price, In (site, price) d ->
        exists r, In r rows /\ offers cv r site price)
  /\ (forall r site price, In r rows -> offers cv r site price ->
        exists best,
          In (site, best) d
          /\ (is_nan best = false -> is_nan price = false -> le price best = true))
  /\ ((forall r site price, In r rows -> offers cv r site price -> is_nan price = false) ->
      forall r site price, In r rows -> offers cv r site price ->
        exists best, In (site, best) d /\ le price best = true).
Proof.
  intros d. pose proof (site_to_price_aggregated rows) as H. fold d in H.
  split; [exact (proj1 H)|].
  destruct (aggregated_entries rows d H) as [Hfrom Hbest].
  split; [exact Hfrom|]. split; [exact Hbest|].
  intros Hnan r site price Hin Ho.
  destruct (Hbest r site price Hin Ho) as (best & Hb & Hle).
  exists best. split; [exact Hb|]. apply Hle.
  - destruct (Hfrom site best Hb) as (r0 & Hin0 & Ho0). exact (Hnan r0 site best Hin0 Ho0).
  - exact (Hnan r site price Hin Ho).
Qed.

Lemma sorted_prices (l : list (string * float)) :
  StronglySorted (Descending.before snd) l ->
  StronglySorted (fun a b : float => le b a = true) (map snd l).
Proof.
  induction 1 as [|y l Hs IH Hall]; cbn [map]; constructor; [exact IH|].
  rewrite Forall_forall in *. intros p Hp. apply in_map_iff in Hp as (z & <- & Hz).
  now apply Hall.
Qed.

Variable query_scrap_prices : string -> option (list row).

(** The highest price is the first entry of the sorted dictionary. *)
Lemma best_entry (get_item post_item get_weight post_weight : option string) (m : float) :
  let ctx := scrap_price cv query_scrap_prices get_item post_item get_weight post_weight in
  (forall r site price, In r (table ctx) -> offers cv r site price -> is_nan price = false) ->
  max_price ctx = Some m ->
  exists top,
    top_site ctx = Some top
    /\ In (top, m) (site_to_price cv (table ctx))
    /\ forall site p, In (site, p) (site_to_price cv (table ctx)) -> le p m = true.
Proof.
  intros ctx. unfold ctx, scrap_price. cbn [max_price top_site table].
  set (rows := match query_scrap_prices _ with Some rows => rows | None => [] end).
  intros Hnan.
  destruct (aggregated_entries rows _ (site_to_price_aggregated rows)) as [Hfrom _].
  assert (Hkeys : Forall (fun e : string * float => is_nan (snd e) = false)
                         (site_to_price cv rows)).
  { apply Forall_forall. intros [s p] Hin. cbn [snd].
    destruct (Hfrom s p Hin) as (r & Hr & Ho). exact (Hnan r s p Hr Ho). }
  pose proof (DescendingFacts.sorted_perm snd (site_to_price cv rows)) as Hperm.
  pose proof (DescendingFacts.sorted_sorted snd (site_to_price cv rows) Hkeys) as Hsorted.
  remember (Descending.sorted snd (site_to_price cv rows)) as l eqn:El.
  clear El. destruct l as [|[s p] l]; [discriminate|].
  cbn [map fst snd]. intros [= ->]. exists s. split; [reflexivity|]. split.
  - apply (Permutation_in _ (Permutation_sym Hperm)). now left.
  - intros site p Hin. pose proof Hin as Hin0. apply (Permutation_in _ Hperm) in Hin.
    destruct Hin as [[= _ <-]|Hin].
    + apply PyFloatFacts.le_refl. rewrite Forall_forall in Hkeys.
      exact (Hkeys _ Hin0).
    + inversion Hsorted as [|? ? _ Hall]; subst. rewrite Forall_forall in Hall.
      exact (Hall _ Hin).
Qed.

(** X15. The best offer of the scrap-price page, for a table in which no row
    offers cv NaN.  The sites of the chart are distinct and its prices fall from
    left to right.  When there is no highest price there is no top site and
    no total value, and no row of the table (offers cv) anything.  Otherwise the
    highest price is offered by the top site in some row of the table, no
    row (offers cv) more at any named site, and the total value is the product of
    the given weight and that price, when a weight is given and reads as a
    number. *)
Theorem best_offer_on_page (get_item post_item get_weight post_weight : option string) :
  let ctx := scrap_price cv query_scrap_prices get_item post_item get_weight post_weight in
  (forall r site price, In r (table ctx) -> offers cv r site price -> is_nan price = false) ->
  NoDup (site_labels ctx)
  /\ StronglySorted (fun a b : float => le b a = true) (site_prices ctx)
  /\ (max_price ctx = None ->
      top_site ctx = None /\ total_value ctx = None
      /\ forall r site price, In r (table ctx) -> ~ offers cv r site price)
  /\ (forall m, max_price ctx = Some m ->
        (exists top r, top_site ctx = Some top /\ In r (table ctx)
                       /\ offers cv r top m)
        /\ (forall r site price,
              In r (table ctx) -> offers cv r site price -> le price m = true)
        /\ total_value ctx
           = if (weight ctx =? "")%string then None
             else option_map (fun w => mul cv w m) (float_of_str cv (weight ctx))).
Proof.
  intros ctx. unfold ctx, scrap_price.
  cbn [site_labels site_prices max_price top_site total_value table weight].
  set (rows := match query_scrap_prices _ with Some rows => rows | None => [] end).
  set (wt := param get_weight post_weight).
  intros Hnan.
  pose proof (site_to_price_aggregated rows) as Hagg.
  destruct (aggregated_entries rows _ Hagg) as [Hfrom Hbest].
  destruct Hagg as [Hnd _].
  assert (Hkeys : Forall (fun e : string * float => is_nan (snd e) = false)
                         (site_to_price cv rows)).
  { apply Forall_forall. intros [s p] Hin. cbn [snd].
    destruct (Hfrom s p Hin) as (r & Hr & Ho). exact (Hnan r s p Hr Ho). }
  pose proof (DescendingFacts.sorted_perm snd (site_to_price cv rows)) as Hperm.
  pose proof (DescendingFacts.sorted_sorted snd (site_to_price cv rows) Hkeys) as Hsorted.
  remember (Descending.sorted snd (site_to_price cv rows)) as l eqn:El.
  clear El. split; [|split; [|split]].
  - apply (Permutation_NoDup (Permutation_map fst Hperm) Hnd).
  - now apply sorted_prices.
  - destruct l as [|[s p] l]; [|discriminate]. intros _.
    split; [reflexivity|]. split.
    + unfold value_of. destruct (wt =? "")%string; [reflexivity|].
      now destruct (float_of_str cv wt).
    + intros r site price Hin Ho. destruct (Hbest r site price Hin Ho) as (best & Hb & _).
      apply (Permutation_in _ Hperm) in Hb. destruct Hb.
  - intros m Hm. destruct l as [|[s p] l]; [discriminate|].
    cbn [map fst snd] in *. injection Hm as ->. split; [|split].
    + destruct (Hfrom s m) as (r & Hin & Ho).
      { apply (Permutation_in _ (Permutation_sym Hperm)). now left. }
      now exists s, r.
    + intros r site price Hin Ho. destruct (Hbest r site price Hin Ho) as (best & Hb & Hle).
      assert (Hnb : is_nan best = false).
      { rewrite Forall_forall in Hkeys. exact (Hkeys _ Hb). }
      specialize (Hle Hnb (Hnan r site price Hin Ho)).
      apply (Permutation_in _ Hperm) in Hb. destruct Hb as [[= _ <-]|Hb]; [exact Hle|].
      inversion Hsorted as [|? ? _ Hall]; subst. rewrite Forall_forall in Hall.
      apply (PyFloatFacts.le_trans _ best); [exact Hle | exact (Hall _ Hb)].
    + unfold value_of. destruct (wt =? "")%string; [reflexivity|].
      now destruct (float_of_str cv wt).
Qed.

End WithConversions.

Lemma site_to_price_is_best_per_site_witness :
  let rows := [offer "A" 20; offer "B" 35; offer " A " 28] in
  exists best,
    In ("A", best) (site_to_price exact rows)
    /\ le (Finite (inject_Z 20)) best = true.
Proof.
  intros rows.
  apply (proj2 (proj2 (proj2 (site_to_price_is_best_per_site exact rows))))
    with (r := offer "A" 20).
  - intros r site price [<-|[<-|[<-|[]]]] [[= _ <-] _]; reflexivity.
  - left. reflexivity.
  - split; [reflexivity | discriminate].
Defined.

Lemma best_offer_on_page_witness :
  let ctx := scrap_price exact price_list
               (Some "iron") None (Some " 2 ") None in
  NoDup (site_labels ctx)
  /\ StronglySorted (fun a b : float => le b a = true) (site_prices ctx)
  /\ (max_price ctx = None ->
      top_site ctx = None /\ total_value ctx = None
      /\ forall r site price,
           In r (table ctx) -> ~ offers exact r site price)
  /\ (forall m, max_price ctx = Some m ->
        (exists top r, top_site ctx = Some top /\ In r (table ctx)
                       /\ offers exact r top m)
        /\ (forall r site price,
              In r (table ctx) -> offers exact r site price ->
              le price m = true)
        /\ total_value ctx
           = if (weight ctx =? "")%string then None
             else option_map (fun w => exact_mul w m) (whole_float (weight ctx))).
Proof.
  intros ctx.
  apply (best_offer_on_page exact price_list
           (Some "iron") None (Some " 2 ") None).
  intros r site price [<-|[<-|[<-|[]]]] [[= _ <-] _]; reflexivity.
Defined.

End ScrapPriceFacts.

(** ** The contact page *)

Module ContactFacts.
Import StrFacts TextFacts Contact.

Lemma field_trimmed v : trimmed (field v).
Proof. apply strip_idem. Qed.

Section WithDatabase.

Variable int_of_str : string -> option Z.
Variable refuses : row -> option string.

Lemma create_outcome r on_success store :
  succeeded on_success = true -> failed on_success = false ->
  let '(ctx, store') := create refuses r on_success store in
  (store' = store ++ [r] /\ succeeded ctx = true /\ failed ctx = false
   /\ refuses r = None)
  \/ (store' = store /\ succeeded ctx = false /\ failed ctx = true
      /\ form_error ctx <> None).
Proof.
  intros Hs Hf. unfold create. destruct (refuses r) as [e|].
  - right. repeat split. discriminate.
  - left. repeat split; assumption.
Qed.

(** X16. What the contact page stores and reports.  A request adds at most
    one row.  A row is added only when the database takes it, and then it is
    acceptable -- a contact message with a name, an address and a text, or a
    feedback with a name and a rating from 1 to 5, all texts without blanks
    around them -- and the page reports a success and no error.  When no row
    is added no success is reported, and an error is reported exactly when a
    contact or feedback form was posted. *)
Theorem contact_stores_acceptable_rows
    (posted : option form) (store : list row) :
  let '(ctx, store') := contact int_of_str refuses posted store in
  (store' = store /\ succeeded ctx = false /\ failed ctx = known_form posted)
  \/ exists r, store' = store ++ [r] /\ acceptable r /\ refuses r = None
               /\ succeeded ctx = true /\ failed ctx = false.
Proof.
  unfold contact, known_form. destruct posted as [post|]; [|now left].
  destruct (field (p_form_type post) =? "contact")%string.
  - cbn [orb].
    destruct (field (p_name post) =? "")%string eqn:En; [now left|].
    destruct (field (p_email post) =? "")%string eqn:Ee; [now left|].
    destruct (field (p_message post) =? "")%string eqn:Em; [now left|].
    cbn [negb andb].
    match goal with |- context [create refuses ?r ?c store] =>
      pose proof (create_outcome r c store eq_refl eq_refl) as H;
      destruct (create refuses r c store) as [ctx store'] end.
    destruct H as [(-> & Hs & Hf & Hr)|(-> & Hs & Hf & _)]; [|now left].
    right. eexists. split; [reflexivity|]. split; [|now repeat split].
    apply String.eqb_neq in En, Ee, Em.
    repeat split; auto using field_trimmed.
  - destruct (field (p_form_type post) =? "feedback")%string; [|now left].
    cbn [orb].
    destruct (field (p_name post) =? "")%string eqn:En; [now left|].
    cbn [orb].
    destruct (in_range match int_of_str (field (p_rating post)) with
                       | Some n => n | None => 0%Z end) eqn:Er; [|now left].
    cbn [negb].
    match goal with |- context [create refuses ?r ?c store] =>
      pose proof (create_outcome r c store eq_refl eq_refl) as H;
      destruct (create refuses r c store) as [ctx store'] end.
    destruct H as [(-> & Hs & Hf & Hr)|(-> & Hs & Hf & _)]; [|now left].
    right. eexists. split; [reflexivity|]. split; [|now repeat split].
    apply String.eqb_neq in En. unfold in_range in Er.
    apply andb_true_iff in Er as [H1 H2]. apply Z.leb_le in H1, H2.
    repeat split; auto using field_trimmed.
Qed.

End WithDatabase.

Lemma contact_stores_acceptable_rows_witness :
  exists r,
    snd (contact whole accepts_all
           (Some (Form (Some "feedback") (Some " Asha ") None None (Some "4") None)) [])
    = [] ++ [r]
    /\ acceptable r.
Proof.
  pose proof (contact_stores_acceptable_rows whole accepts_all
                (Some (Form (Some "feedback") (Some " Asha ") None None (Some "4") None))
                []) as H.
  destruct (contact whole accepts_all
              (Some (Form (Some "feedback") (Some " Asha ") None None (Some "4") None))
              []) as [ctx store'] eqn:E.
  vm_compute in E. injection E as <- <-.
  destruct H as [(H & _)|(r & Hr & Ha & _)]; [discriminate H|].
  exists r. now split.
Defined.

End ContactFacts.
(** ** The rows of the price list *)

Module ScraperFacts.
Import Scraper.

Lemma key_eqb_spec a b : reflect (a = b) (key_eqb a b).
Proof.
  destruct a as [a1 a2], b as [b1 b2]. unfold key_eqb. cbn [fst snd].
  destruct (String.eqb_spec a1 b1) as [->|H1], (String.eqb_spec a2 b2) as [->|H2];
    constructor; congruence.
Qed.

Lemma with_key_snoc k seen r :
  with_key k (seen ++ [r])
  = with_key k seen ++ (if key_eqb (key r) k then [r] else []).
Proof.
  unfold with_key. rewrite filter_app. cbn [filter].
  now destruct (key_eqb (key r) k).
Qed.

Lemma choice_other k seen r :
  key_eqb (key r) k = false -> choice k (seen ++ [r]) = choice k seen.
Proof.
  intros H. unfold choice. now rewrite with_key_snoc, H, app_nil_r.
Qed.

Lemma choice_priced seen r :
  priced r = true -> choice (key r) (seen ++ [r]) = Some r.
Proof.
  intros H. unfold choice. rewrite with_key_snoc.
  destruct (key_eqb_spec (key r) (key r)) as [_|Hne]; [|contradiction].
  rewrite filter_app. cbn [filter]. rewrite H, rev_app_distr. reflexivity.
Qed.

Lemma choice_unpriced seen r :
  priced r = false ->
  choice (key r) (seen ++ [r])
  = match choice (key r) seen with Some r0 => Some r0 | None => Some r end.
Proof.
  intros H. unfold choice. rewrite with_key_snoc.
  destruct (key_eqb_spec (key r) (key r)) as [_|Hne]; [|contradiction].
  rewrite filter_app. cbn [filter]. rewrite H, app_nil_r.
  destruct (rev (filter priced (with_key (key r) seen))) as [|r0 l] eqn:E;
    [|reflexivity].
  now destruct (with_key (key r) seen).
Qed.

Lemma choice_in k rows r : choice k rows = Some r -> In r rows /\ key r = k.
Proof.
  unfold choice. intros H.
  assert (Hin : In r (with_key k rows)).
  { destruct (rev (filter priced (with_key k rows))) as [|r0 l] eqn:E.
    - destruct (with_key k rows); [discriminate|]. injection H as ->. now left.
    - injection H as ->.
      assert (Hr : In r (rev (filter priced (with_key k rows)))) by (rewrite E; now left).
      apply in_rev, filter_In in Hr. tauto. }
  unfold with_key in Hin. apply filter_In in Hin as [Hin Hk]. split; [exact Hin|].
  now destruct (key_eqb_spec (key r) k).
Qed.

Lemma choice_some rows r : In r rows -> choice (key r) rows <> None.
Proof.
  intros Hin. unfold choice.
  destruct (rev (filter priced (with_key (key r) rows))); [|discriminate].
  assert (H : In r (with_key (key r) rows)).
  { unfold with_key. apply filter_In. split; [exact Hin|].
    now destruct (key_eqb_spec (key r) (key r)). }
  destruct (with_key (key r) rows); [destruct H | discriminate].
Qed.

Lemma keep_step seen d r :
  NoDup (map fst d) ->
  (forall k, Dict.find key_eqb k d = choice k seen) ->
  NoDup (map fst (keep d r))
  /\ (forall k, Dict.find key_eqb k (keep d r) = choice k (seen ++ [r])).
Proof.
  intros Hnd Hfind. unfold keep.
  assert (Hstore : choice (key r) (seen ++ [r]) = Some r ->
            NoDup (map fst (Dict.store key_eqb (key r) r d))
            /\ (forall k, Dict.find key_eqb k (Dict.store key_eqb (key r) r d)
                          = choice k (seen ++ [r]))).
  { intros Hc. split; [now apply (DictFacts.keys_store_nodup key_eqb key_eqb_spec)|].
    intros k. rewrite (DictFacts.find_store key_eqb key_eqb_spec).
    destruct (key_eqb_spec k (key r)) as [->|Hne]; [now rewrite Hc|].
    rewrite choice_other, Hfind; [reflexivity|].
    destruct (key_eqb_spec (key r) k); congruence. }
  destruct (Dict.find key_eqb (key r) d) as [r0|] eqn:E.
  - destruct (priced r) eqn:Ep; [now apply Hstore, choice_priced|].
    split; [exact Hnd|]. intros k.
    destruct (key_eqb_spec (key r) k) as [<-|Hne].
    + rewrite (choice_unpriced seen r Ep), <- Hfind, E. reflexivity.
    + rewrite choice_other, Hfind; [reflexivity|].
      destruct (key_eqb_spec (key r) k); congruence.
  - apply Hstore. rewrite Hfind in E. destruct (priced r) eqn:Ep.
    + now apply choice_priced.
    + now rewrite (choice_unpriced seen r Ep), E.
Qed.

Lemma keep_all rows : forall seen d,
  NoDup (map fst d) ->
  (forall k, Dict.find key_eqb k d = choice k seen) ->
  NoDup (map fst (fold_left keep rows d))
  /\ (forall k, Dict.find key_eqb k (fold_left keep rows d) = choice k (seen ++ rows)).
Proof.
  induction rows as [|r rows IH]; intros seen d Hnd Hfind; cbn [fold_left].
  - now rewrite app_nil_r.
  - replace (seen ++ r :: rows) with ((seen ++ [r]) ++ rows)
      by now rewrite <- app_assoc.
    destruct (keep_step seen d r Hnd Hfind) as [Hnd' Hfind']. now apply IH.
Qed.

(** X17. The deduplicated rows of the price list: no two of them have the
    same item and site; each of them is a scraped row, namely the last row
    of its item and site that has a price other than zero, or the first row
    of that item and site when none has; and every item and site that was
    scraped is still there. *)
Theorem final_rows_one_per_item_and_site (rows : list row) :
  NoDup (map key (final_rows rows))
  /\ (forall r, In r (final_rows rows) ->
        In r rows /\ choice (key r) rows = Some r)
  /\ (forall r, In r rows ->
        exists r', In r' (final_rows rows) /\ key r' = key r).
Proof.
  unfold final_rows.
  destruct (keep_all rows [] []) as [Hnd Hfind];
    [constructor | reflexivity |]. cbn [app] in Hfind.
  set (d := fold_left keep rows []) in *.
  assert (Hkey : forall k r, In (k, r) d -> choice k rows = Some r /\ key r = k).
  { intros k r Hin. apply (DictFacts.in_find key_eqb key_eqb_spec) in Hin; [|exact Hnd].
    rewrite Hfind in Hin. split; [exact Hin | now apply choice_in in Hin]. }
  split; [|split].
  - replace (map key (map snd d)) with (map fst d); [exact Hnd|].
    rewrite map_map. apply map_ext_in. intros [k r] Hin.
    destruct (Hkey k r Hin) as [_ <-]. reflexivity.
  - intros r Hin. apply in_map_iff in Hin as ([k r'] & <- & Hin). cbn [snd].
    destruct (Hkey k r' Hin) as [Hc <-]. split; [|exact Hc].
    now apply choice_in in Hc.
  - intros r Hin. pose proof (choice_some rows r Hin) as Hsome.
    rewrite <- Hfind in Hsome.
    destruct (Dict.find key_eqb (key r) d) as [r'|] eqn:E; [|contradiction].
    apply (DictFacts.find_in key_eqb key_eqb_spec) in E.
    exists r'. split; [now apply (in_map snd) in E|].
    now destruct (Hkey _ _ E).
Qed.

Lemma final_rows_one_per_item_and_site_witness :
  let scraped := [Row "iron" "A" JNull "a"; Row "iron" "A" (JInt 30) "b";
                  Row "iron" "A" (JInt 0) "c"; Row "iron" "B" JNull "d"] in
  final_rows scraped = [Row "iron" "A" (JInt 30) "b"; Row "iron" "B" JNull "d"]
  /\ In (Row "iron" "A" (JInt 30) "b") scraped
  /\ choice (key (Row "iron" "A" (JInt 30) "b")) scraped
     = Some (Row "iron" "A" (JInt 30) "b").
Proof.
  intros scraped. split; [vm_compute; reflexivity|].
  apply (proj1 (proj2 (final_rows_one_per_item_and_site scraped))).
  vm_compute. left. reflexivity.
Defined.

End ScraperFacts.
(** ** The detected object *)

Module DetectionFacts.
Import StrFacts TextFacts Detection.

Lemma max_from_spec rest : forall best k q,
  number k = Some q ->
  confidence best = Ok k ->
  Forall (fun p => confidence_of p <> None) rest ->
  exists before p after qp,
    best :: rest = before ++ p :: after
    /\ max_from best k rest = Ok p
    /\ confidence_of p = Some qp
    /\ (q <= qp)%Q
    /\ Forall (fun x => exists qx, confidence_of x = Some qx /\ (qx < qp)%Q) before
    /\ Forall (fun x => exists qx, confidence_of x = Some qx /\ (qx <= qp)%Q) after.
Proof.
  induction rest as [|x rest IH]; intros best k q Hk Hbest Hall.
  - exists [], best, [], q. cbn [max_from app]. unfold confidence_of. rewrite Hbest.
    repeat split; auto using Qle_refl.
  - inversion Hall as [|? ? Hx Hrest]; subst. cbn [max_from].
    unfold confidence_of in Hx.
    destruct (confidence x) as [kx|e] eqn:Ex; [|contradiction]. cbn [and_then].
    destruct (number kx) as [qx|] eqn:Eqx; [|contradiction].
    unfold greater. rewrite Eqx, Hk. cbn [and_then].
    destruct (Qle_bool qx q) eqn:Ele; cbn [negb].
    + apply Qle_bool_iff in Ele.
      destruct (IH best k q Hk Hbest Hrest)
        as (before & p & after & qp & Hsplit & Hmax & Hp & Hle & Hb & Ha).
      destruct before as [|b0 before].
      * cbn [app] in Hsplit. injection Hsplit as <- <-.
        exists [], best, (x :: rest), qp. cbn [app].
        split; [reflexivity|]. split; [exact Hmax|]. split; [exact Hp|].
        split; [exact Hle|]. split; [constructor|].
        constructor; [|exact Ha]. exists qx. unfold confidence_of.
        rewrite Ex. split; [exact Eqx|]. now apply (Qle_trans _ q).
      * cbn [app] in Hsplit. injection Hsplit as <- Hrest'.
        exists (best :: x :: before), p, after, qp. cbn [app].
        split; [now rewrite Hrest'|]. split; [exact Hmax|]. split; [exact Hp|].
        split; [exact Hle|]. split; [|exact Ha].
        inversion Hb as [|? ? Hb0 Hb']; subst.
        constructor; [exact Hb0|]. constructor; [|exact Hb'].
        exists qx. unfold confidence_of. rewrite Ex. split; [exact Eqx|].
        destruct Hb0 as (q0 & Hq0 & Hlt). unfold confidence_of in Hq0.
        rewrite Hbest, Hk in Hq0. injection Hq0 as <-.
        now apply (Qle_lt_trans _ q).
    + assert (Hlt : (q < qx)%Q).
      { apply Qnot_le_lt. intros H. apply Qle_bool_iff in H. congruence. }
      destruct (IH x kx qx Eqx Ex Hrest)
        as (before & p & after & qp & Hsplit & Hmax & Hp & Hle & Hb & Ha).
      exists (best :: before), p, after, qp. cbn [app]. rewrite Hsplit.
      split; [reflexivity|]. split; [exact Hmax|]. split; [exact Hp|].
      split; [|split; [|exact Ha]].
      * apply Qlt_le_weak. now apply (Qlt_le_trans _ qx).
      * constructor; [|exact Hb]. exists q. unfold confidence_of.
        rewrite Hbest. split; [exact Hk|]. now apply (Qlt_le_trans _ qx).
Qed.

(** X18. For predictions that each carry a numeric confidence or none,
    [top_pred] is the first prediction of the highest confidence: every
    prediction before it has a smaller confidence, and none after it has a
    larger one. *)
Theorem top_prediction_is_most_confident (p0 : json) (rest : list json) :
  Forall (fun p => confidence_of p <> None) (p0 :: rest) ->
  exists before p after q,
    p0 :: rest = before ++ p :: after
    /\ top_pred (JList (p0 :: rest)) = Ok p
    /\ confidence_of p = Some q
    /\ Forall (fun x => exists qx, confidence_of x = Some qx /\ (qx < q)%Q) before
    /\ Forall (fun x => exists qx, confidence_of x = Some qx /\ (qx <= q)%Q) after.
Proof.
  intros Hall. inversion Hall as [|? ? H0 Hrest]; subst.
  unfold top_pred. cbn [truthy iterate and_then max_confidence].
  unfold confidence_of in H0.
  destruct (confidence p0) as [k|e] eqn:E0; [|contradiction]. cbn [and_then].
  destruct (number k) as [q0|] eqn:Ek; [|contradiction].
  destruct (max_from_spec rest p0 k q0 Ek E0 Hrest)
    as (before & p & after & q & Hsplit & Hmax & Hp & _ & Hb & Ha).
  now exists before, p, after, q.
Qed.

Lemma top_prediction_is_most_confident_witness :
  exists before p after q,
    [prediction "paper" 61; prediction "glass" 87; prediction "tin" 87]
    = before ++ p :: after
    /\ top_pred (JList [prediction "paper" 61; prediction "glass" 87;
                        prediction "tin" 87]) = Ok p
    /\ confidence_of p = Some q
    /\ Forall (fun x => exists qx, confidence_of x = Some qx /\ (qx < q)%Q) before
    /\ Forall (fun x => exists qx, confidence_of x = Some qx /\ (qx <= q)%Q) after.
Proof.
  apply (top_prediction_is_most_confident (prediction "paper" 61)
           [prediction "glass" 87; prediction "tin" 87]).
  repeat constructor; discriminate.
Defined.

Lemma category_of_text s :
  category (JStr s)
  = Ok (let cls := lower (strip s) in
        if member cls biodegradable_set then "Biodegradable"
        else if member cls recyclable_set then "Recyclable"
        else if member cls metal_set then "Hazardous and Recyclable"
        else if member cls hazardous_ewaste_set then "Hazardous E-waste"
        else "General Waste").
Proof.
  unfold category, py_or. cbn [truthy]. now destruct s.
Qed.

(** X19. The category ignores blanks around the class name and, for a
    7-bit name, its case; and it is one of the five categories. *)
Theorem category_ignores_case_and_padding (pre s post : string) :
  forallb_str is_space pre = true -> forallb_str is_space post = true ->
  category (JStr (pre ++ s ++ post)) = category (JStr s)
  /\ (isascii s = true ->
      category (JStr (pre ++ upper s ++ post)) = category (JStr s))
  /\ exists c, category (JStr s) = Ok c
               /\ In c ["Biodegradable"; "Recyclable"; "Hazardous and Recyclable";
                        "Hazardous E-waste"; "General Waste"].
Proof.
  intros Hpre Hpost. rewrite !category_of_text.
  rewrite !strip_padded by assumption. rewrite lower_strip_upper.
  split; [reflexivity|]. split; [reflexivity|].
  eexists. split; [reflexivity|]. cbv zeta.
  destruct (member _ biodegradable_set); [cbn; tauto|].
  destruct (member _ recyclable_set); [cbn; tauto|].
  destruct (member _ metal_set); [cbn; tauto|].
  destruct (member _ hazardous_ewaste_set); cbn; tauto.
Qed.

Lemma category_ignores_case_and_padding_witness :
  category (JStr " PLASTIC ") = category (JStr "plastic")
  /\ category (JStr "plastic") = Ok "Recyclable".
Proof.
  split; [|reflexivity].
  apply (proj1 (proj2 (category_ignores_case_and_padding " " "plastic" " "
                         eq_refl eq_refl)) eq_refl).
Defined.

End DetectionFacts.
(** ** The reply of the language model *)

Module SolutionsFacts.
Import StrFacts TextFacts Solutions.

Lemma to_lower_colon c : to_lower c = ":"%char -> c = ":"%char.
Proof. by_cases c. Qed.

(** A line that starts with a prefix holding a colon has a colon. *)
Lemma after_colon_prefix prefix : forall line,
  has_prefix prefix line = true -> after_colon prefix <> None ->
  after_colon line <> None.
Proof.
  unfold has_prefix. induction prefix as [|a prefix IH]; intros line H Hc.
  - contradiction.
  - destruct line as [|b line]; [discriminate|].
    unfold lower in H. cbn [map_str starts_with] in H. fold (lower line) in H.
    apply andb_true_iff in H as [Hab Hrest]. apply Ascii.eqb_eq in Hab.
    cbn [after_colon] in *.
    destruct (Ascii.eqb_spec b ":") as [_|Hb]; [discriminate|].
    destruct (Ascii.eqb_spec a ":") as [->|Ha].
    + symmetry in Hab. now apply to_lower_colon in Hab.
    + now apply IH.
Qed.

Lemma labelled_total prefix lines :
  after_colon prefix <> None -> exists r, labelled prefix lines = Some r.
Proof.
  intros Hc. unfold labelled. destruct lines as [|line rest]; [eauto|].
  destruct (has_prefix prefix line) eqn:E; [|eauto].
  pose proof (after_colon_prefix prefix line E Hc).
  destruct (after_colon line); [eauto | contradiction].
Qed.

Lemma harm_section_total lines : exists r, harm_section lines = Some r.
Proof.
  unfold harm_section. destruct lines as [|line rest]; [eauto|].
  destruct (has_prefix "harm:" line) eqn:E; [|eauto].
  assert (H : after_colon line <> None)
    by (apply (after_colon_prefix "harm:" line E); discriminate).
  destruct (after_colon line); [eauto | contradiction].
Qed.

(** The guarded index of lines 272, 276 and 285 is always in range. *)
Lemma parse_total (raw_lines : list string) : exists p, parse raw_lines = Some p.
Proof.
  unfold parse.
  destruct (labelled_total "category:" raw_lines) as [[c l1] ->]; [discriminate|].
  destruct (harm_section_total l1) as [[h l2] ->].
  destruct (labelled_total "best action:" l2) as [[a l3] ->]; [discriminate|].
  destruct (header "how to" l3) as [hl l4].
  destruct (items_loop clean_item (has_prefix "other suggestions") [] l4) as [ht l5].
  destruct (header "other suggestions" l5) as [ol l6].
  destruct (items_loop clean_item (fun _ => false) [] l6) as [ot l7].
  eauto.
Qed.

(** *** The items of the two lists *)

Lemma labelled_incl prefix lines v rest :
  labelled prefix lines = Some (v, rest) -> incl rest lines.
Proof.
  unfold labelled. destruct lines as [|line lines']; [intros [= _ <-]; apply incl_refl|].
  destruct (has_prefix prefix line).
  - destruct (after_colon line); [|discriminate].
    intros [= _ <-]. apply incl_tl, incl_refl.
  - intros [= _ <-]. apply incl_refl.
Qed.

Lemma harm_loop_incl lines : forall acc, incl (snd (harm_loop acc lines)) lines.
Proof.
  induction lines as [|line rest IH]; intros acc; cbn [harm_loop].
  - apply incl_refl.
  - destruct (negb (is_header line)); [apply incl_tl, IH | apply incl_refl].
Qed.

Lemma harm_section_incl lines v rest :
  harm_section lines = Some (v, rest) -> incl rest lines.
Proof.
  unfold harm_section. destruct lines as [|line lines']; [intros [= _ <-]; apply incl_refl|].
  destruct (has_prefix "harm:" line).
  - destruct (after_colon line) as [x|]; [|discriminate].
    intros H. injection H as H. apply incl_tl.
    pose proof (harm_loop_incl lines' (strip x)) as Hi. now rewrite H in Hi.
  - intros [= _ <-]. apply incl_refl.
Qed.

Lemma header_incl prefix lines : incl (snd (header prefix lines)) lines.
Proof.
  unfold header. destruct lines as [|line rest]; [apply incl_refl|].
  destruct (has_prefix prefix line); [apply incl_tl|]; apply incl_refl.
Qed.

Lemma items_loop_spec stop (P : string -> Prop) lines : forall items,
  Forall P items ->
  (forall line, In line lines -> clean_item line <> "" -> P (clean_item line)) ->
  Forall P (fst (items_loop clean_item stop items lines))
  /\ incl (snd (items_loop clean_item stop items lines)) lines.
Proof.
  induction lines as [|line rest IH]; intros items Hitems HP; cbn [items_loop].
  - split; [exact Hitems | apply incl_refl].
  - destruct (stop line); [split; [exact Hitems | apply incl_refl]|].
    destruct (IH (if (clean_item line =? "")%string then items
                  else items ++ [clean_item line])) as [H1 H2].
    + destruct (String.eqb_spec (clean_item line) ""); [exact Hitems|].
      apply Forall_app. split; [exact Hitems|]. constructor; [|constructor].
      apply HP; [now left | assumption].
    + intros l Hl. apply HP. now right.
    + split; [exact H1 | now apply incl_tl].
Qed.

Lemma clean_item_trimmed line : strip (clean_item line) = clean_item line.
Proof.
  unfold clean_item. destruct (starts_with "- " line); apply strip_idem.
Qed.

(** X21. Every step and every tip the parser returns is a line of the
    reply without its bullet or number; none is empty and none has blanks
    around it. *)
Theorem parsed_items_are_clean (raw_lines : list string) (p : parsed) :
  parse raw_lines = Some p ->
  Forall (fun item => item <> "" /\ strip item = item
                      /\ exists line, In line raw_lines /\ item = clean_item line)
         (how_to p ++ others p).
Proof.
  unfold parse.
  destruct (labelled "category:" raw_lines) as [[c l1]|] eqn:E1; [|discriminate].
  destruct (harm_section l1) as [[h l2]|] eqn:E2; [|discriminate].
  destruct (labelled "best action:" l2) as [[a l3]|] eqn:E3; [|discriminate].
  pose proof (header_incl "how to" l3) as I4.
  destruct (header "how to" l3) as [hl l4]. cbn [snd] in I4.
  assert (Hl4 : incl l4 raw_lines).
  { apply labelled_incl in E1, E3. apply harm_section_incl in E2.
    eauto using incl_tran. }
  set (P := fun item => item <> "" /\ strip item = item
                        /\ exists line, In line raw_lines /\ item = clean_item line).
  assert (HP : forall lines, incl lines raw_lines ->
             forall line, In line lines -> clean_item line <> "" -> P (clean_item line)).
  { intros lines Hi line Hin Hne. split; [exact Hne|].
    split; [apply clean_item_trimmed|]. exists line. split; [now apply Hi | reflexivity]. }
  destruct (items_loop_spec (has_prefix "other suggestions") P l4 []
              (Forall_nil _) (HP l4 Hl4)) as [H5 I5].
  destruct (items_loop clean_item (has_prefix "other suggestions") [] l4) as [ht l5].
  cbn [fst snd] in H5, I5.
  pose proof (header_incl "other suggestions" l5) as I6.
  destruct (header "other suggestions" l5) as [ol l6]. cbn [snd] in I6.
  assert (Hl6 : incl l6 raw_lines) by eauto using incl_tran.
  destruct (items_loop_spec (fun _ => false) P l6 [] (Forall_nil _) (HP l6 Hl6))
    as [H7 _].
  destruct (items_loop clean_item (fun _ => false) [] l6) as [ot l7]. cbn [fst] in H7.
  intros [= <-]. cbn [how_to others]. apply Forall_app. now split.
Qed.

(** *** A reply in the structure asked for *)

Lemma strip_phrase s : phrase s -> strip (" " ++ s) = s.
Proof.
  intros [_ H]. rewrite <- H at 2.
  rewrite <- (append_nil_r s) at 1.
  now apply (strip_padded " " s "").
Qed.

Lemma phrase_starts s : phrase s -> starts_nonblank s = true /\ s <> "".
Proof.
  intros [Hne H]. split; [|exact Hne]. rewrite <- H. unfold strip.
  apply starts_nonblank_rstrip, starts_nonblank_lstrip.
Qed.

Lemma harm_loop_lines more : forall acc hdr rest,
  acc <> "" ->
  Forall (fun line => is_header line = false) more ->
  is_header hdr = true ->
  harm_loop acc (more ++ hdr :: rest)
  = (fold_left (fun a line => (a ++ nl ++ line)%string) more acc, hdr :: rest).
Proof.
  induction more as [|line more IH]; intros acc hdr rest Hacc Hmore Hhdr.
  - cbn [app harm_loop fold_left]. now rewrite Hhdr.
  - inversion Hmore as [|? ? Hline Hmore']; subst.
    cbn [app harm_loop fold_left]. rewrite Hline. cbn [negb].
    destruct (String.eqb_spec acc ""); [contradiction|].
    apply IH; [|assumption..]. destruct acc; [contradiction | discriminate].
Qed.

Lemma join_fold more : forall acc,
  fold_left (fun a line => (a ++ nl ++ line)%string) more acc
  = join nl (acc :: more).
Proof.
  induction more as [|line more IH]; intros acc; cbn [fold_left].
  - cbn. reflexivity.
  - rewrite IH. rewrite (join_cons2 nl acc line more).
    destruct more as [|line' more].
    + reflexivity.
    + rewrite !join_cons2. change (nl ++ line)%string with (String LF line).
      rewrite <- append_snoc. change (String LF "") with nl.
      now rewrite !append_assoc.
Qed.

Lemma skip_digits_numbered ds : forall rest,
  forallb_str is_digit ds = true ->
  skip_digits (ds ++ "." ++ rest) = ("." ++ rest)%string.
Proof.
  induction ds as [|c ds IH]; intros rest H; [reflexivity|].
  cbn [forallb_str] in H. apply andb_true_iff in H as [Hc Hds].
  cbn [append skip_digits]. rewrite Hc. now apply IH.
Qed.

Lemma digit_not_blank c : is_digit c = true -> is_space c = false.
Proof. by_cases c. Qed.

Lemma digit_is_not c : is_digit c = true ->
  Ascii.eqb "-" c = false /\ Ascii.eqb "o" (to_lower c) = false.
Proof. by_cases c; split; reflexivity. Qed.

Lemma clean_item_numbered e :
  digits_only (fst e) -> phrase (snd e) -> clean_item (numbered e) = snd e.
Proof.
  destruct e as [ds item]. cbn [fst snd]. intros [Hne Hds] Hitem.
  destruct ds as [|c ds]; [contradiction|].
  pose proof Hds as Hall. cbn [forallb_str] in Hds.
  apply andb_true_iff in Hds as [Hc _].
  destruct (digit_is_not c Hc) as [Hdash _].
  unfold clean_item, numbered. cbn [fst snd append starts_with]. rewrite Hdash.
  cbn [andb]. unfold numbered_sub. rewrite Hc.
  assert (Hskip : skip_digits (String c (ds ++ String "." (String " " item)))
                  = String "." (String " " item))
    by exact (skip_digits_numbered (String c ds) (" " ++ item) Hall).
  rewrite Hskip. cbn [Ascii.eqb Bool.eqb].
  change (is_space " ") with true. cbv iota.
  destruct (phrase_starts item Hitem) as [Hs Hn]. destruct Hitem as [_ Ht].
  destruct item as [|b item]; [contradiction|]. cbn [starts_nonblank] in Hs.
  apply negb_true_iff in Hs. cbn [lstrip]. rewrite Hs. exact Ht.
Qed.

Lemma items_loop_numbered stop entries : forall items rest,
  Forall (fun e => digits_only (fst e) /\ phrase (snd e)) entries ->
  (forall e, In e entries -> stop (numbered e) = false) ->
  items_loop clean_item stop items (map numbered entries ++ rest)
  = items_loop clean_item stop (items ++ map snd entries) rest.
Proof.
  induction entries as [|e entries IH]; intros items rest Hall Hstop.
  - cbn [map app]. now rewrite app_nil_r.
  - inversion Hall as [|? ? [Hd Hp] Hall']; subst.
    cbn [map app items_loop]. rewrite (Hstop e) by now left.
    rewrite (clean_item_numbered e Hd Hp).
    destruct (String.eqb_spec (snd e) "") as [He|_]; [now destruct Hp|].
    rewrite IH; [|assumption|intros; apply Hstop; now right].
    now rewrite <- app_assoc.
Qed.

Lemma numbered_not_stop e :
  digits_only (fst e) -> has_prefix "other suggestions" (numbered e) = false.
Proof.
  destruct e as [ds item]. cbn [fst]. intros [Hne Hds].
  destruct ds as [|c ds]; [contradiction|]. cbn [forallb_str] in Hds.
  apply andb_true_iff in Hds as [Hc _]. destruct (digit_is_not c Hc) as [_ Ho].
  unfold has_prefix, numbered, lower. cbn [fst snd append map_str starts_with].
  now rewrite Ho.
Qed.

(** X22. A reply that keeps to the structure the prompt asks for is read
    back part by part: the category, the harm text with its continuation
    lines joined by line feeds, the best action, the two headers, and the
    steps and tips without their numbers. *)
Theorem structured_reply_is_read_back (r : reply) :
  well_formed r ->
  parse (render r)
  = Some (Parsed (r_category r) (join nl (r_harm r :: r_more_harm r)) (r_action r)
                 (r_how_to_label r) (map snd (r_steps r))
                 (r_others_label r) (map snd (r_tips r))).
Proof.
  intros (Hc & Hh & Ha & Hmore & Hhow & Hoth & Hsteps & Htips).
  unfold parse, render. cbn [app].
  unfold labelled at 1.
  change (has_prefix "category:" ("Category: " ++ r_category r)) with true.
  cbv iota. change (after_colon ("Category: " ++ r_category r))
    with (Some (" " ++ r_category r)%string). cbv iota beta.
  rewrite (strip_phrase _ Hc).
  unfold harm_section.
  change (has_prefix "harm:" ("Harm: " ++ r_harm r)) with true.
  cbv iota. change (after_colon ("Harm: " ++ r_harm r))
    with (Some (" " ++ r_harm r)%string). cbv iota beta.
  rewrite (strip_phrase _ Hh).
  rewrite (harm_loop_lines (r_more_harm r) (r_harm r)
             ("Best Action: " ++ r_action r)%string);
    [|now destruct Hh | exact Hmore | reflexivity].
  rewrite join_fold.
  unfold labelled.
  change (has_prefix "best action:" ("Best Action: " ++ r_action r)) with true.
  cbv iota. change (after_colon ("Best Action: " ++ r_action r))
    with (Some (" " ++ r_action r)%string). cbv iota beta.
  rewrite (strip_phrase _ Ha).
  unfold header at 1. rewrite Hhow.
  rewrite (items_loop_numbered _ (r_steps r) []); [|exact Hsteps|].
  2:{ intros e He. rewrite Forall_forall in Hsteps.
      apply numbered_not_stop. now apply Hsteps. }
  cbn [app items_loop]. rewrite Hoth.
  unfold header. rewrite Hoth.
  rewrite <- (app_nil_r (map numbered (r_tips r))).
  rewrite (items_loop_numbered _ (r_tips r) [] []); [|exact Htips | reflexivity].
  cbn [app items_loop].
  destruct (String.eqb_spec (r_action r) "") as [He|_]; [now destruct Ha|].
  reflexivity.
Qed.

(** *** Filling up from the defaults *)

Lemma pad_by_spec fill : fill <> [] -> forall k l,
  exists extra,
    pad_by k fill l = Some (l ++ extra)
    /\ List.length extra = k
    /\ Forall (fun x => In x fill) extra.
Proof.
  intros Hfill. induction k as [|k IH]; intros l; cbn [pad_by].
  - exists []. rewrite app_nil_r. repeat split. constructor.
  - destruct fill as [|f0 fill']; [contradiction|].
    set (x := nth (List.length l mod List.length (f0 :: fill')) (f0 :: fill') "").
    destruct (IH (l ++ [x])) as (extra & -> & Hlen & Hin).
    exists (x :: extra). rewrite <- app_assoc. cbn [app List.length].
    split; [reflexivity|]. split; [now rewrite Hlen|].
    constructor; [|exact Hin]. apply nth_In.
    apply Nat.mod_upper_bound. discriminate.
Qed.

Lemma pad_spec n fill l : fill <> [] ->
  exists extra,
    pad n fill l = Some (l ++ extra)
    /\ List.length (l ++ extra) = Nat.max n (List.length l)
    /\ Forall (fun x => In x fill) extra.
Proof.
  intros Hfill. unfold pad.
  destruct (pad_by_spec fill Hfill (n - List.length l) l) as (extra & -> & Hlen & Hin).
  exists extra. split; [reflexivity|]. split; [|exact Hin].
  rewrite length_app, Hlen. lia.
Qed.

Lemma entry_in cat table d : entry cat table = Some d -> In (cat, d) table.
Proof.
  induction table as [|[k d'] table IH]; [discriminate|]. cbn [entry].
  destruct (String.eqb_spec cat k) as [->|_].
  - intros [= ->]. now left.
  - intros H. right. now apply IH.
Qed.

Lemma defaults_for_complete table cat_name :
  complete table ->
  exists d, _defaults_for table cat_name = Some d
            /\ steps d <> [] /\ tips d <> [] /\ harm d <> [].
Proof.
  intros [Hg Hall]. unfold _defaults_for.
  destruct (entry "General Waste" table) as [g|] eqn:Eg; [|contradiction].
  rewrite Forall_forall in Hall.
  set (cat := if (strip cat_name =? "")%string then "General Waste"
              else strip cat_name).
  destruct (entry cat table) as [d|] eqn:Ed; eexists; (split; [reflexivity|]).
  - exact (Hall _ (entry_in _ _ _ Ed)).
  - exact (Hall _ (entry_in _ _ _ Eg)).
Qed.

Lemma join_two_nonempty sep a b rest : sep <> "" -> join sep (a :: b :: rest) <> "".
Proof.
  intros Hsep H. rewrite join_cons2 in H.
  apply append_empty_inv in H as [_ H]. apply append_empty_inv in H as [H _].
  contradiction.
Qed.

Lemma pad_by_exact fill : fill <> [] -> forall k l,
  pad_by k fill l
  = Some (l ++ map (fun i => nth (i mod List.length fill) fill "")
                   (seq (List.length l) k)).
Proof.
  intros Hfill. induction k as [|k IH]; intros l; cbn [pad_by seq map].
  - now rewrite app_nil_r.
  - destruct fill as [|f0 fill']; [contradiction|].
    rewrite IH, length_app, <- app_assoc. cbn [List.length app].
    now rewrite Nat.add_1_r.
Qed.

(** What the padding loop leaves, when it ends normally. *)
Lemma pad_exact n fill l out :
  pad n fill l = Some out ->
  out = l ++ filling n fill (List.length l)
  /\ List.length out = Nat.max n (List.length l).
Proof.
  unfold pad, filling. intros H. destruct fill as [|f0 fill'].
  - destruct (n - List.length l) as [|k] eqn:E; [|discriminate].
    cbn [pad_by] in H. injection H as <-. cbn [seq map].
    rewrite app_nil_r. split; [reflexivity | lia].
  - rewrite pad_by_exact in H by discriminate. injection H as <-.
    split; [reflexivity|]. rewrite length_app, length_map, length_seq. lia.
Qed.

(** X23. The block always shows full lists.  With a complete table of
    defaults it ends normally for every reply.  Whenever it ends normally,
    the steps are the parsed steps followed by the steps of the defaults of
    the category - the one the reply names, else the detected one, else
    'General Waste' - taken in turn from the position the parsed steps end
    at, up to 8 in all; the same holds of the tips with 12; and the harm
    text is made of the lines of the parsed harm text that are not blank,
    filled up to 14 in the same way. *)
Theorem solutions_are_filled_up
    (table : list (string * defaults)) (category text : string) :
  (complete table -> exists s, solutions table category text = Some s)
  /\ (forall s, solutions table category text = Some s ->
        exists p d,
          parse (raw_lines_of (remove_stars text)) = Some p
          /\ _defaults_for table (cat_for_defaults category p) = Some d
          /\ s_best_action_details s
             = how_to p ++ filling 8 (steps d) (List.length (how_to p))
          /\ List.length (s_best_action_details s) = Nat.max 8 (List.length (how_to p))
          /\ s_other_suggestions s
             = others p ++ filling 12 (tips d) (List.length (others p))
          /\ List.length (s_other_suggestions s) = Nat.max 12 (List.length (others p))
          /\ let harm_lines := harm_lines_of (harm_out p) in
             s_harm_text s
             = Some (join nl (harm_lines
                              ++ filling 14 (harm d) (List.length harm_lines)))
             /\ List.length (harm_lines ++ filling 14 (harm d) (List.length harm_lines))
                = Nat.max 14 (List.length harm_lines)).
Proof.
  unfold solutions.
  destruct (parse_total (raw_lines_of (remove_stars text))) as [p ->].
  set (cat := cat_for_defaults category p).
  set (hl := harm_lines_of (harm_out p)).
  split.
  - intros Hc.
    destruct (defaults_for_complete table cat Hc) as (d & -> & Hs & Ht & Hh).
    destruct (pad_spec 8 (steps d) (how_to p) Hs) as (e1 & -> & _).
    destruct (pad_spec 12 (tips d) (others p) Ht) as (e2 & -> & _).
    destruct (pad_spec 14 (harm d) hl Hh) as (e3 & -> & _).
    eauto.
  - intros s. destruct (_defaults_for table cat) as [d|] eqn:Ed; [|discriminate].
    destruct (pad 8 (steps d) (how_to p)) as [o1|] eqn:E1; [|discriminate].
    destruct (pad 12 (tips d) (others p)) as [o2|] eqn:E2; [|discriminate].
    destruct (pad 14 (harm d) hl) as [o3|] eqn:E3; [|discriminate].
    apply pad_exact in E1 as [H1 L1].
    apply pad_exact in E2 as [H2 L2].
    apply pad_exact in E3 as [H3 L3].
    intros [= <-]. cbn [s_best_action_details s_other_suggestions s_harm_text].
    exists p, d. split; [reflexivity|]. split; [exact Ed|].
    split; [exact H1|]. split; [exact L1|]. split; [exact H2|]. split; [exact L2|].
    cbv zeta. fold hl. rewrite <- H3. split; [|exact L3].
    assert (Hlen : 14 <= List.length o3) by lia.
    destruct o3 as [|a [|b o3']]; cbn [List.length] in Hlen; try lia.
    destruct (String.eqb_spec (join nl (a :: b :: o3')) "") as [H|_];
      [|reflexivity].
    now apply join_two_nonempty in H.
Qed.

Lemma raw_lines_phrases s : Forall phrase (raw_lines_of s).
Proof.
  unfold raw_lines_of. apply Forall_forall. intros l Hl.
  apply filter_In in Hl as [Hin Hne]. apply in_map_iff in Hin as (x & <- & _).
  split; [|apply strip_idem]. apply negb_true_iff in Hne.
  now apply String.eqb_neq in Hne.
Qed.

Lemma ends_nonblank_not_blank s :
  s <> "" -> ends_nonblank s = true -> forallb_str is_space s = false.
Proof.
  induction s as [|c s IH]; [contradiction|]. intros _. cbn [ends_nonblank forallb_str].
  destruct s as [|d s].
  - intros H. apply negb_true_iff in H. now rewrite H.
  - intros H. rewrite IH; [apply andb_false_r | discriminate | exact H].
Qed.

Lemma strip_not_blank s : forallb_str is_space s = false -> strip s <> "".
Proof.
  intros H E.
  assert (Hb : forallb_str is_space (strip s) = forallb_str is_space s).
  { unfold strip. now rewrite PipelineFacts.rstrip_blank, PipelineFacts.lstrip_blank. }
  rewrite E, H in Hb. discriminate.
Qed.

(** The rest of a phrase, from any place on, is not blank. *)
Lemma phrase_suffix l pre rest :
  phrase l -> l = (pre ++ rest)%string -> rest <> "" ->
  forallb_str is_space rest = false.
Proof.
  intros [_ Ht] -> Hrest. apply ends_nonblank_not_blank; [exact Hrest|].
  rewrite <- (ends_nonblank_append pre rest Hrest), <- Ht.
  unfold strip. apply ends_nonblank_rstrip.
Qed.

Lemma strip_suffix l pre rest :
  phrase l -> l = (pre ++ rest)%string -> rest <> "" -> strip (lstrip rest) <> "".
Proof.
  intros Hl He Hr. apply strip_not_blank.
  rewrite PipelineFacts.lstrip_blank. now apply (phrase_suffix l pre rest).
Qed.

Lemma bullet_rest l :
  starts_with "- " l = true -> l = ("-" ++ String " " (drop 2 l))%string.
Proof.
  destruct l as [|a [|b l]]; try discriminate.
  - cbn [starts_with]. now rewrite andb_false_r.
  - cbn [starts_with]. intros H. apply andb_true_iff in H as [Ha H].
    apply andb_true_iff in H as [Hb _].
    apply Ascii.eqb_eq in Ha, Hb. now subst.
Qed.

Lemma bullet_item l : phrase l -> starts_with "- " l = true -> strip (drop 2 l) <> "".
Proof.
  intros Hl Hb. apply strip_not_blank.
  pose proof (phrase_suffix l "-" (String " " (drop 2 l)) Hl (bullet_rest l Hb)) as H.
  cbn [forallb_str] in H. apply H. discriminate.
Qed.

Lemma unbullet_nonempty l : phrase l -> unbullet l <> "".
Proof.
  intros Hl. unfold unbullet. destruct (starts_with "- " l) eqn:E.
  - now apply bullet_item.
  - now destruct Hl.
Qed.

Lemma skip_digits_suffix s : exists pre, s = (pre ++ skip_digits s)%string.
Proof.
  induction s as [|c s [pre IH]]; [now exists ""|]. cbn [skip_digits].
  destruct (is_digit c); [|now exists ""].
  exists (String c pre). cbn [append]. now rewrite <- IH.
Qed.

Lemma numbered_sub_cases l :
  numbered_sub l = l
  \/ exists pre rest, l = (pre ++ rest)%string /\ rest <> ""
                      /\ numbered_sub l = lstrip rest.
Proof.
  unfold numbered_sub. destruct l as [|c l]; [now left|].
  destruct (is_digit c); [|now left].
  destruct (skip_digits_suffix (String c l)) as [pre Hpre].
  destruct (skip_digits (String c l)) as [|d rest] eqn:E; [now left|].
  destruct (Ascii.eqb_spec d ".") as [->|_].
  - destruct rest as [|b rest']; [now left|].
    destruct (is_space b); [|now left].
    right. exists (pre ++ ".")%string, (String b rest').
    split; [now rewrite append_snoc|]. split; [discriminate | reflexivity].
  - destruct (is_space d); [|now left].
    right. exists pre, (String d rest). split; [exact Hpre|].
    split; [discriminate | reflexivity].
Qed.

Lemma clean_item_nonempty l : phrase l -> clean_item l <> "".
Proof.
  intros Hl. unfold clean_item. destruct (starts_with "- " l) eqn:E.
  - now apply bullet_item.
  - destruct (numbered_sub_cases l) as [->|(pre & rest & He & Hr & ->)].
    + destruct Hl as [Hne ->]. exact Hne.
    + now apply (strip_suffix l pre rest).
Qed.

(** X20. The parser of the reply never fails, whatever the reply is: every
    header line it takes a value from has the colon it splits at.  And it
    always finds a best action, unless the reply has no line that is not
    blank. *)
Theorem parse_never_fails (text : string) :
  exists p,
    parse (raw_lines_of (remove_stars text)) = Some p
    /\ (best_action p = "" <-> raw_lines_of (remove_stars text) = []).
Proof.
  pose proof (raw_lines_phrases (remove_stars text)) as Hph.
  remember (raw_lines_of (remove_stars text)) as lines eqn:El. clear El.
  destruct lines as [|line rest].
  { eexists. split; [reflexivity|]. cbn [best_action]. tauto. }
  destruct (parse_total (line :: rest)) as [p Hp]. exists p. split; [exact Hp|].
  split; [|discriminate]. intros Hb. exfalso. revert Hp Hb. unfold parse.
  destruct (labelled "category:" (line :: rest)) as [[c l1]|]; [|discriminate].
  destruct (harm_section l1) as [[h l2]|]; [|discriminate].
  destruct (labelled "best action:" l2) as [[a l3]|]; [|discriminate].
  destruct (header "how to" l3) as [hl l4].
  destruct (items_loop clean_item (has_prefix "other suggestions") [] l4) as [ht l5].
  destruct (header "other suggestions" l5) as [ol l6].
  destruct (items_loop clean_item (fun _ => false) [] l6) as [ot l7].
  intros [= <-]. cbn [best_action].
  inversion Hph as [|? ? [Hne _] _]; subst.
  destruct (String.eqb_spec a ""); assumption.
Qed.

(** When no line cleans to nothing, the loop turns every line it reads into
    an item. *)
Lemma items_loop_all clean stop lines : forall items,
  Forall (fun l => clean l <> "") lines ->
  exists taken rest,
    lines = taken ++ rest
    /\ items_loop clean stop items lines = (items ++ map clean taken, rest)
    /\ Forall (fun l => stop l = false) taken
    /\ match rest with [] => True | l :: _ => stop l = true end.
Proof.
  induction lines as [|line lines IH]; intros items Hall; cbn [items_loop].
  - exists [], []. cbn [map app]. rewrite app_nil_r. repeat split. constructor.
  - inversion Hall as [|? ? Hline Hrest]; subst.
    destruct (stop line) eqn:Es.
    + exists [], (line :: lines). cbn [map app]. rewrite app_nil_r.
      repeat split; [constructor | exact Es].
    + destruct (String.eqb_spec (clean line) ""); [contradiction|].
      destruct (IH (items ++ [clean line]) Hrest) as (taken & rest & -> & -> & Ht & Hr).
      exists (line :: taken), rest. cbn [app map]. rewrite <- app_assoc.
      repeat split; [now constructor | exact Hr].
Qed.

Lemma header_suffix prefix lines :
  exists front,
    lines = front ++ snd (header prefix lines)
    /\ (front = [] \/ front = [fst (header prefix lines)]).
Proof.
  unfold header. destruct lines as [|line rest]; [exists []; auto|].
  destruct (has_prefix prefix line); [exists [line] | exists []]; auto.
Qed.

Lemma labelled_suffix prefix lines v rest :
  labelled prefix lines = Some (v, rest) ->
  exists front, lines = front ++ rest /\ List.length front <= 1.
Proof.
  unfold labelled. destruct lines as [|line lines'].
  - intros [= _ <-]. exists []. auto.
  - destruct (has_prefix prefix line).
    + destruct (after_colon line); [|discriminate].
      intros [= _ <-]. exists [line]. auto.
    + intros [= _ <-]. exists []. cbn. auto.
Qed.

(** The line a header with a value takes, and the line a header kept as it
    is takes. *)
Lemma labelled_line prefix lines v rest :
  labelled prefix lines = Some (v, rest) ->
  exists front, lines = front ++ rest /\ optional_line (has_prefix prefix) front rest.
Proof.
  unfold labelled, optional_line, not_next. destruct lines as [|line lines'].
  - intros [= _ <-]. exists []. cbn [app]. auto.
  - destruct (has_prefix prefix line) eqn:E.
    + destruct (after_colon line); [|discriminate].
      intros [= _ <-]. exists [line]. split; [reflexivity|]. right. eauto.
    + intros [= _ <-]. exists []. cbn [app]. auto.
Qed.

Lemma header_line prefix lines :
  exists front,
    lines = front ++ snd (header prefix lines)
    /\ optional_line (has_prefix prefix) front (snd (header prefix lines))
    /\ (front = [] \/ front = [fst (header prefix lines)]).
Proof.
  unfold header, optional_line, not_next. destruct lines as [|line rest].
  - exists []. cbn [fst snd app]. auto.
  - destruct (has_prefix prefix line) eqn:E; cbn [fst snd].
    + exists [line]. split; [reflexivity|]. split; [right; eauto | auto].
    + exists []. cbn [app]. auto.
Qed.

Lemma harm_loop_lines_taken lines : forall acc,
  exists front,
    lines = front ++ snd (harm_loop acc lines)
    /\ Forall (fun l => is_header l = false) front
    /\ not_next (fun l => negb (is_header l)) (snd (harm_loop acc lines)).
Proof.
  induction lines as [|line rest IH]; intros acc; cbn [harm_loop].
  - exists []. cbn. auto.
  - destruct (is_header line) eqn:E; cbn [negb].
    + exists []. cbn [app snd not_next]. rewrite E. auto.
    + destruct (IH (acc ++ (if (acc =? "")%string then "" else nl) ++ line)%string)
        as (front & Hf & Hall & Hnext).
      exists (line :: front). cbn [app]. rewrite <- Hf. auto.
Qed.

Lemma harm_section_block lines v rest :
  harm_section lines = Some (v, rest) ->
  exists front, lines = front ++ rest /\ harm_block front rest.
Proof.
  unfold harm_section, harm_block. destruct lines as [|line lines'].
  - intros [= _ <-]. exists []. cbn. auto.
  - destruct (has_prefix "harm:" line) eqn:E.
    + destruct (after_colon line) as [x|]; [|discriminate].
      intros H. injection H as H.
      destruct (harm_loop_lines_taken lines' (strip x)) as (front & Hf & Hall & Hnext).
      rewrite H in Hf, Hnext. cbn [snd] in Hf, Hnext.
      exists (line :: front). cbn [app]. rewrite <- Hf. split; [reflexivity|].
      right. exists line, front. auto.
    + intros [= _ <-]. exists []. cbn [app not_next]. auto.
Qed.

(** The two item loops with the header between them. *)
Lemma item_sections clean lines :
  Forall (fun l => clean l <> "") lines ->
  let '(how_to, l5) := items_loop clean (has_prefix "other suggestions") [] lines in
  let '(label, l6) := header "other suggestions" l5 in
  let '(others, _) := items_loop clean (fun _ => false) [] l6 in
  exists step_lines label_lines,
    lines = step_lines ++ label_lines ++ l6
    /\ how_to = map clean step_lines
    /\ others = map clean l6
    /\ Forall (fun l => has_prefix "other suggestions" l = false) step_lines
    /\ (label_lines = [] /\ l6 = [] \/ label_lines = [label]).
Proof.
  intros Hall.
  destruct (items_loop_all clean (has_prefix "other suggestions") lines [] Hall)
    as (taken & l5 & -> & -> & Ht & Hstop). cbn [app].
  apply Forall_app in Hall as [_ Hall5].
  unfold header. destruct l5 as [|line l6].
  - cbn [items_loop]. exists taken, []. repeat split; auto.
  - rewrite Hstop. inversion Hall5 as [|? ? _ Hall6]; subst.
    destruct (items_loop_all clean (fun _ => false) l6 [] Hall6)
      as (taken6 & rest6 & He & -> & _ & Hr).
    destruct rest6 as [|? ?]; [|discriminate]. rewrite app_nil_r in He. subst taken6.
    exists taken, [line]. repeat split; auto.
Qed.

(** The same, with the header of the tips told apart from a step. *)
Lemma item_sections_labelled clean lines :
  Forall (fun l => clean l <> "") lines ->
  let '(how_to, l5) := items_loop clean (has_prefix "other suggestions") [] lines in
  let '(label, l6) := header "other suggestions" l5 in
  let '(others, _) := items_loop clean (fun _ => false) [] l6 in
  exists step_lines label_lines,
    lines = step_lines ++ label_lines ++ l6
    /\ how_to = map clean step_lines
    /\ others = map clean l6
    /\ Forall (fun l => has_prefix "other suggestions" l = false) step_lines
    /\ (label_lines = [] /\ l6 = [] /\ label = ""
        \/ label_lines = [label] /\ has_prefix "other suggestions" label = true).
Proof.
  intros Hall.
  destruct (items_loop_all clean (has_prefix "other suggestions") lines [] Hall)
    as (taken & l5 & -> & -> & Ht & Hstop). cbn [app].
  apply Forall_app in Hall as [_ Hall5].
  unfold header. destruct l5 as [|line l6].
  - cbn [items_loop]. exists taken, []. repeat split; auto.
  - rewrite Hstop. inversion Hall5 as [|? ? _ Hall6]; subst.
    destruct (items_loop_all clean (fun _ => false) l6 [] Hall6)
      as (taken6 & rest6 & He & -> & _ & Hr).
    destruct rest6 as [|? ?]; [|discriminate]. rewrite app_nil_r in He. subst taken6.
    exists taken, [line]. repeat split; auto.
Qed.

(** X25. No line of the reply is dropped.  The lines of the reply are, in
    this order: the category line, if the reply starts with one; the harm
    text, if its header comes next, with every line up to the next header;
    the line of the best action, if it comes next; the header of the steps,
    if it comes next; the steps, which are all the lines up to the header of
    the tips or to the end; that header; and the tips, which are all the
    lines after it.  Every step line and every tip line becomes an item, in
    the order of the reply. *)
Theorem every_line_becomes_an_item (text : string) (p : parsed) :
  parse (raw_lines_of (remove_stars text)) = Some p ->
  exists category_lines harm_lines action_lines header_lines
         step_lines label_lines tip_lines,
    raw_lines_of (remove_stars text)
    = category_lines ++ harm_lines ++ action_lines ++ header_lines
      ++ step_lines ++ label_lines ++ tip_lines
    /\ optional_line (has_prefix "category:") category_lines
         (harm_lines ++ action_lines ++ header_lines
          ++ step_lines ++ label_lines ++ tip_lines)
    /\ harm_block harm_lines
         (action_lines ++ header_lines ++ step_lines ++ label_lines ++ tip_lines)
    /\ optional_line (has_prefix "best action:") action_lines
         (header_lines ++ step_lines ++ label_lines ++ tip_lines)
    /\ optional_line (has_prefix "how to") header_lines
         (step_lines ++ label_lines ++ tip_lines)
    /\ (header_lines = [] /\ how_to_label p = "" \/ header_lines = [how_to_label p])
    /\ how_to p = map clean_item step_lines
    /\ Forall (fun l => has_prefix "other suggestions" l = false) step_lines
    /\ (label_lines = [] /\ tip_lines = [] /\ others_label p = ""
        \/ label_lines = [others_label p]
           /\ has_prefix "other suggestions" (others_label p) = true)
    /\ others p = map clean_item tip_lines.
Proof.
  pose proof (raw_lines_phrases (remove_stars text)) as Hph.
  remember (raw_lines_of (remove_stars text)) as lines eqn:El. clear El.
  unfold parse.
  destruct (labelled "category:" lines) as [[c l1]|] eqn:E1; [|discriminate].
  destruct (harm_section l1) as [[h l2]|] eqn:E2; [|discriminate].
  destruct (labelled "best action:" l2) as [[a l3]|] eqn:E3; [|discriminate].
  apply labelled_line in E1 as (f1 & -> & H1).
  apply harm_section_block in E2 as (f2 & -> & H2).
  apply labelled_line in E3 as (f3 & -> & H3).
  destruct (header_line "how to" l3) as (f4 & Hf4 & H4 & Hl4).
  destruct (header "how to" l3) as [hl l4] eqn:Eh. cbn [fst snd] in Hf4, H4, Hl4.
  subst l3.
  assert (Hhl : f4 = [] /\ hl = "" \/ f4 = [hl]).
  { destruct Hl4 as [->|Hl4]; [|now right]. left. split; [reflexivity|].
    cbn [app] in Eh. unfold header in Eh. destruct l4 as [|line rest].
    - now injection Eh as <-.
    - destruct (has_prefix "how to" line).
      + injection Eh as _ Hrest. exfalso.
        apply (f_equal (@List.length string)) in Hrest. cbn [List.length] in Hrest. lia.
      + now injection Eh as <-. }
  assert (Hall : Forall (fun l => clean_item l <> "") l4).
  { rewrite !Forall_app in Hph. destruct Hph as (_ & _ & _ & _ & Hp4).
    revert Hp4. apply Forall_impl. intros l. apply clean_item_nonempty. }
  pose proof (item_sections_labelled clean_item l4 Hall) as H.
  destruct (items_loop clean_item (has_prefix "other suggestions") [] l4) as [ht l5].
  destruct (header "other suggestions" l5) as [ol l6].
  destruct (items_loop clean_item (fun _ => false) [] l6) as [ot l7].
  destruct H as (step_lines & label_lines & -> & -> & -> & Hs & Hl).
  intros [= <-]. cbn [how_to others others_label how_to_label].
  exists f1, f2, f3, f4, step_lines, label_lines, l6.
  split; [reflexivity|]. split; [exact H1|]. split; [exact H2|].
  split; [exact H3|]. split; [exact H4|]. split; [exact Hhl|].
  split; [reflexivity|]. split; [exact Hs|]. split; [|reflexivity].
  destruct Hl as [(-> & -> & ->)|[-> Hl]]; auto.
Qed.

(** X26. The parser of the older [upload_view] never fails and keeps every
    line: after at most two lines for the best action and the steps header,
    every line up to the tips header is a step and every line after it is a
    tip, without its bullet; no step or tip is empty or has blanks around
    it. *)
Theorem older_parser_keeps_every_line (text : string) :
  exists p front step_lines label_lines tip_lines,
    parse_v1 (raw_lines_of (remove_stars text)) = Some p
    /\ raw_lines_of (remove_stars text)
       = front ++ step_lines ++ label_lines ++ tip_lines
    /\ List.length front <= 2
    /\ how_to p = map unbullet step_lines
    /\ others p = map unbullet tip_lines
    /\ Forall (fun l => has_prefix "other suggestions" l = false) step_lines
    /\ (label_lines = [] /\ tip_lines = [] \/ label_lines = [others_label p])
    /\ Forall phrase (how_to p ++ others p).
Proof.
  pose proof (raw_lines_phrases (remove_stars text)) as Hph.
  remember (raw_lines_of (remove_stars text)) as lines eqn:El. clear El.
  unfold parse_v1.
  destruct (labelled_total "best action:" lines) as [[a l3] E3]; [discriminate|].
  rewrite E3. apply labelled_suffix in E3 as (f3 & -> & Hlen3).
  destruct (header_suffix "how to" l3) as (f4 & Hf4 & Hlen4).
  destruct (header "how to" l3) as [hl l4]. cbn [fst snd] in Hf4, Hlen4. subst l3.
  assert (Hph4 : Forall phrase l4).
  { rewrite !Forall_app in Hph. tauto. }
  assert (Hall : Forall (fun l => unbullet l <> "") l4).
  { revert Hph4. apply Forall_impl. intros l. apply unbullet_nonempty. }
  pose proof (item_sections unbullet l4 Hall) as H.
  destruct (items_loop unbullet (has_prefix "other suggestions") [] l4) as [ht l5].
  destruct (header "other suggestions" l5) as [ol l6].
  destruct (items_loop unbullet (fun _ => false) [] l6) as [ot l7].
  destruct H as (step_lines & label_lines & -> & -> & -> & Hs & Hl).
  eexists. exists (f3 ++ f4), step_lines, label_lines, l6.
  split; [reflexivity|]. cbn [how_to others others_label].
  rewrite <- !app_assoc. split; [reflexivity|]. split.
  { rewrite length_app. destruct Hlen4 as [->| ->]; cbn [List.length]; lia. }
  repeat split; try assumption.
  rewrite <- map_app. apply Forall_forall. intros item Hin.
  apply in_map_iff in Hin as (l & <- & Hin).
  assert (Hl4 : phrase l).
  { rewrite Forall_forall in Hph4. apply Hph4.
    apply in_app_or in Hin as [Hin|Hin]; apply in_or_app; [now left|].
    right. apply in_or_app. now right. }
  split; [now apply unbullet_nonempty|].
  unfold unbullet. destruct (starts_with "- " l); [apply strip_idem | apply Hl4].
Qed.

Lemma every_line_becomes_an_item_witness :
  exists category_lines harm_lines action_lines header_lines
         step_lines label_lines tip_lines,
    raw_lines_of (remove_stars loose_reply)
    = category_lines ++ harm_lines ++ action_lines ++ header_lines
      ++ step_lines ++ label_lines ++ tip_lines
    /\ optional_line (has_prefix "category:") category_lines
         (harm_lines ++ action_lines ++ header_lines
          ++ step_lines ++ label_lines ++ tip_lines)
    /\ harm_block harm_lines
         (action_lines ++ header_lines ++ step_lines ++ label_lines ++ tip_lines)
    /\ optional_line (has_prefix "best action:") action_lines
         (header_lines ++ step_lines ++ label_lines ++ tip_lines)
    /\ optional_line (has_prefix "how to") header_lines
         (step_lines ++ label_lines ++ tip_lines)
    /\ (header_lines = [] /\ "" = "" \/ header_lines = [""])
    /\ ["Rinse it."] = map clean_item step_lines
    /\ Forall (fun l => has_prefix "other suggestions" l = false) step_lines
    /\ (label_lines = [] /\ tip_lines = [] /\ "Other suggestions" = ""
        \/ label_lines = ["Other suggestions"]
           /\ has_prefix "other suggestions" "Other suggestions" = true)
    /\ ["Refill bottles."] = map clean_item tip_lines.
Proof.
  apply (every_line_becomes_an_item loose_reply
           (Parsed "" "" "Recycle" "" ["Rinse it."] "Other suggestions"
                   ["Refill bottles."])).
  vm_compute. reflexivity.
Defined.

(** *** Instances *)

Lemma parsed_items_are_clean_witness :
  let lines := ["How to Recycle:"; "1.  Rinse it."; "- Flatten it.";
                "Other suggestions"; "3 Refill bottles."] in
  Forall (fun item => item <> "" /\ strip item = item
                      /\ exists line, In line lines /\ item = clean_item line)
         (["Rinse it."; "Flatten it."] ++ ["Refill bottles."]).
Proof.
  intros lines.
  apply (parsed_items_are_clean lines
           (Parsed "" "" "How to Recycle:" "How to Recycle:"
                   ["Rinse it."; "Flatten it."] "Other suggestions"
                   ["Refill bottles."])).
  vm_compute. reflexivity.
Defined.

Lemma structured_reply_is_read_back_witness :
  parse ["Category: Recyclable"; "Harm: Plastic lasts."; "It breaks into pieces.";
         "Best Action: Recycle"; "How to Recycle:"; "1. Rinse it."; "2. Flatten it.";
         "Other Suggestions:"; "1. Refill bottles."]
  = Some (Parsed "Recyclable" (join nl ["Plastic lasts."; "It breaks into pieces."])
                 "Recycle" "How to Recycle:" ["Rinse it."; "Flatten it."]
                 "Other Suggestions:" ["Refill bottles."]).
Proof.
  apply (structured_reply_is_read_back short_reply).
  unfold well_formed, phrase, digits_only. cbn [short_reply r_category r_harm r_action
    r_more_harm r_how_to_label r_others_label r_steps r_tips].
  repeat split; try discriminate; try reflexivity;
    repeat constructor; try discriminate; reflexivity.
Defined.

Lemma solutions_are_filled_up_witness :
  exists s, solutions small_table "Recyclable" "**Best Action:** Recycle" = Some s.
Proof.
  apply (proj1 (solutions_are_filled_up small_table "Recyclable"
                  "**Best Action:** Recycle")).
  split; [discriminate|]. repeat constructor; discriminate.
Defined.

End SolutionsFacts.
(** ** The price list read without pandas *)

Module PriceListFacts.
Import PyFloat PriceList.

Section WithFloat.

Variable float_of_str : string -> option float.

Lemma member_in s l : member s l = true <-> In s l.
Proof.
  unfold member. rewrite existsb_exists. split.
  - intros (x & Hin & Hx). apply String.eqb_eq in Hx. now subst.
  - intros H. exists s. split; [exact H | apply String.eqb_refl].
Qed.

(** What a row of a file with a column per site stands for. *)
Lemma wide_rows_in fns q rec r :
  In r (wide_rows float_of_str fns q rec) <->
  skipped q (item_of rec) = false
  /\ exists site s,
       In site SITE_COLS /\ In site fns
       /\ get rec site = Some s /\ strip s <> ""
       /\ price_of float_of_str (Some s) = Some (p_price r)
       /\ le (p_price r) (Finite 0) = false
       /\ r = Priced (item_of rec) (Some site) (p_price r) (Some (url site)).
Proof.
  unfold wide_rows. destruct (skipped q (item_of rec)).
  { split; [intros [] | intros [H _]; discriminate]. }
  rewrite in_flat_map. split.
  - intros (site & Hsite & Hin).
    destruct (member site fns) eqn:Em; [|destruct Hin].
    destruct (get rec site) as [s|] eqn:Eg; [|destruct Hin].
    destruct (String.eqb_spec (strip s) ""); [destruct Hin|].
    destruct (price_of float_of_str (Some s)) as [p|] eqn:Ep; [|destruct Hin].
    destruct (le p (Finite 0)) eqn:El; [destruct Hin|].
    destruct Hin as [<-|[]]. split; [reflexivity|].
    exists site, s. cbn [p_price]. apply member_in in Em.
    repeat split; assumption.
  - intros (_ & site & s & Hsite & Hfns & Hg & Hs & Hp & Hpos & ->).
    exists site. split; [exact Hsite|]. cbn [p_price] in *.
    apply member_in in Hfns. rewrite Hfns, Hg.
    destruct (String.eqb_spec (strip s) ""); [contradiction|].
    rewrite Hp, Hpos. now left.
Qed.

Lemma long_rows_in q rec r :
  In r (long_rows float_of_str q rec) <->
  skipped q (item_of rec) = false
  /\ price_of float_of_str (get_or_empty rec "Price") = Some (p_price r)
  /\ r = Priced (item_of rec) (get_or_empty rec "Website") (p_price r)
                (get_or_empty rec "Link").
Proof.
  unfold long_rows. destruct (skipped q (item_of rec)).
  { split; [intros [] | intros [H _]; discriminate]. }
  destruct (price_of float_of_str (get_or_empty rec "Price")) as [p|].
  - split.
    + intros [<-|[]]. repeat split.
    + intros (_ & [= Hp] & ->). left. cbn [p_price] in *. now rewrite Hp.
  - split; [intros [] | intros (_ & H & _); discriminate].
Qed.

Lemma strip_item_of rec : strip (item_of rec) = item_of rec.
Proof. apply TextFacts.strip_idem. Qed.

Lemma all_wide_rows_in fns q records r :
  In r (flat_map (wide_rows float_of_str fns q) records) <->
  exists rec site s,
    In rec records /\ skipped q (item_of rec) = false
    /\ In site SITE_COLS /\ In site fns
    /\ get rec site = Some s /\ strip s <> ""
    /\ price_of float_of_str (Some s) = Some (p_price r)
    /\ le (p_price r) (Finite 0) = false
    /\ r = Priced (item_of rec) (Some site) (p_price r) (Some (url site)).
Proof.
  rewrite in_flat_map. split.
  - intros (rec & Hrec & Hin). apply wide_rows_in in Hin as (Hs & site & s & H).
    exists rec, site, s. tauto.
  - intros (rec & site & s & Hrec & Hs & H). exists rec. split; [exact Hrec|].
    apply wide_rows_in. split; [exact Hs|]. now exists site, s.
Qed.

Lemma all_long_rows_in q records r :
  In r (flat_map (long_rows float_of_str q) records) <->
  exists rec,
    In rec records /\ skipped q (item_of rec) = false
    /\ price_of float_of_str (get_or_empty rec "Price") = Some (p_price r)
    /\ r = Priced (item_of rec) (get_or_empty rec "Website") (p_price r)
                  (get_or_empty rec "Link").
Proof.
  rewrite in_flat_map. split.
  - intros (rec & Hrec & Hin). apply long_rows_in in Hin. exists rec. tauto.
  - intros (rec & Hrec & H). exists rec. split; [exact Hrec|].
    now apply long_rows_in.
Qed.

(** Sorting keeps the rows. *)
Lemma csv_rows_in fieldnames records q r :
  let fns := match fieldnames with Some l => l | None => [] end in
  In r (csv_rows float_of_str fieldnames records q) <->
  In r (if using_wide fns
        then flat_map (wide_rows float_of_str fns q) records
        else flat_map (long_rows float_of_str q) records).
Proof.
  intros fns. unfold csv_rows. fold fns.
  destruct (using_wide fns);
    (split; apply Permutation_in;
     [apply Permutation_sym|]; apply DescendingFacts.sorted_perm).
Qed.

(** X24. The rows read from the CSV file without pandas.  When no price
    among them is NaN they are in descending order of price.  Each has a
    trimmed item name that contains the query when there is one.  And they
    are exactly these: with a column per site, one row for every record
    that matches, known site with a column, and value that is not blank and
    reads as a price of which [price <= 0] does not hold (a price above
    zero, or NaN), carrying the link of the site; with one price per line,
    one row for every record that matches and whose price reads as a
    float. *)
Theorem csv_rows_spec
    (fieldnames : option (list string)) (records : list record) (q : string) :
  let fns := match fieldnames with Some l => l | None => [] end in
  let rows := csv_rows float_of_str fieldnames records q in
  (Forall (fun r => is_nan (p_price r) = false) rows ->
   StronglySorted (fun a b => le (p_price b) (p_price a) = true) rows)
  /\ Forall (fun r => strip (p_item r) = p_item r
                      /\ (q = "" \/ contains q (lower (p_item r)) = true)) rows
  /\ (using_wide fns = true ->
      forall r, In r rows <->
        exists rec site s,
          In rec records /\ skipped q (item_of rec) = false
          /\ In site SITE_COLS /\ In site fns
          /\ get rec site = Some s /\ strip s <> ""
          /\ price_of float_of_str (Some s) = Some (p_price r)
          /\ le (p_price r) (Finite 0) = false
          /\ r = Priced (item_of rec) (Some site) (p_price r) (Some (url site)))
  /\ (using_wide fns = false ->
      forall r, In r rows <->
        exists rec,
          In rec records /\ skipped q (item_of rec) = false
          /\ price_of float_of_str (get_or_empty rec "Price") = Some (p_price r)
          /\ r = Priced (item_of rec) (get_or_empty rec "Website") (p_price r)
                        (get_or_empty rec "Link")).
Proof.
  intros fns rows.
  assert (Hitem : forall r rec, skipped q (item_of rec) = false ->
            p_item r = item_of rec ->
            strip (p_item r) = p_item r
            /\ (q = "" \/ contains q (lower (p_item r)) = true)).
  { intros r rec Hs ->. split; [apply strip_item_of|].
    unfold skipped in Hs. destruct (String.eqb_spec q ""); [now left|].
    right. cbn [negb andb] in Hs. now apply negb_false_iff in Hs. }
  pose proof (csv_rows_in fieldnames records q) as Hin. cbv zeta in Hin. fold fns in Hin.
  fold rows in Hin.
  split.
  { intros Hnan.
    assert (Hfrom : forall l, Permutation l rows ->
              Forall (fun r => is_nan (p_price r) = false) l).
    { intros l Hl. eapply Permutation_Forall; [apply Permutation_sym, Hl | exact Hnan]. }
    unfold rows, csv_rows in *. fold fns in Hfrom |- *.
    destruct (using_wide fns);
      apply (DescendingFacts.sorted_sorted p_price), Hfrom,
            DescendingFacts.sorted_perm. }
  split.
  { apply Forall_forall. intros r Hr. apply Hin in Hr.
    destruct (using_wide fns).
    - apply all_wide_rows_in in Hr
        as (rec & site & s & _ & Hs & _ & _ & _ & _ & _ & _ & ->).
      now apply (Hitem _ rec).
    - apply all_long_rows_in in Hr as (rec & _ & Hs & _ & ->).
      now apply (Hitem _ rec). }
  split.
  - intros Hw r. rewrite Hin, Hw. apply all_wide_rows_in.
  - intros Hw r. rewrite Hin, Hw. apply all_long_rows_in.
Qed.

End WithFloat.

Lemma csv_rows_spec_witness :
  let rows := csv_rows ScrapPrice.whole_float
                (Some ["Item"; "ScrapUncle"; "RecyclePay"]) wide_file "iron" in
  rows = [Priced "Old iron" (Some "ScrapUncle") (Finite (inject_Z 1200))
                 (Some "https://scrapuncle.com/local-rate");
          Priced "Iron" (Some "ScrapUncle") (Finite (inject_Z 30))
                 (Some "https://scrapuncle.com/local-rate")]
  /\ Forall (fun r => is_nan (p_price r) = false) rows
  /\ StronglySorted (fun a b => le (p_price b) (p_price a) = true) rows.
Proof.
  intros rows.
  assert (Forall (fun r => is_nan (p_price r) = false) rows) as Hnan
    by (repeat constructor).
  split; [vm_compute; reflexivity|]. split; [exact Hnan|].
  exact (proj1 (csv_rows_spec ScrapPrice.whole_float
                  (Some ["Item"; "ScrapUncle"; "RecyclePay"]) wide_file "iron") Hnan).
Defined.

End PriceListFacts.

(** ** The scrap-price page on a price list read without pandas *)

Module PricePageFacts.
Import PyFloat ScrapPrice PriceList.

Section WithConversions.

Variable cv : conversions.

Lemma site_cols_trimmed site : In site SITE_COLS -> strip site = site /\ site <> "".
Proof.
  cbn. intros [<-|[<-|[<-|[<-|[<-|[<-|[]]]]]]];
    (split; [vm_compute; reflexivity | discriminate]).
Qed.

(** What the page reads off a row of a file with a column per site. *)
Lemma wide_row_offers item site p link :
  In site SITE_COLS -> nonzero p = true ->
  site_and_price cv (row_of (Priced item (Some site) p link)) = Some (site, p).
Proof.
  intros Hsite Hp. destruct (site_cols_trimmed site Hsite) as [Ht _].
  unfold site_and_price, row_of, get_cell.
  cbn [p_item p_website p_price p_link opt_cell].
  cbn [Dict.find String.eqb Ascii.eqb Bool.eqb].
  cbn [ScrapPrice.py_str cell_truthy py_float]. now rewrite Ht, Hp.
Qed.

(** X27. The scrap-price page on a price list with a column per site, read
    without pandas, when no value of the file reads as NaN: the highest
    price shown is a price above zero that the file holds for the top site
    in a record matching the item, and no matching record holds a higher
    price above zero in the column of any known site. *)
Theorem page_shows_best_csv_offer
    (fieldnames : option (list string)) (records : list record)
    (get_item post_item get_weight post_weight : option string) (m : float) :
  let fns := match fieldnames with Some l => l | None => [] end in
  let query item :=
    Some (query_scrap_prices (float_of_str cv) None (Some (fieldnames, records))
            (Some item)) in
  let ctx := scrap_price cv query get_item post_item get_weight post_weight in
  let q := lower (item ctx) in
  using_wide fns = true ->
  (forall rec site s,
     In rec records -> In site SITE_COLS -> get rec site = Some s ->
     price_of (float_of_str cv) (Some s) <> Some NaN) ->
  max_price ctx = Some m ->
  (exists rec site s,
     In rec records /\ skipped q (item_of rec) = false
     /\ In site SITE_COLS /\ In site fns
     /\ get rec site = Some s
     /\ price_of (float_of_str cv) (Some s) = Some m
     /\ lt (Finite 0) m = true
     /\ top_site ctx = Some site)
  /\ (forall rec site s p,
        In rec records -> skipped q (item_of rec) = false ->
        In site SITE_COLS -> In site fns ->
        get rec site = Some s -> strip s <> "" ->
        price_of (float_of_str cv) (Some s) = Some p -> lt (Finite 0) p = true ->
        le p m = true).
Proof.
  intros fns query ctx q Hwide Hfile Hmax.
  assert (Htable : table ctx
                   = map row_of (csv_rows (float_of_str cv) fieldnames records q)).
  { unfold ctx, scrap_price, query, query_scrap_prices. cbn [table item].
    unfold q, ctx, scrap_price. cbn [item]. unfold param.
    cbn [CityArea.or_empty]. now rewrite TextFacts.strip_idem. }
  assert (Hrow : forall r, In r (csv_rows (float_of_str cv) fieldnames records q) <->
            exists rec site s,
              In rec records /\ skipped q (item_of rec) = false
              /\ In site SITE_COLS /\ In site fns
              /\ get rec site = Some s /\ strip s <> ""
              /\ price_of (float_of_str cv) (Some s) = Some (p_price r)
              /\ le (p_price r) (Finite 0) = false
              /\ r = Priced (item_of rec) (Some site) (p_price r) (Some (url site))).
  { intros r.
    pose proof (PriceListFacts.csv_rows_in (float_of_str cv) fieldnames records q r) as H.
    cbv zeta in H. fold fns in H. rewrite Hwide in H. rewrite H.
    apply PriceListFacts.all_wide_rows_in. }
  assert (Hread : forall rj site price,
            In rj (table ctx) -> offers cv rj site price ->
            exists rec s,
              In rec records /\ skipped q (item_of rec) = false
              /\ In site SITE_COLS /\ In site fns
              /\ get rec site = Some s
              /\ price_of (float_of_str cv) (Some s) = Some price
              /\ le price (Finite 0) = false).
  { intros rj site price Hrj [Ho _]. rewrite Htable in Hrj.
    apply in_map_iff in Hrj as (r & <- & Hr).
    apply Hrow in Hr
      as (rec & site' & s & Hrec & Hs & Hsite & Hfns & Hg & _ & Hp & Hpos & He).
    rewrite He in Ho.
    rewrite (wide_row_offers _ site' _ _ Hsite
               (PyFloatFacts.not_le_zero_nonzero _ Hpos)) in Ho.
    injection Ho as <- <-. exists rec, s. repeat split; assumption. }
  assert (Hnan : forall rj site price,
            In rj (table ctx) -> offers cv rj site price -> is_nan price = false).
  { intros rj site price Hrj Ho.
    destruct (Hread rj site price Hrj Ho) as (rec & s & Hrec & _ & Hsite & _ & Hg & Hp & _).
    destruct price; try reflexivity. exfalso. exact (Hfile rec site s Hrec Hsite Hg Hp). }
  destruct (ScrapPriceFacts.best_entry cv query
              get_item post_item get_weight post_weight m Hnan Hmax)
    as (top & Htop & Hin & Hall).
  fold ctx in Htop, Hin, Hall.
  pose proof (ScrapPriceFacts.site_to_price_aggregated cv (table ctx)) as Hagg.
  destruct (ScrapPriceFacts.aggregated_entries cv _ _ Hagg) as [Hfrom Hbest].
  split.
  - destruct (Hfrom top m Hin) as (rj & Hrj & Ho).
    destruct (Hread rj top m Hrj Ho) as (rec & s & Hrec & Hs & Hsite & Hfns & Hg & Hp & Hpos).
    exists rec, top, s. repeat split; try assumption.
    apply PyFloatFacts.not_le_lt; [exact (Hnan rj top m Hrj Ho) | reflexivity | exact Hpos].
  - intros rec site s p Hrec Hs Hsite Hfns Hg Hne Hp Hpos.
    apply PyFloatFacts.lt_not_le in Hpos.
    set (r := Priced (item_of rec) (Some site) p (Some (url site))).
    assert (Hr : In r (csv_rows (float_of_str cv) fieldnames records q)).
    { apply Hrow. exists rec, site, s. cbn [p_price r]. repeat split; assumption. }
    assert (Ho : offers cv (row_of r) site p).
    { split; [|now destruct (site_cols_trimmed site Hsite)].
      apply wide_row_offers; [exact Hsite|].
      now apply PyFloatFacts.not_le_zero_nonzero. }
    assert (Hrj : In (row_of r) (table ctx)) by (rewrite Htable; now apply in_map).
    destruct (Hbest (row_of r) site p Hrj Ho) as (best & Hb & Hle).
    apply (PyFloatFacts.le_trans _ best); [|exact (Hall _ _ Hb)].
    apply Hle; [|exact (Hnan _ _ _ Hrj Ho)].
    destruct (Hfrom site best Hb) as (r0 & Hr0 & Ho0). exact (Hnan _ _ _ Hr0 Ho0).
Qed.

End WithConversions.

Lemma page_shows_best_csv_offer_witness :
  let query item :=
    Some (query_scrap_prices whole_float None
            (Some (Some ["Item"; "ScrapUncle"; "RecyclePay"], wide_file))
            (Some item)) in
  let ctx := scrap_price exact query (Some " Iron ") None None None in
  max_price ctx = Some (Finite (inject_Z 1200))
  /\ exists rec site s,
       In rec wide_file /\ skipped (lower (item ctx)) (item_of rec) = false
       /\ In site SITE_COLS /\ In site ["Item"; "ScrapUncle"; "RecyclePay"]
       /\ get rec site = Some s
       /\ price_of whole_float (Some s) = Some (Finite (inject_Z 1200))
       /\ lt (Finite 0) (Finite (inject_Z 1200)) = true
       /\ top_site ctx = Some site.
Proof.
  intros query ctx. split; [vm_compute; reflexivity|].
  refine (proj1 (page_shows_best_csv_offer exact
                   (Some ["Item"; "ScrapUncle"; "RecyclePay"]) wide_file
                   (Some " Iron ") None None None (Finite (inject_Z 1200))
                   eq_refl _ eq_refl)).
  intros rec site s _ _ _. unfold price_of. cbn [float_of_str exact].
  unfold whole_float. destruct (Sample.whole_number _); discriminate.
Defined.

End PricePageFacts.
